(** * Lead generation server: storage layer, routes, broadcaster, simulator

    A shallow embedding of [server/storage.ts], [shared/schema.ts] and the
    route module (registerRoutes, broadcastToUser, simulateScraping).

    Conventions of the embedding.
    - A JavaScript object is a finite map from property names to values; a
      property that is absent reads as [undefined].
    - JavaScript numbers are modelled exactly: the integers the program
      stores and sends are in [Z]; the results of [Math.random()] and the
      arithmetic on them are rationals ([Q]).  On IEEE doubles
      [Math.round(k / 10 * 100)] is the same integer, [r > 0.3] has the
      same truth value, and [Math.floor(r * 5)] stays within 0..4 as it
      does here (the rounded product of 5 and a double below 1 is below
      5).
    - An [async] function is a state transformer that either returns or
      throws; effects performed before a throw are kept.  A handler runs
      without interleaving.
    - A table is a finite map from the primary key [id] to the remaining
      columns of the row.  [gen_random_uuid()] yields a key the table does
      not hold yet.
    - The database refuses a text that holds U+0000.  What the driver and
      the engine make of a value that is not of the column's type (a
      string for an integer column, a number for a text column, any value
      for a decimal column) is a component of the database,
      [cast]: it is not fixed here.  An integer column holds any integer:
      the bound of 32 bits is not modelled (the integers the program
      itself writes are a page up to 10, a progress up to 100 and a
      counter that starts at 0 and gains at most 5 per tick). *)

From Stdlib Require Import ZArith QArith Qround String List Lia Lqa DecimalString.
From stdpp Require Import base option gmap strings list fin_maps stringmap sorting.

Local Open Scope string_scope.
Local Open Scope Z_scope.

(** ** Values and objects *)

Inductive value :=
| VNull
| VBool (b : bool)
| VInt (n : Z)
| VStr (s : string)
| VDate (t : Z)
| VOther.  (* any other JSON value: fractional number, array, nested object *)

#[global] Instance value_eq_dec : EqDecision value.
Proof. solve_decision. Defined.

Abbreviation obj := (gmap string value).

(** JavaScript truthiness, as used by [data.userId] in a condition. *)
Definition truthy (v : option value) : bool :=
  match v with
  | None | Some VNull => false
  | Some (VBool b) => b
  | Some (VInt n) => negb (n =? 0)
  | Some (VStr s) => negb (String.eqb s "")
  | Some (VDate _) | Some VOther => true
  end.

(** [x === s] for a string [s]. *)
Definition strict_eq_str (v : option value) (s : string) : bool :=
  match v with
  | Some (VStr s') => String.eqb s' s
  | _ => false
  end.

(** Template literal rendering of an integer: [`${n}`]. *)
Definition show (n : Z) : string := NilZero.string_of_int (Z.to_int n).

(** Does the text hold U+0000?  The database refuses such a parameter
    (SQLSTATE 22021), so no stored text holds one. *)
Fixpoint has_nul (s : string) : bool :=
  match s with
  | EmptyString => false
  | String a s' => Ascii.eqb a Ascii.zero || has_nul s'
  end.

(** ** Exceptions and the handler monad *)

Inductive exn :=
| NotNullViolation        (* SQLSTATE 23502 *)
| ForeignKeyViolation     (* SQLSTATE 23503 *)
| UniqueViolation         (* SQLSTATE 23505 *)
| InvalidValue            (* SQLSTATE 22021, 22P02 and the like *)
| ZodError
| TypeError
| SyntaxError
| StorageFailure (msg : string).

Inductive outcome (A : Type) :=
| Ok (a : A)
| Throw (e : exn).
Arguments Ok {A} a.
Arguments Throw {A} e.

Definition M (S A : Type) : Type := S → outcome A * S.

Definition ret {S A} (a : A) : M S A := λ s, (Ok a, s).
Definition throw {S A} (e : exn) : M S A := λ s, (Throw e, s).
Definition bind {S A B} (m : M S A) (k : A → M S B) : M S B :=
  λ s, match m s with
       | (Ok a, s') => k a s'
       | (Throw e, s') => (Throw e, s')
       end.
Definition try_catch {S A} (body : M S A) (handler : exn → M S A) : M S A :=
  λ s, match body s with
       | (Ok a, s') => (Ok a, s')
       | (Throw e, s') => handler e s'
       end.
Definition gets {S A} (f : S → A) : M S A := λ s, (Ok (f s), s).
Definition modify {S} (f : S → S) : M S unit := λ s, (Ok tt, f s).

Notation "x <- c1 ;; c2" := (bind c1 (λ x, c2))
  (at level 20, c1 at level 99, c2 at level 200, only parsing).
Notation "c1 ;;; c2" := (bind c1 (λ _, c2))
  (at level 100, c2 at level 200, right associativity, only parsing).

Definition threw {A} (o : outcome A) : bool :=
  match o with Ok _ => false | Throw _ => true end.

(** ** Schema (shared/schema.ts) *)

Inductive table := Users | Campaigns | Leads | Files.

#[global] Instance table_eq_dec : EqDecision table.
Proof. solve_decision. Defined.

Inductive coltype := TVarchar | TText | TInteger | TDecimal | TBoolean | TTimestamp.

Inductive coldefault :=
| NoDefault
| DefaultValue (v : value)
| DefaultUuid     (* sql`gen_random_uuid()` *)
| DefaultNow.     (* defaultNow() *)

Record column := Column {
  col_name : string;
  col_type : coltype;
  col_notnull : bool;
  col_default : coldefault;
  col_unique : bool;
  col_references : option table   (* references(() => t.id), no action given *)
}.

Definition col (n : string) (ty : coltype) : column := Column n ty false NoDefault false None.
Definition notNull (c : column) : column :=
  Column (col_name c) (col_type c) true (col_default c) (col_unique c) (col_references c).
Definition default_ (d : coldefault) (c : column) : column :=
  Column (col_name c) (col_type c) (col_notnull c) d (col_unique c) (col_references c).
Definition unique (c : column) : column :=
  Column (col_name c) (col_type c) (col_notnull c) (col_default c) true (col_references c).
Definition references (t : table) (c : column) : column :=
  Column (col_name c) (col_type c) (col_notnull c) (col_default c) (col_unique c) (Some t).

(** Every table has the primary key
    [id: varchar("id").primaryKey().default(sql`gen_random_uuid()`)];
    it is the key of the table map, the lists below give the other columns
    after it. *)
Definition id_column : column := default_ DefaultUuid (notNull (col "id" TVarchar)).

Definition columns (t : table) : list column :=
  id_column ::
  match t with
  | Users =>
      [ unique (col "email" TVarchar);
        col "firstName" TVarchar;
        col "lastName" TVarchar;
        col "profileImageUrl" TVarchar;
        default_ DefaultNow (col "createdAt" TTimestamp);
        default_ DefaultNow (col "updatedAt" TTimestamp) ]
  | Campaigns =>
      [ references Users (notNull (col "userId" TVarchar));
        notNull (col "name" TVarchar);
        notNull (col "businessCategory" TVarchar);
        notNull (col "location" TVarchar);
        notNull (col "radius" TInteger);
        notNull (col "scrapingMode" TVarchar);
        default_ (DefaultValue (VInt 50)) (col "pageLimit" TInteger);
        default_ (DefaultValue (VStr "1.5")) (col "delay" TDecimal);
        default_ (DefaultValue (VStr "draft")) (notNull (col "status" TVarchar));
        default_ (DefaultValue (VInt 0)) (col "progress" TInteger);
        default_ (DefaultValue (VInt 0)) (col "totalPages" TInteger);
        default_ (DefaultValue (VInt 0)) (col "leadsFound" TInteger);
        default_ DefaultNow (col "createdAt" TTimestamp);
        default_ DefaultNow (col "updatedAt" TTimestamp) ]
  | Leads =>
      [ references Campaigns (notNull (col "campaignId" TVarchar));
        notNull (col "businessName" TVarchar);
        col "category" TVarchar;
        col "phone" TVarchar;
        col "email" TVarchar;
        col "website" TVarchar;
        col "address" TText;
        col "city" TVarchar;
        col "state" TVarchar;
        col "zipCode" TVarchar;
        col "rating" TDecimal;
        col "reviewCount" TInteger;
        default_ (DefaultValue (VBool false)) (col "isValidated" TBoolean);
        default_ (DefaultValue (VBool false)) (col "isDuplicate" TBoolean);
        col "notes" TText;
        col "tags" TText;
        default_ (DefaultValue (VStr "not_contacted")) (col "contactStatus" TVarchar);
        default_ DefaultNow (col "createdAt" TTimestamp);
        default_ DefaultNow (col "updatedAt" TTimestamp) ]
  | Files =>
      [ references Users (notNull (col "userId" TVarchar));
        notNull (col "filename" TVarchar);
        notNull (col "originalName" TVarchar);
        notNull (col "fileType" TVarchar);
        notNull (col "fileSize" TInteger);
        notNull (col "filePath" TVarchar);
        default_ DefaultNow (col "uploadedAt" TTimestamp) ]
  end.

Definition all_tables : list table := [Users; Campaigns; Leads; Files].

(** ** The database *)

Record Database := mkDatabase {
  users : gmap string obj;
  campaigns : gmap string obj;
  leads : gmap string obj;
  files : gmap string obj;
  clock : Z;   (* the value of [new Date()] and of [now()] *)
  (* what the driver and the engine make of a value that is not of the
     column's type: the value stored, or the error raised *)
  cast : coltype → value → outcome value
}.

Definition get_table (t : table) (db : Database) : gmap string obj :=
  match t with
  | Users => users db | Campaigns => campaigns db
  | Leads => leads db | Files => files db
  end.

Definition set_table (t : table) (rows : gmap string obj) (db : Database) : Database :=
  match t with
  | Users => mkDatabase rows (campaigns db) (leads db) (files db) (clock db) (cast db)
  | Campaigns => mkDatabase (users db) rows (leads db) (files db) (clock db) (cast db)
  | Leads => mkDatabase (users db) (campaigns db) rows (files db) (clock db) (cast db)
  | Files => mkDatabase (users db) (campaigns db) (leads db) rows (clock db) (cast db)
  end.

(** The row a query returns: the stored columns together with the key. *)
Definition row_of (k : string) (r : obj) : obj := <["id" := VStr k]> r.

(** Only properties that name a column of the table reach the statement. *)
Definition known (t : table) (o : obj) : obj :=
  filter (λ kv, kv.1 ∈ (col_name <$> columns t)) o.

(** The TypeScript type of a column, as the insert schemas check it: a
    string for varchar, text and decimal, a number for integer, a boolean,
    a Date. *)
Definition accepts (ty : coltype) (v : value) : bool :=
  match ty, v with
  | (TVarchar | TText | TDecimal), VStr _ => true
  | TInteger, VInt _ => true
  | TBoolean, VBool _ => true
  | TTimestamp, VDate _ => true
  | _, _ => false
  end.

(** The values a column can hold; the driver returns a decimal as a
    string. *)
Definition holds (ty : coltype) (v : value) : bool :=
  match ty, v with
  | (TVarchar | TText | TDecimal), VStr s => negb (has_nul s)
  | TInteger, VInt _ => true
  | TBoolean, VBool _ => true
  | TTimestamp, VDate _ => true
  | _, _ => false
  end.

(** The text [s] is the key of the row column [c] refers to.  Such a text
    is a stored one. *)
Definition resolves (db : Database) (c : column) (s : string) : bool :=
  match col_references c with
  | Some t' => bool_decide (is_Some (get_table t' db !! s))
  | None => false
  end.

(** What the statement stores for the value [v] given for column [c].  A
    text for a text column is stored as it is unless it holds U+0000; an
    integer, a boolean, a Date for a column of that type are stored as
    they are; every other value goes through [cast], whose result must be
    one the column holds. *)
Definition bind_value (db : Database) (c : column) (v : value) : outcome value :=
  match col_type c, v with
  | _, VNull => Ok VNull
  | (TVarchar | TText), VStr s =>
      if has_nul s && negb (resolves db c s) then Throw InvalidValue else Ok v
  | TInteger, VInt _ => Ok v
  | TBoolean, VBool _ => Ok v
  | TTimestamp, VDate _ => Ok v
  | ty, _ =>
      match cast db ty v with
      | Ok v' => if holds ty v' then Ok v' else Throw InvalidValue
      | Throw e => Throw e
      end
  end.

(** The values of [o] for the columns of the table, as the statement
    stores them; the error of a refused value otherwise. *)
Definition bind_values (db : Database) (t : table) (o : obj) : outcome obj :=
  foldr (λ c rest,
           match rest, o !! col_name c with
           | Throw e, _ => Throw e
           | Ok row, None => Ok row
           | Ok row, Some v =>
               match bind_value db c v with
               | Ok v' => Ok (<[col_name c := v']> row)
               | Throw e => Throw e
               end
           end) (Ok ∅) (columns t).

(** NOT NULL is checked on the rows the statement writes. *)
Definition null_error (t : table) (o : obj) : bool :=
  existsb (λ c, col_notnull c && bool_decide (o !! col_name c = Some VNull)) (columns t).

(** Foreign keys the values [o] assign must point to an existing row. *)
Definition fk_ok (db : Database) (t : table) (o : obj) : bool :=
  forallb (λ c,
             match col_references c, o !! col_name c with
             | Some t', Some (VStr k) => bool_decide (is_Some (get_table t' db !! k))
             | _, _ => true
             end) (columns t).

(** Unique columns the values [o] assign must not repeat a value held by a
    row other than [self]. *)
Definition unique_ok (db : Database) (t : table) (self : string) (o : obj) : bool :=
  forallb (λ c,
             match col_unique c, o !! col_name c with
             | true, Some v =>
                 bool_decide (v = VNull ∨
                   map_Forall (λ k r, k = self ∨ r !! col_name c ≠ Some v) (get_table t db))
             | _, _ => true
             end) (columns t).

Definition same_table (a b : table) : bool :=
  match a, b with
  | Users, Users | Campaigns, Campaigns | Leads, Leads | Files, Files => true
  | _, _ => false
  end.

(** Is the row [k] of table [t] referenced by a row of some table? *)
Definition referenced (db : Database) (t : table) (k : string) : bool :=
  existsb (λ t',
    existsb (λ c,
      match col_references c with
      | Some t0 =>
          same_table t0 t &&
          bool_decide (map_Exists (λ _ r, r !! col_name c = Some (VStr k)) (get_table t' db))
      | None => false
      end) (columns t'))
    all_tables.

Definition default_value (db : Database) (t : table) (c : column) : value :=
  match col_default c with
  | NoDefault => VNull
  | DefaultValue v => v
  | DefaultUuid => VStr (fresh_string "uuid" (get_table t db))
  | DefaultNow => VDate (clock db)
  end.

(** The full row an INSERT builds: given values, defaults elsewhere. *)
Definition complete (db : Database) (t : table) (vals : obj) : obj :=
  foldr (λ c row, <[col_name c := default (default_value db t c) (vals !! col_name c)]> row)
        ∅ (columns t).

(** [db.insert(t).values(vals).returning()] *)
Definition db_insert (t : table) (vals : obj) : M Database obj :=
  λ db,
    match bind_values db t vals with
    | Throw e => (Throw e, db)
    | Ok given =>
        let row := complete db t given in
        if null_error t row then (Throw NotNullViolation, db)
        else
          match row !! "id" with
          | Some (VStr k) =>
              if bool_decide (is_Some (get_table t db !! k)) then (Throw UniqueViolation, db)
              else if negb (unique_ok db t k row) then (Throw UniqueViolation, db)
              else if negb (fk_ok db t row) then (Throw ForeignKeyViolation, db)
              else (Ok row, set_table t (<[k := delete "id" row]> (get_table t db)) db)
          | _ => (Throw NotNullViolation, db)
          end
    end.

(** *** Statements

    A comparison [eq(column, param)] has a text parameter.  The rows whose
    text equals the parameter match; when none does and the parameter
    holds U+0000, the statement is refused.  (A parameter that equals a
    stored text holds no U+0000, and needs no test.) *)

(** [db.update(t).set(set).where(eq(t.id, id)).returning()]: the updated
    row, or nothing when no row has that id.  The foreign keys are declared
    without an action, which is NO ACTION: changing a key that is still
    referenced is refused. *)
Definition db_update (t : table) (id : string) (set : obj) : M Database (option obj) :=
  λ db,
    match bind_values db t set with
    | Throw e => (Throw e, db)
    | Ok set =>
        match get_table t db !! id with
        | None => if has_nul id then (Throw InvalidValue, db) else (Ok None, db)
        | Some old =>
            if null_error t set then (Throw NotNullViolation, db)
            else
              let row := set ∪ row_of id old in
              match row !! "id" with
              | Some (VStr k) =>
                  if negb (bool_decide (k = id)) &&
                     bool_decide (is_Some (get_table t db !! k))
                  then (Throw UniqueViolation, db)
                  else if negb (unique_ok db t id set) then (Throw UniqueViolation, db)
                  else if negb (fk_ok db t set) then (Throw ForeignKeyViolation, db)
                  else if negb (bool_decide (k = id)) && referenced db t id
                  then (Throw ForeignKeyViolation, db)
                  else (Ok (Some row),
                        set_table t (<[k := delete "id" row]> (delete id (get_table t db))) db)
              | _ => (Throw NotNullViolation, db)
              end
        end
    end.

(** [db.delete(t).where(eq(t.id, id))]: NO ACTION again, a referenced row
    cannot be deleted. *)
Definition db_delete (t : table) (id : string) : M Database unit :=
  λ db,
    match get_table t db !! id with
    | None => if has_nul id then (Throw InvalidValue, db) else (Ok tt, db)
    | Some _ =>
        if referenced db t id then (Throw ForeignKeyViolation, db)
        else (Ok tt, set_table t (delete id (get_table t db)) db)
    end.

(** [db.select().from(t).where(eq(t.id, id))] then [const [row] = ...]. *)
Definition select_by_id (t : table) (id : string) : M Database (option obj) :=
  λ db,
    match get_table t db !! id with
    | Some r => (Ok (Some (row_of id r)), db)
    | None => if has_nul id then (Throw InvalidValue, db) else (Ok None, db)
    end.

(** The rows of a table as query results (without ORDER BY the order is
    the one of the map). *)
Definition rows (t : table) (db : Database) : list obj :=
  (λ kr, row_of kr.1 kr.2) <$> map_to_list (get_table t db).

Definition has (c : string) (v : value) (r : obj) : bool :=
  bool_decide (r !! c = Some v).

(** [orderBy(desc(c))] on a timestamp column; NULLs sort first. *)
Definition stamp (c : string) (r : obj) : option Z :=
  match r !! c with Some (VDate t) => Some t | _ => None end.

Definition newer (c : string) (a b : obj) : Prop :=
  match stamp c a, stamp c b with
  | None, _ => True
  | Some _, None => False
  | Some x, Some y => y ≤ x
  end.

#[global] Instance newer_dec c a b : Decision (newer c a b).
Proof. unfold newer. destruct (stamp c a), (stamp c b); apply _. Defined.

Definition order_by_desc (c : string) (l : list obj) : list obj :=
  merge_sort (newer c) l.

(** [db.select().from(t).where(eq(t.c, param)).orderBy(desc(t.ts))] *)
Definition select_where (t : table) (c param ts : string) : M Database (list obj) :=
  λ db,
    match List.filter (has c (VStr param)) (rows t db) with
    | [] => if has_nul param then (Throw InvalidValue, db) else (Ok [], db)
    | l => (Ok (order_by_desc ts l), db)
    end.

(** ** The storage interface (server/storage.ts, [IStorage]) *)

Record IStorage (DB : Type) := {
  getUser : string → M DB (option obj);
  upsertUser : obj → M DB obj;
  createCampaign : string → obj → M DB obj;
  getUserCampaigns : string → M DB (list obj);
  getCampaign : string → M DB (option obj);
  updateCampaign : string → obj → M DB (option obj);
  deleteCampaign : string → M DB unit;
  createLead : obj → M DB obj;
  getCampaignLeads : string → M DB (list obj);
  getUserLeads : string → M DB (list obj);
  updateLead : string → obj → M DB (option obj);
  deleteLead : string → M DB unit;
  getLeadStats : string → M DB obj;
  createFile : string → obj → M DB obj;
  getUserFiles : string → M DB (list obj);
  getFile : string → M DB (option obj);
  deleteFile : string → M DB unit
}.
Arguments getUser {DB}. Arguments upsertUser {DB}.
Arguments createCampaign {DB}. Arguments getUserCampaigns {DB}.
Arguments getCampaign {DB}. Arguments updateCampaign {DB}.
Arguments deleteCampaign {DB}. Arguments createLead {DB}.
Arguments getCampaignLeads {DB}. Arguments getUserLeads {DB}.
Arguments updateLead {DB}. Arguments deleteLead {DB}.
Arguments getLeadStats {DB}. Arguments createFile {DB}.
Arguments getUserFiles {DB}. Arguments getFile {DB}. Arguments deleteFile {DB}.

(** ** [class DatabaseStorage implements IStorage] *)

Module DatabaseStorage.

Definition getUser (id : string) : M Database (option obj) :=
  select_by_id Users id.

(** [insert(users).values(userData).onConflictDoUpdate({target: users.id,
    set: {...userData, updatedAt: new Date()}})]; on a conflict the row
    exists, so the update returns it. *)
Definition upsertUser (userData : obj) : M Database obj :=
  λ db,
    match bind_values db Users userData with
    | Throw e => (Throw e, db)
    | Ok given =>
        match given !! "id" with
        | Some (VStr k) =>
            if bool_decide (is_Some (users db !! k))
            then (r <- db_update Users k (<["updatedAt" := VDate (clock db)]> userData);;
                  ret (default ∅ r)) db
            else db_insert Users userData db
        | _ => db_insert Users userData db
        end
    end.

Definition createCampaign (userId : string) (campaign : obj) : M Database obj :=
  db_insert Campaigns (<["userId" := VStr userId]> campaign).

Definition getUserCampaigns (userId : string) : M Database (list obj) :=
  select_where Campaigns "userId" userId "createdAt".

Definition getCampaign (id : string) : M Database (option obj) :=
  select_by_id Campaigns id.

Definition updateCampaign (id : string) (updates : obj) : M Database (option obj) :=
  now <- gets clock;;
  db_update Campaigns id (<["updatedAt" := VDate now]> updates).

Definition deleteCampaign (id : string) : M Database unit :=
  db_delete Campaigns id.

Definition createLead (lead : obj) : M Database obj :=
  db_insert Leads lead.

Definition getCampaignLeads (campaignId : string) : M Database (list obj) :=
  select_where Leads "campaignId" campaignId "createdAt".

(** [innerJoin(campaigns, eq(leads.campaignId, campaigns.id))
    .where(eq(campaigns.userId, userId))] *)
Definition joined (db : Database) (userId : string) (lead : obj) : bool :=
  match lead !! "campaignId" with
  | Some (VStr c) =>
      match campaigns db !! c with
      | Some campaign => has "userId" (VStr userId) campaign
      | None => false
      end
  | _ => false
  end.

(** The comparison of the joins is [eq(campaigns.userId, userId)]. *)
Definition owner_refused (db : Database) (userId : string) : bool :=
  has_nul userId &&
  negb (existsb (has "userId" (VStr userId)) (rows Campaigns db)).

Definition getUserLeads (userId : string) : M Database (list obj) :=
  λ db,
    if owner_refused db userId then (Throw InvalidValue, db)
    else (Ok (order_by_desc "createdAt" (List.filter (joined db userId) (rows Leads db))), db).

Definition updateLead (id : string) (updates : obj) : M Database (option obj) :=
  now <- gets clock;;
  db_update Leads id (<["updatedAt" := VDate now]> updates).

Definition deleteLead (id : string) : M Database unit :=
  db_delete Leads id.

(** [x.toFixed(1)] for a non-negative number. *)
Definition toFixed1 (x : Q) : string :=
  let n := Qfloor (x * 10 + (1 # 2))%Q in
  show (n / 10) +:+ "." +:+ show (n mod 10).

(** The three counts and the rate; the fourth query (avgRating) does not
    reach the result. *)
Definition getLeadStats (userId : string) : M Database obj :=
  λ db,
    if owner_refused db userId then (Throw InvalidValue, db) else
    let mine := List.filter (joined db userId) (rows Leads db) in
    let totalLeads := Z.of_nat (length mine) in
    let validatedLeads :=
      Z.of_nat (length (List.filter (has "isValidated" (VBool true)) mine)) in
    let activeCampaigns :=
      Z.of_nat (length (List.filter
                          (λ c, has "userId" (VStr userId) c && has "status" (VStr "running") c)
                          (rows Campaigns db))) in
    let conversionRate :=
      if 0 <? totalLeads
      then toFixed1 (inject_Z validatedLeads / inject_Z totalLeads * 100)%Q
      else "0.0" in
    (Ok (<["totalLeads" := VInt totalLeads]>
           (<["validatedLeads" := VInt validatedLeads]>
              (<["activeCampaigns" := VInt activeCampaigns]>
                 (<["conversionRate" := VStr conversionRate]> ∅)))), db).

Definition createFile (userId : string) (file : obj) : M Database obj :=
  db_insert Files (<["userId" := VStr userId]> file).

Definition getUserFiles (userId : string) : M Database (list obj) :=
  select_where Files "userId" userId "uploadedAt".

Definition getFile (id : string) : M Database (option obj) :=
  select_by_id Files id.

Definition deleteFile (id : string) : M Database unit :=
  db_delete Files id.

End DatabaseStorage.

(** [export const storage = new DatabaseStorage()] *)
Definition storage : IStorage Database := {|
  getUser := DatabaseStorage.getUser;
  upsertUser := DatabaseStorage.upsertUser;
  createCampaign := DatabaseStorage.createCampaign;
  getUserCampaigns := DatabaseStorage.getUserCampaigns;
  getCampaign := DatabaseStorage.getCampaign;
  updateCampaign := DatabaseStorage.updateCampaign;
  deleteCampaign := DatabaseStorage.deleteCampaign;
  createLead := DatabaseStorage.createLead;
  getCampaignLeads := DatabaseStorage.getCampaignLeads;
  getUserLeads := DatabaseStorage.getUserLeads;
  updateLead := DatabaseStorage.updateLead;
  deleteLead := DatabaseStorage.deleteLead;
  getLeadStats := DatabaseStorage.getLeadStats;
  createFile := DatabaseStorage.createFile;
  getUserFiles := DatabaseStorage.getUserFiles;
  getFile := DatabaseStorage.getFile;
  deleteFile := DatabaseStorage.deleteFile
|}.

(** ** Realtime connections (the WebSocket server in registerRoutes) *)

Inductive ReadyState := CONNECTING | OPEN | CLOSING | CLOSED.

#[global] Instance ReadyState_eq_dec : EqDecision ReadyState.
Proof. solve_decision. Defined.

(** What the server sends: [client.send(JSON.stringify(message))]. *)
Inductive ws_message :=
| campaign_updated (campaign : option obj)
| scraping_progress (campaignId : string) (progress currentPage totalPages leadsFound : Z)
| scraping_completed (campaignId : string).

(** [interface WebSocketClient extends WebSocket { userId?: string }],
    with the texts sent to the peer so far. *)
Record WebSocketClient := mkClient {
  readyState : ReadyState;
  userId : option value;
  sent : list ws_message
}.

(** What [JSON.parse(message.toString())] yields on a frame that is JSON. *)
Inductive JSON :=
| JObject (o : obj)
| JNull     (* reading a property of null throws a TypeError *)
| JOther.   (* number, string, boolean, array: [type] and [userId] are undefined *)

(** A frame that is not JSON is [None]: JSON.parse throws. *)
Definition JSON_parse {S} (message : option JSON) : M S JSON :=
  match message with
  | Some data => ret data
  | None => throw SyntaxError
  end.

Definition prop {S} (data : JSON) (name : string) : M S (option value) :=
  match data with
  | JObject o => ret (o !! name)
  | JNull => throw TypeError
  | JOther => ret None
  end.

(** [ws.on('message', (message) => { try { ... } catch (error) { ... } })] *)
Definition on_message (message : option JSON) : M WebSocketClient unit :=
  try_catch
    (data <- JSON_parse message;;
     type <- prop data "type";;
     if strict_eq_str type "auth" then
       userId' <- prop data "userId";;
       if truthy userId' then
         modify (λ ws, mkClient (readyState ws) userId' (sent ws))
       else ret tt
     else ret tt)
    (λ error, ret tt).

Definition send (message : ws_message) (client : WebSocketClient) : WebSocketClient :=
  mkClient (readyState client) (userId client) (sent client ++ [message]).

(** [wss.clients]: the sockets by identity.  A closed socket stays in the
    map with [readyState = CLOSED] (the library removes it; the test on
    [readyState] makes the two indistinguishable). *)
Abbreviation Clients := (gmap nat WebSocketClient).

Definition broadcastToUser (user : string) (message : ws_message) (clients : Clients) : Clients :=
  (λ client,
     if bool_decide (readyState client = OPEN) && strict_eq_str (userId client) user
     then send message client
     else client) <$> clients.

(** The events of the connection registry. *)
Inductive ws_event :=
| Connection                                   (* wss.on('connection') *)
| Message (c : nat) (message : option JSON)    (* ws.on('message') *)
| Close (c : nat)                              (* ws.on('close') *)
| Broadcast (user : string) (message : ws_message).  (* any call of broadcastToUser *)

Definition ws_step (clients : Clients) (e : ws_event) : Clients :=
  match e with
  | Connection => <[fresh (dom clients) := mkClient OPEN None []]> clients
  | Message c message =>
      match clients !! c with
      | Some ws => <[c := (on_message message ws).2]> clients
      | None => clients
      end
  | Close c => alter (λ ws, mkClient CLOSED (userId ws) (sent ws)) c clients
  | Broadcast user message => broadcastToUser user message clients
  end.

Definition ws_run (clients : Clients) (trace : list ws_event) : Clients :=
  foldl ws_step clients trace.

(** The frame [{type: "auth", userId}] with a usable user id. *)
Definition is_auth (message : option JSON) : bool :=
  match message with
  | Some (JObject o) => strict_eq_str (o !! "type") "auth" && truthy (o !! "userId")
  | _ => false
  end.

Definition sends_auth (c : nat) (e : ws_event) : bool :=
  match e with
  | Message c' message => bool_decide (c' = c) && is_auth message
  | _ => false
  end.

(** ** The process: database, sockets, timers, randomness *)

(** [node --unhandled-rejections=...]: what a rejected promise nobody
    awaits does to the process. *)
Inductive rejection_policy := warn | terminate.

Record Runtime := mkRuntime {
  unhandled_rejections : rejection_policy;
  resolve : string → string;       (* path.join(process.cwd(), p) *)
  existsSync : string → bool       (* fs.existsSync *)
}.

(** The variables one call of simulateScraping closes over. *)
Record Run := mkRun {
  run_campaignId : string;
  run_userId : string;
  currentPage : Z;
  leadsFound : Z;
  cleared : bool       (* clearInterval(interval) was called *)
}.

Record World (DB : Type) := mkWorld {
  db : DB;
  clients : Clients;
  intervals : list Run;            (* setInterval handles, in creation order *)
  random : nat → Q;                (* the values Math.random() will return *)
  drawn : nat;                     (* how many have been returned *)
  console : list (string * exn);   (* console.error lines *)
  unhandled : list exn;            (* rejections nobody handled *)
  exited : bool;
  runtime : Runtime
}.
Arguments mkWorld {DB}. Arguments db {DB}. Arguments clients {DB}.
Arguments intervals {DB}. Arguments random {DB}. Arguments drawn {DB}.
Arguments console {DB}. Arguments unhandled {DB}. Arguments exited {DB}.
Arguments runtime {DB}.

Section World.
Context {DB : Type}.
Implicit Type w : World DB.

Definition with_db (d : DB) w :=
  mkWorld d (clients w) (intervals w) (random w) (drawn w) (console w)
          (unhandled w) (exited w) (runtime w).
Definition with_clients (c : Clients) w :=
  mkWorld (db w) c (intervals w) (random w) (drawn w) (console w)
          (unhandled w) (exited w) (runtime w).
Definition with_intervals (i : list Run) w :=
  mkWorld (db w) (clients w) i (random w) (drawn w) (console w)
          (unhandled w) (exited w) (runtime w).
Definition with_drawn (n : nat) w :=
  mkWorld (db w) (clients w) (intervals w) (random w) n (console w)
          (unhandled w) (exited w) (runtime w).
Definition with_console (c : list (string * exn)) w :=
  mkWorld (db w) (clients w) (intervals w) (random w) (drawn w) c
          (unhandled w) (exited w) (runtime w).
Definition with_unhandled (u : list exn) (x : bool) w :=
  mkWorld (db w) (clients w) (intervals w) (random w) (drawn w) (console w)
          u x (runtime w).

(** A storage call made from a handler. *)
Definition await {A} (m : M DB A) : M (World DB) A :=
  λ w, let (r, d) := m (db w) in (r, with_db d w).

Definition console_error (label : string) (error : exn) : M (World DB) unit :=
  modify (λ w, with_console (console w ++ [(label, error)]) w).

Definition broadcast (user : string) (message : ws_message) : M (World DB) unit :=
  modify (λ w, with_clients (broadcastToUser user message (clients w)) w).

Definition Math_random : M (World DB) Q :=
  λ w, (Ok (random w (drawn w)), with_drawn (S (drawn w)) w).
End World.

Definition Math_floor (x : Q) : Z := Qfloor x.
Definition Math_round (x : Q) : Z := Qfloor (x + (1 # 2)).
Definition Qgt_bool (x y : Q) : bool := negb (Qle_bool x y).

Fixpoint for_ {S} (l : list Z) (body : Z → M S unit) : M S unit :=
  match l with
  | [] => ret tt
  | i :: l' => body i ;;; for_ l' body
  end.

(** ** Requests and responses *)

(** A request that passed [isAuthenticated]. *)
Record Request := mkRequest {
  user : string;          (* req.user.claims.sub *)
  params_id : string;     (* req.params.id *)
  body : obj;             (* req.body *)
  file : option obj       (* req.file, set by upload.single('file') *)
}.

Inductive payload :=
| undefined
| object (o : obj)
| array (l : list obj)
| download (path : string) (filename : option value).   (* res.sendFile *)

Record Response := mkResponse {
  status : Z;
  sent_body : payload
}.

Definition of_option (o : option obj) : payload :=
  match o with Some r => object r | None => undefined end.

(** [{ message: m }] *)
Definition message (m : string) : payload := object {["message" := VStr m]}.

Definition json {S} (p : payload) : M S Response := ret (mkResponse 200 p).
Definition status_json {S} (code : Z) (p : payload) : M S Response :=
  ret (mkResponse code p).

(** [createInsertSchema(t).omit(...)]: a column that is NOT NULL and has
    no default is required, the others are optional; a nullable column
    also takes null; unknown properties are stripped. *)
Definition schema_parse {S} (t : table) (omit : list string) (data : obj) : M S obj :=
  let cols := List.filter (λ c, negb (bool_decide (col_name c ∈ omit))) (columns t) in
  if forallb (λ c,
                match data !! col_name c with
                | None =>
                    negb (col_notnull c) ||
                    match col_default c with NoDefault => false | _ => true end
                | Some VNull => negb (col_notnull c)
                | Some v => accepts (col_type c) v
                end) cols
  then ret (filter (λ kv, kv.1 ∈ (col_name <$> cols)) data)
  else throw ZodError.

Definition insertCampaignSchema {S} : obj → M S obj :=
  schema_parse Campaigns ["id"; "userId"; "createdAt"; "updatedAt"].

(** ** simulateScraping and the routes, over a storage *)

Definition totalPages : Z := 10.

Section Server.
Context {DB : Type} (storage : IStorage DB).
Implicit Type w : World DB.

Definition set_run (h : nat) (run : Run) : M (World DB) unit :=
  modify (λ w, with_intervals (<[h := run]> (intervals w)) w).

Definition clearInterval (h : nat) : M (World DB) unit :=
  modify (λ w, with_intervals
                 (alter (λ r, mkRun (run_campaignId r) (run_userId r)
                                    (currentPage r) (leadsFound r) true) h (intervals w)) w).

Definition sample_lead (campaignId : string) (n : Z) (isValidated : bool) : obj :=
  <["campaignId" := VStr campaignId]>
    (<["businessName" := VStr ("Business " +:+ show n)]>
       (<["category" := VStr "Sample Category"]>
          (<["city" := VStr "Sample City"]>
             (<["state" := VStr "SC"]>
                (<["isValidated" := VBool isValidated]> ∅))))).

(** The callback given to [setInterval] by the run with handle [h]. *)
Definition interval_callback (h : nat) : M (World DB) unit :=
  closure <- gets (λ w, intervals w !! h);;
  match closure with
  | None => ret tt
  | Some run =>
      let campaignId := run_campaignId run in
      let userId := run_userId run in
      r <- Math_random;;
      let currentPage := currentPage run + 1 in
      let leadsFound := leadsFound run + (Math_floor (r * 5) + 1) in
      set_run h (mkRun campaignId userId currentPage leadsFound (cleared run));;;
      let progress := Math_round (inject_Z currentPage / inject_Z totalPages * 100) in
      _ <- await (updateCampaign storage campaignId
                    (<["progress" := VInt progress]>
                       (<["totalPages" := VInt currentPage]>
                          (<["leadsFound" := VInt leadsFound]> ∅))));;
      for_ [0; 1] (λ i,
        v <- Math_random;;
        _ <- await (createLead storage
                      (sample_lead campaignId (leadsFound + i) (Qgt_bool v (3 # 10))));;
        ret tt);;;
      broadcast userId
        (scraping_progress campaignId progress currentPage totalPages leadsFound);;;
      if totalPages <=? currentPage then
        clearInterval h;;;
        _ <- await (updateCampaign storage campaignId
                      (<["status" := VStr "completed"]> (<["progress" := VInt 100]> ∅)));;
        broadcast userId (scraping_completed campaignId)
      else ret tt
  end.

(** [simulateScraping(campaignId, userId, broadcastToUser)]: the timer is
    armed, nothing else happens in the call. *)
Definition simulateScraping (campaignId userId : string) : M (World DB) unit :=
  modify (λ w, with_intervals (intervals w ++ [mkRun campaignId userId 0 0 false]) w).

(** The promise of the callback is not awaited by anybody. *)
Definition unhandledRejection (e : exn) w : World DB :=
  with_unhandled (unhandled w ++ [e])
    (match unhandled_rejections (runtime w) with
     | terminate => true
     | warn => exited w
     end) w.

(** The timer of run [h] fires. *)
Definition fire (h : nat) w : World DB :=
  if exited w then w
  else match intervals w !! h with
       | Some run =>
           if cleared run then w
           else match interval_callback h w with
                | (Ok _, w') => w'
                | (Throw e, w') => unhandledRejection e w'
                end
       | None => w
       end.

Fixpoint fires (n : nat) (h : nat) w : World DB :=
  match n with
  | O => w
  | S n' => fire h (fires n' h w)
  end.

(** *** Routes *)

Inductive route :=
| GET_auth_user
| POST_campaigns
| GET_campaigns
| GET_campaign
| PATCH_campaign
| DELETE_campaign
| POST_campaign_start
| GET_leads
| GET_campaign_leads
| PATCH_lead
| GET_stats
| POST_files_upload
| GET_files
| GET_file_download.

(** The log label and the reply of each route's [catch] block. *)
Definition on_error (r : route) : string * (Z * string) :=
  match r with
  | GET_auth_user => ("Error fetching user:", (500, "Failed to fetch user"))
  | POST_campaigns => ("Error creating campaign:", (400, "Failed to create campaign"))
  | GET_campaigns => ("Error fetching campaigns:", (500, "Failed to fetch campaigns"))
  | GET_campaign => ("Error fetching campaign:", (500, "Failed to fetch campaign"))
  | PATCH_campaign => ("Error updating campaign:", (400, "Failed to update campaign"))
  | DELETE_campaign => ("Error deleting campaign:", (500, "Failed to delete campaign"))
  | POST_campaign_start => ("Error starting campaign:", (500, "Failed to start campaign"))
  | GET_leads => ("Error fetching leads:", (500, "Failed to fetch leads"))
  | GET_campaign_leads =>
      ("Error fetching campaign leads:", (500, "Failed to fetch campaign leads"))
  | PATCH_lead => ("Error updating lead:", (400, "Failed to update lead"))
  | GET_stats => ("Error fetching stats:", (500, "Failed to fetch stats"))
  | POST_files_upload => ("Error uploading file:", (500, "Failed to upload file"))
  | GET_files => ("Error fetching files:", (500, "Failed to fetch files"))
  | GET_file_download => ("Error downloading file:", (500, "Failed to download file"))
  end.

Definition catch_block (r : route) (error : exn) : M (World DB) Response :=
  console_error (on_error r).1 error;;;
  status_json (on_error r).2.1 (message (on_error r).2.2).

(** The multer file as the object given to [storage.createFile]. *)
Definition uploaded (f : obj) : obj :=
  let pick (from to : string) (o : obj) : obj :=
    match f !! from with Some v => <[to := v]> o | None => o end in
  pick "filename" "filename"
    (pick "originalname" "originalName"
       (pick "mimetype" "fileType"
          (pick "size" "fileSize"
             (pick "path" "filePath" ∅)))).

(** The [try] block of each route. *)
Definition try_block (r : route) (req : Request) : M (World DB) Response :=
  match r with
  | GET_auth_user =>
      let userId := user req in
      user <- await (getUser storage userId);;
      json (of_option user)
  | POST_campaigns =>
      let userId := user req in
      campaignData <- insertCampaignSchema (body req);;
      campaign <- await (createCampaign storage userId campaignData);;
      json (object campaign)
  | GET_campaigns =>
      let userId := user req in
      campaigns <- await (getUserCampaigns storage userId);;
      json (array campaigns)
  | GET_campaign =>
      campaign <- await (getCampaign storage (params_id req));;
      match campaign with
      | None => status_json 404 (message "Campaign not found")
      | Some campaign => json (object campaign)
      end
  | PATCH_campaign =>
      campaign <- await (updateCampaign storage (params_id req) (body req));;
      let userId := user req in
      broadcast userId (campaign_updated campaign);;;
      json (of_option campaign)
  | DELETE_campaign =>
      await (deleteCampaign storage (params_id req));;;
      json (object {["success" := VBool true]})
  | POST_campaign_start =>
      let userId := user req in
      campaign <- await (updateCampaign storage (params_id req)
                           (<["status" := VStr "running"]> (<["progress" := VInt 0]> ∅)));;
      simulateScraping (params_id req) userId;;;
      json (of_option campaign)
  | GET_leads =>
      let userId := user req in
      leads <- await (getUserLeads storage userId);;
      json (array leads)
  | GET_campaign_leads =>
      leads <- await (getCampaignLeads storage (params_id req));;
      json (array leads)
  | PATCH_lead =>
      lead <- await (updateLead storage (params_id req) (body req));;
      json (of_option lead)
  | GET_stats =>
      let userId := user req in
      stats <- await (getLeadStats storage userId);;
      json (object stats)
  | POST_files_upload =>
      match file req with
      | None => status_json 400 (message "No file uploaded")
      | Some f =>
          let userId := user req in
          file <- await (createFile storage userId (uploaded f));;
          json (object file)
      end
  | GET_files =>
      let userId := user req in
      files <- await (getUserFiles storage userId);;
      json (array files)
  | GET_file_download =>
      file <- await (getFile storage (params_id req));;
      match file with
      | None => status_json 404 (message "File not found")
      | Some file =>
          match file !! "filePath" with
          | Some (VStr p) =>
              filePath <- gets (λ w, resolve (runtime w) p);;
              exists_ <- gets (λ w, existsSync (runtime w) filePath);;
              if exists_ then json (download filePath (file !! "originalName"))
              else status_json 404 (message "File not found on disk")
          | _ => throw TypeError    (* path.join on a value that is no string *)
          end
      end
  end.

Definition handle (r : route) (req : Request) : M (World DB) Response :=
  try_catch (try_block r req) (catch_block r).

End Server.

(** * Statements *)

(** ** Vocabulary *)

(** [Math.floor(Math.random() * 5) + 1] for the draw [r]. *)
Definition increment (r : Q) : Z := Math_floor (r * 5) + 1.

(** [Math.round((currentPage / totalPages) * 100)] *)
Definition progress_of (cp : Z) : Z := Math_round (inject_Z cp / inject_Z totalPages * 100).

(** [Math.random()] returns numbers in [0, 1). *)
Definition unit_random {DB} (w : World DB) : Prop :=
  ∀ n, (0 <= random w n)%Q ∧ (random w n < 1)%Q.

(** The closure variables [leadsFound] and [currentPage] of run [h]. *)
Definition counter {DB} (h : nat) (w : World DB) : Z :=
  match intervals w !! h with Some run => leadsFound run | None => 0 end.
Definition page {DB} (h : nat) (w : World DB) : Z :=
  match intervals w !! h with Some run => currentPage run | None => 0 end.

(** [{ progress, totalPages: currentPage, leadsFound }] and
    [{ status: 'completed', progress: 100 }] *)
Definition progress_set (p cp lf : Z) : obj :=
  <["progress" := VInt p]> (<["totalPages" := VInt cp]> (<["leadsFound" := VInt lf]> ∅)).
Definition completed_set : obj :=
  <["status" := VStr "completed"]> (<["progress" := VInt 100]> ∅).

(** The objects one tick of [run] hands to the storage, given the values
    [Math.random()] returns to it. *)
Definition tick_page (run : Run) : Z := currentPage run + 1.
Definition tick_found (run : Run) (r : Q) : Z := leadsFound run + increment r.
Definition tick_update (run : Run) (r : Q) : obj :=
  progress_set (progress_of (tick_page run)) (tick_page run) (tick_found run r).
Definition tick_lead (run : Run) (r : Q) (i : Z) (v : Q) : obj :=
  sample_lead (run_campaignId run) (tick_found run r + i) (Qgt_bool v (3 # 10)).

(** The lead insert number [i] (0 or 1) of the tick of run [h] in [w]
    throws [e] and leaves the database [d']: the first one, or the second
    one after the first went through. *)
Definition lead_insert_throws {DB} (st : IStorage DB) (h : nat) (w : World DB)
    (e : exn) (i : nat) (d' : DB) : Prop :=
  ∃ run u d1, intervals w !! h = Some run ∧
    let r := random w (drawn w) in
    updateCampaign st (run_campaignId run) (tick_update run r) (db w) = (Ok u, d1) ∧
    ((i = 0%nat ∧
      createLead st (tick_lead run r 0 (random w (S (drawn w)))) d1 = (Throw e, d')) ∨
     (i = 1%nat ∧
      ∃ l d2, createLead st (tick_lead run r 0 (random w (S (drawn w)))) d1
              = (Ok l, d2) ∧
              createLead st (tick_lead run r 1 (random w (S (S (drawn w))))) d2
              = (Throw e, d'))).

(** The stored campaign row after [updateCampaign(id, set)] on a row [c]
    when [set] writes no key column. *)
Definition stored (set : obj) (now : Z) (id : string) (c : obj) : obj :=
  delete "id" (known Campaigns (<["updatedAt" := VDate now]> set) ∪ row_of id c).
Definition put_campaign (id : string) (c : obj) (d : Database) : Database :=
  set_table Campaigns (<[id := c]> (campaigns d)) d.
Definition add_lead (lead : obj) (d : Database) : Database :=
  set_table Leads
    (<[fresh_string "uuid" (leads d) := delete "id" (complete d Leads lead)]> (leads d)) d.

(** The database after one tick of [run] on an existing campaign row [c]. *)
Definition tick_db (run : Run) (r v0 v1 : Q) (c : obj) (d : Database) : Database :=
  let id := run_campaignId run in
  let c1 := stored (tick_update run r) (clock d) id c in
  let d3 := add_lead (tick_lead run r 1 v1)
              (add_lead (tick_lead run r 0 v0) (put_campaign id c1 d)) in
  if totalPages <=? tick_page run
  then put_campaign id (stored completed_set (clock d) id c1) d3
  else d3.

(** The leads of a campaign. *)
Definition leads_of (campaignId : string) (d : Database) : gmap string obj :=
  filter (λ kr, kr.2 !! "campaignId" = Some (VStr campaignId)) (leads d).

(** The sum of the increments of the first [n] ticks of a run whose first
    draw is number [start]; a tick draws three numbers. *)
Fixpoint found (rnd : nat → Q) (start n : nat) : Z :=
  match n with
  | O => 0
  | S n' => found rnd start n' + increment (rnd (start + 3 * n')%nat)
  end.

(** [{ status: 'running', progress: 0 }] *)
Definition running_set : obj :=
  <["status" := VStr "running"]> (<["progress" := VInt 0]> ∅).

(** The process [n] ticks into the run [h] of campaign [id], started by
    [user] when [start] numbers had been drawn and the campaign had [had]
    leads. *)
Definition ticked (h : nat) (id user : string) (rnd : nat → Q) (start had : nat)
    (n : nat) (w : World Database) : Prop :=
  exited w = false ∧ random w = rnd ∧ drawn w = (start + 3 * n)%nat ∧
  intervals w !! h =
    Some (mkRun id user (Z.of_nat n) (found rnd start n) (totalPages <=? Z.of_nat n)) ∧
  size (leads_of id (db w)) = (had + 2 * n)%nat ∧
  ∃ c, campaigns (db w) !! id = Some c ∧
       ((0 < n)%nat →
        c !! "totalPages" = Some (VInt (Z.of_nat n)) ∧
        c !! "leadsFound" = Some (VInt (found rnd start n)) ∧
        c !! "progress" =
          Some (VInt (if totalPages <=? Z.of_nat n then 100
                      else progress_of (Z.of_nat n))) ∧
        (totalPages ≤ Z.of_nat n → c !! "status" = Some (VStr "completed"))).

(** The storage call of route [r] on request [req] throws in state [d]. *)
Definition storage_call_throws {DB} (st : IStorage DB) (r : route) (req : Request)
    (d : DB) : bool :=
  match r with
  | GET_auth_user => threw (getUser st (user req) d).1
  | POST_campaigns =>
      match (insertCampaignSchema (body req) d).1 with
      | Ok campaignData => threw (createCampaign st (user req) campaignData d).1
      | Throw _ => false
      end
  | GET_campaigns => threw (getUserCampaigns st (user req) d).1
  | GET_campaign => threw (getCampaign st (params_id req) d).1
  | PATCH_campaign => threw (updateCampaign st (params_id req) (body req) d).1
  | DELETE_campaign => threw (deleteCampaign st (params_id req) d).1
  | POST_campaign_start => threw (updateCampaign st (params_id req) running_set d).1
  | GET_leads => threw (getUserLeads st (user req) d).1
  | GET_campaign_leads => threw (getCampaignLeads st (params_id req) d).1
  | PATCH_lead => threw (updateLead st (params_id req) (body req) d).1
  | GET_stats => threw (getLeadStats st (user req) d).1
  | POST_files_upload =>
      match file req with
      | Some f => threw (createFile st (user req) (uploaded f) d).1
      | None => false
      end
  | GET_files => threw (getUserFiles st (user req) d).1
  | GET_file_download => threw (getFile st (params_id req) d).1
  end.

(** A lead row as the simulator fills it. *)
Definition placeholder (lead : obj) (campaignId : string) (n : Z) (isValidated : bool) : Prop :=
  lead !! "campaignId" = Some (VStr campaignId) ∧
  lead !! "businessName" = Some (VStr ("Business " +:+ show n)) ∧
  lead !! "category" = Some (VStr "Sample Category") ∧
  lead !! "city" = Some (VStr "Sample City") ∧
  lead !! "state" = Some (VStr "SC") ∧
  lead !! "isValidated" = Some (VBool isValidated).

(** [after] is [before] with [messages] sent to the open sockets tagged
    [user], and to no other. *)
Definition delivered (user : string) (messages : list ws_message)
    (before after : Clients) : Prop :=
  ∀ i, after !! i =
       (λ ws, if bool_decide (readyState ws = OPEN) && strict_eq_str (userId ws) user
              then mkClient (readyState ws) (userId ws) (sent ws ++ messages)
              else ws) <$> before !! i.

(** Of the [N] equally spaced draws [k/N], how many give a validated lead. *)
Definition validated_among (N : nat) : nat :=
  length (List.filter
            (λ k, Qgt_bool (inject_Z (Z.of_nat k) / inject_Z (Z.of_nat N)) (3 # 10))
            (seq 0 N)).

(** No frame of connection [c] in the trace is a usable auth frame. *)
Definition never_auth (c : nat) (trace : list ws_event) : bool :=
  forallb (λ e, negb (sends_auth c e)) trace.

(** Connection [c], if it is there, has no user id and was sent nothing. *)
Definition untouched (c : nat) (clients : Clients) : Prop :=
  ∀ ws, clients !! c = Some ws → userId ws = None ∧ sent ws = [].

(** ** Sample data *)

(** The campaign of the example scenario: pageLimit 50, delay 1.5, owned
    by bob. *)
Definition sample_campaign : obj :=
  <["userId" := VStr "bob"]>
    (<["name" := VStr "Dentists"]>
       (<["businessCategory" := VStr "dentist"]>
          (<["location" := VStr "Austin"]>
             (<["radius" := VInt 10]>
                (<["scrapingMode" := VStr "standard"]>
                   (<["pageLimit" := VInt 50]>
                      (<["delay" := VStr "1.5"]>
                         (<["status" := VStr "draft"]>
                            (<["progress" := VInt 0]>
                               (<["totalPages" := VInt 0]>
                                  (<["leadsFound" := VInt 0]>
                                     (<["createdAt" := VDate 0]>
                                        (<["updatedAt" := VDate 0]> ∅))))))))))))).

Definition sample_users : gmap string obj := <["bob" := ∅]> (<["alice" := ∅]> ∅).

(** An engine that reads a decimal literal given for an integer column,
    writes an integer given for a text column in decimal, and refuses
    every other conversion. *)
Definition sample_cast (ty : coltype) (v : value) : outcome value :=
  match ty, v with
  | TInteger, VStr s =>
      match NilEmpty.int_of_string s with
      | Some n => Ok (VInt (Z.of_int n))
      | None => Throw InvalidValue
      end
  | (TVarchar | TText), VInt n => Ok (VStr (show n))
  | _, _ => Throw InvalidValue
  end.

Definition sample_db : Database :=
  mkDatabase sample_users {["c1" := sample_campaign]} ∅ ∅ 0 sample_cast.

(** The same with one lead of the campaign. *)
Definition sample_db_with_lead : Database :=
  mkDatabase sample_users {["c1" := sample_campaign]}
    {["l1" := <["campaignId" := VStr "c1"]> {["businessName" := VStr "Business 1"]}]} ∅ 0
    sample_cast.

(** Socket 0 is bob's, socket 1 is alice's, socket 2 never sent auth. *)
Definition sample_clients : Clients :=
  <[0%nat := mkClient OPEN (Some (VStr "bob")) []]>
    (<[1%nat := mkClient OPEN (Some (VStr "alice")) []]>
       (<[2%nat := mkClient OPEN None []]> ∅)).

(** Every [Math.random()] returns 0.5. *)
Definition sample_world (d : Database) (p : rejection_policy) : World Database :=
  mkWorld d sample_clients [] (λ _, 1 # 2)%Q 0 [] [] false
          (mkRuntime p (λ path, path) (λ _, true)).

(** A request of user [u] on the sample campaign, with an empty body. *)
Definition start_by (u : string) : Request := mkRequest u "c1" ∅ None.

Definition sample_trace : list ws_event :=
  [ Connection;
    Message 0 (Some (JObject {["type" := VStr "ping"]}));
    Message 0 None;
    Message 0 (Some (JObject (<["type" := VStr "auth"]> {["userId" := VStr ""]})));
    Connection;
    Message 1 (Some (JObject (<["type" := VStr "auth"]> {["userId" := VStr "bob"]})));
    Broadcast "bob" (scraping_completed "c1");
    Broadcast "" (scraping_completed "c1") ].

(** The run of the sample campaign, started by bob and deleted by him
    before the first tick. *)
Definition deleted_after_start : World Database :=
  (handle storage DELETE_campaign (start_by "bob")
     (handle storage POST_campaign_start (start_by "bob")
        (sample_world sample_db warn)).2).2.

(** A text holding U+0000 between two letters, as a JSON body can carry it
    (written \u0000) and a path can (written %00). *)
Definition text_with_nul : string := "a" +:+ String Ascii.zero "b".

(** ** One connection's view of the events *)

(** What an event does to connection [c], seen alone. *)
Definition own_step (c : nat) (ws : WebSocketClient) (e : ws_event) : WebSocketClient :=
  match e with
  | Connection => ws
  | Message c' message => if bool_decide (c' = c) then (on_message message ws).2 else ws
  | Close c' => if bool_decide (c' = c) then mkClient CLOSED (userId ws) (sent ws) else ws
  | Broadcast user message =>
      if bool_decide (readyState ws = OPEN) && strict_eq_str (userId ws) user
      then send message ws
      else ws
  end.

(** The messages the calls of [broadcastToUser] in [trace] address to
    [user], in order. *)
Definition addressed (user : string) (trace : list ws_event) : list ws_message :=
  omap (λ e, match e with
             | Broadcast u message => if String.eqb user u then Some message else None
             | _ => None
             end) trace.

(** The frame [{"type": "auth", "userId": user}]. *)
Definition auth_frame (user : string) : option JSON :=
  Some (JObject (<["type" := VStr "auth"]> {["userId" := VStr user]})).

(** No event of the trace closes connection [c]. *)
Definition never_closed (c : nat) (trace : list ws_event) : bool :=
  forallb (λ e, match e with Close c' => negb (bool_decide (c' = c)) | _ => true end) trace.


(** The timers of [schedule] fire one after the other. *)
Definition fire_each {DB} (st : IStorage DB) (schedule : list nat) (w : World DB) : World DB :=
  foldl (λ w h, fire st h w) w schedule.

(** Two runs of campaign [id] with handles [h1] and [h2], [a] and [b]
    ticks into their ten, when the campaign had [had] leads before. *)
Definition two_runs (h1 h2 : nat) (id u1 u2 : string) (had a b : nat)
    (w : World Database) : Prop :=
  exited w = false ∧ (a ≤ 10)%nat ∧ (b ≤ 10)%nat ∧
  (∃ lf, intervals w !! h1 =
         Some (mkRun id u1 (Z.of_nat a) lf (totalPages <=? Z.of_nat a))) ∧
  (∃ lf, intervals w !! h2 =
         Some (mkRun id u2 (Z.of_nat b) lf (totalPages <=? Z.of_nat b))) ∧
  size (leads_of id (db w)) = (had + 2 * a + 2 * b)%nat ∧
  is_Some (campaigns (db w) !! id).


(** ** Referential integrity *)

(** Every value of column [c] in [child] is the key of a row of
    [parent]. *)
Definition points_to (c : string) (child parent : gmap string obj) : Prop :=
  ∀ k r v, child !! k = Some r → r !! c = Some (VStr v) → is_Some (parent !! v).

(** The foreign keys the schema declares hold. *)
Definition consistent (d : Database) : Prop :=
  ∀ t c t', c ∈ columns t → col_references c = Some t' →
            points_to (col_name c) (get_table t d) (get_table t' d).

(** A call of the storage interface, and the database it leaves. *)
Inductive call :=
| GetUser (id : string)
| UpsertUser (userData : obj)
| CreateCampaign (userId : string) (campaign : obj)
| GetUserCampaigns (userId : string)
| GetCampaign (id : string)
| UpdateCampaign (id : string) (updates : obj)
| DeleteCampaign (id : string)
| CreateLead (lead : obj)
| GetCampaignLeads (campaignId : string)
| GetUserLeads (userId : string)
| UpdateLead (id : string) (updates : obj)
| DeleteLead (id : string)
| GetLeadStats (userId : string)
| CreateFile (userId : string) (file : obj)
| GetUserFiles (userId : string)
| GetFile (id : string)
| DeleteFile (id : string).

Definition perform {DB} (st : IStorage DB) (c : call) (d : DB) : DB :=
  match c with
  | GetUser id => (getUser st id d).2
  | UpsertUser userData => (upsertUser st userData d).2
  | CreateCampaign userId campaign => (createCampaign st userId campaign d).2
  | GetUserCampaigns userId => (getUserCampaigns st userId d).2
  | GetCampaign id => (getCampaign st id d).2
  | UpdateCampaign id updates => (updateCampaign st id updates d).2
  | DeleteCampaign id => (deleteCampaign st id d).2
  | CreateLead lead => (createLead st lead d).2
  | GetCampaignLeads campaignId => (getCampaignLeads st campaignId d).2
  | GetUserLeads userId => (getUserLeads st userId d).2
  | UpdateLead id updates => (updateLead st id updates d).2
  | DeleteLead id => (deleteLead st id d).2
  | GetLeadStats userId => (getLeadStats st userId d).2
  | CreateFile userId file => (createFile st userId file d).2
  | GetUserFiles userId => (getUserFiles st userId d).2
  | GetFile id => (getFile st id d).2
  | DeleteFile id => (deleteFile st id d).2
  end.


(** What the process reacts to: a request reaching a route, or the timer
    of a run. *)
Inductive event :=
| Incoming (r : route) (req : Request)
| Timer (h : nat).

Definition react {DB} (st : IStorage DB) (w : World DB) (e : event) : World DB :=
  match e with
  | Incoming r req => (handle st r req w).2
  | Timer h => fire st h w
  end.


(** [deleteLead] on each id of [ks] in turn. *)
Definition deleteLeads (ks : list string) (d : Database) : Database :=
  foldl (λ d k, (deleteLead storage k d).2) d ks.


(** ** Vocabulary of the listings *)

(** [row] is the query result of a row of table [t] that holds [v] in
    column [c]. *)
Definition matching (t : table) (c : string) (v : value) (d : Database) (row : obj) : Prop :=
  ∃ k r, get_table t d !! k = Some r ∧ r !! c = Some v ∧ row = row_of k r.

(** [l] lists exactly the rows [P], each once, newest first by column [ts]. *)
Definition lists (l : list obj) (P : obj → Prop) (ts : string) : Prop :=
  (∀ row, row ∈ l ↔ P row) ∧ NoDup l ∧ StronglySorted (newer ts) l.

(** The integer in property [k] of a stats object. *)
Definition count_of (k : string) (stats : obj) : Z :=
  match stats !! k with Some (VInt n) => n | _ => 0 end.

(** How many rows of [l] hold [v] in column [c]. *)
Definition holding (c : string) (v : value) (l : list obj) : Z :=
  Z.of_nat (length (List.filter (has c v) l)).

(** [row] is the query result of a lead of a campaign that belongs to
    [u]. *)
Definition owned_lead (u : string) (d : Database) (row : obj) : Prop :=
  ∃ cid c, campaigns d !! cid = Some c ∧ c !! "userId" = Some (VStr u) ∧
           matching Leads "campaignId" (VStr cid) d row.

(** ** Further sample data *)

(** A start request of bob for an id that names no campaign. *)
Definition start_unknown : Request := mkRequest "bob" "c0" ∅ None.

(** Calls of the storage on the sample database: one that is refused, one
    that deletes, one that inserts. *)
Definition sample_calls : list call :=
  [ DeleteCampaign "c1";
    DeleteLead "l1";
    CreateLead (sample_lead "c1" 1 true);
    UpdateCampaign "c1" running_set;
    GetUserLeads "bob" ].

(** A start, two firings and a delete. *)
Definition sample_events : list event :=
  [ Incoming POST_campaign_start (start_by "bob");
    Timer 0; Timer 0;
    Incoming DELETE_campaign (start_by "bob") ].

(** * Proofs *)

Ltac world_simpl :=
  cbn [db clients intervals random drawn console unhandled exited runtime
       with_db with_clients with_intervals with_drawn with_console with_unhandled
       fst snd].

Lemma Qfloor_lt_Z x z : (x < inject_Z z)%Q → Qfloor x < z.
Proof.
  intros H. rewrite Zlt_Qlt. eapply Qle_lt_trans; [apply Qfloor_le|exact H].
Qed.

Lemma Qfloor_unique x z : (inject_Z z <= x)%Q → (x < inject_Z (z + 1))%Q → Qfloor x = z.
Proof.
  intros Hl Hu. apply Qfloor_resp_le in Hl. rewrite Qfloor_Z in Hl.
  apply Qfloor_lt_Z in Hu. lia.
Qed.

Lemma increment_bounds r : (0 <= r)%Q → (r < 1)%Q → 1 ≤ increment r ≤ 5.
Proof.
  intros H0 H1. unfold increment, Math_floor.
  assert (0 ≤ Qfloor (r * 5)).
  { change 0 with (Qfloor 0). apply Qfloor_resp_le.
    apply Qmult_le_0_compat; [done|]. discriminate. }
  assert (Qfloor (r * 5) < 5).
  { apply Qfloor_lt_Z.
    change (inject_Z 5) with (1 * 5)%Q. apply Qmult_lt_compat_r; [reflexivity|done]. }
  lia.
Qed.

Lemma progress_of_eq cp : progress_of cp = 10 * cp.
Proof.
  unfold progress_of, Math_round, totalPages.
  assert (E : (inject_Z cp / inject_Z 10 * 100 + (1 # 2) == inject_Z (10 * cp) + (1 # 2))%Q).
  { rewrite inject_Z_mult. field. }
  rewrite E. apply Qfloor_unique.
  - rewrite <- (Qplus_0_r (inject_Z (10 * cp))) at 1. apply Qplus_le_r. discriminate.
  - rewrite inject_Z_plus. apply Qplus_lt_r. reflexivity.
Qed.

Section Generic.
Context {DB : Type} (st : IStorage DB).

(** What the callback does to its run and to the parts of the process it
    never writes, whatever the st answers. *)
Lemma callback_frame h (w w' : World DB) run o :
  intervals w !! h = Some run →
  interval_callback st h w = (o, w') →
  (∃ b, intervals w' =
        <[h := mkRun (run_campaignId run) (run_userId run) (currentPage run + 1)
                     (leadsFound run + increment (random w (drawn w))) b]> (intervals w)) ∧
  random w' = random w ∧ exited w' = exited w ∧ runtime w' = runtime w ∧
  unhandled w' = unhandled w.
Proof.
  intros Hh. unfold interval_callback, bind, gets. rewrite Hh.
  unfold Math_random at 1. unfold set_run, modify, await. world_simpl.
  fold (increment (random w (drawn w))).
  destruct (updateCampaign st _ _ _) as [[u1|e1] d1]; world_simpl;
    [|intros [<- <-]%pair_equal_spec; by eauto 10].
  cbn [for_]. unfold bind, Math_random, await, ret. world_simpl.
  destruct (createLead st _ d1) as [[r0|e2] d2]; world_simpl;
    [|intros [<- <-]%pair_equal_spec; by eauto 10].
  destruct (createLead st _ d2) as [[r1|e3] d3]; world_simpl;
    [|intros [<- <-]%pair_equal_spec; by eauto 10].
  unfold broadcast, modify. world_simpl.
  destruct (totalPages <=? currentPage run + 1);
    [|intros [<- <-]%pair_equal_spec; by eauto 10].
  unfold clearInterval, modify, bind, await. world_simpl.
  rewrite list_insert_alter, list_alter_alter_eq.
  destruct (updateCampaign st _ _ d3) as [[u2|e4] d4]; world_simpl;
    intros [<- <-]%pair_equal_spec; world_simpl;
    (split; [exists true; by rewrite (list_insert_alter _ h)|done]).
Qed.

Lemma callback_ok h (w : World DB) run d1 d2 d3 d4 u1 r0 r1 :
  intervals w !! h = Some run →
  let r := random w (drawn w) in
  updateCampaign st (run_campaignId run) (tick_update run r) (db w) = (Ok u1, d1) →
  createLead st (tick_lead run r 0 (random w (S (drawn w)))) d1 = (Ok r0, d2) →
  createLead st (tick_lead run r 1 (random w (S (S (drawn w))))) d2 = (Ok r1, d3) →
  (if totalPages <=? tick_page run
   then ∃ u2, updateCampaign st (run_campaignId run) completed_set d3 = (Ok u2, d4)
   else d4 = d3) →
  interval_callback st h w =
    (Ok tt,
     mkWorld d4
       ((if totalPages <=? tick_page run
         then broadcastToUser (run_userId run) (scraping_completed (run_campaignId run))
         else id)
          (broadcastToUser (run_userId run)
             (scraping_progress (run_campaignId run) (progress_of (tick_page run))
                (tick_page run) totalPages (tick_found run r))
             (clients w)))
       (<[h := mkRun (run_campaignId run) (run_userId run) (tick_page run)
                     (tick_found run r) ((totalPages <=? tick_page run) || cleared run)]>
          (intervals w))
       (random w) (S (S (S (drawn w)))) (console w) (unhandled w) (exited w) (runtime w)).
Proof.
  intros Hh r H1 H2 H3 H4.
  unfold tick_lead, tick_update, tick_found, tick_page, progress_set, completed_set,
    progress_of, increment in *.
  subst r.
  unfold interval_callback, bind, gets. rewrite Hh.
  unfold Math_random at 1.
  unfold set_run, modify, await. world_simpl.
  rewrite H1. cbn [for_]. unfold bind, Math_random, await, ret. world_simpl.
  rewrite H2. world_simpl. rewrite H3. world_simpl.
  unfold broadcast, modify. world_simpl.
  destruct (totalPages <=? currentPage run + 1) eqn:Hcp.
  - destruct H4 as [u2 H4]. unfold clearInterval, modify, bind, await. world_simpl.
    rewrite H4. world_simpl.
    rewrite list_insert_alter, list_alter_alter_eq, (list_insert_alter _ h). reflexivity.
  - subst d4. cbn [orb id]. reflexivity.
Qed.

(** A throwing lead insert ends the callback on the spot: the database is
    the one the insert left, and no further number is drawn. *)
Lemma callback_throws h (w : World DB) e i d' :
  lead_insert_throws st h w e i d' →
  ∃ run w1,
    intervals w !! h = Some run ∧
    interval_callback st h w = (Throw e, w1) ∧
    intervals w1 =
      <[h := mkRun (run_campaignId run) (run_userId run) (tick_page run)
                   (tick_found run (random w (drawn w))) (cleared run)]> (intervals w) ∧
    clients w1 = clients w ∧ console w1 = console w ∧ unhandled w1 = unhandled w ∧
    exited w1 = exited w ∧ runtime w1 = runtime w ∧
    db w1 = d' ∧ drawn w1 = (drawn w + 2 + i)%nat.
Proof.
  intros (run & u & d1 & Hh & H1 & H2). exists run.
  unfold tick_lead, tick_update, tick_found, tick_page, progress_set, completed_set,
    progress_of, increment in *.
  unfold interval_callback, bind, gets. rewrite Hh.
  unfold Math_random at 1.
  unfold set_run, modify, await. world_simpl.
  rewrite H1. cbn [for_]. unfold bind, Math_random, await, ret. world_simpl.
  destruct H2 as [[-> H2]|(-> & l & d2 & H2 & H3)].
  - rewrite H2. world_simpl. eexists. split; [done|]. split; [reflexivity|].
    world_simpl. repeat (split; [done|]). lia.
  - rewrite H2. world_simpl. rewrite H3. world_simpl.
    eexists. split; [done|]. split; [reflexivity|].
    world_simpl. repeat (split; [done|]). lia.
Qed.

Lemma unhandledRejection_frame e (w : World DB) :
  intervals (unhandledRejection e w) = intervals w ∧
  random (unhandledRejection e w) = random w ∧
  clients (unhandledRejection e w) = clients w ∧
  db (unhandledRejection e w) = db w.
Proof. done. Qed.

(** A firing either does nothing or runs the callback once. *)
Lemma fire_cases h (w : World DB) :
  fire st h w = w ∨
  ∃ run o w1,
    exited w = false ∧ intervals w !! h = Some run ∧ cleared run = false ∧
    interval_callback st h w = (o, w1) ∧
    fire st h w =
      match o with Ok _ => w1 | Throw e => unhandledRejection e w1 end.
Proof.
  unfold fire. destruct (exited w) eqn:Hx; [by left|].
  destruct (intervals w !! h) as [run|] eqn:Hh; [|by left].
  destruct (cleared run) eqn:Hc; [by left|]. right.
  destruct (interval_callback st h w) as [o w1] eqn:Hcb.
  exists run, o, w1. by destruct o.
Qed.

Lemma fire_random h (w : World DB) : random (fire st h w) = random w.
Proof.
  destruct (fire_cases h w) as [->|(run & o & w1 & _ & Hh & _ & Hcb & ->)]; [done|].
  destruct (callback_frame h w w1 run o Hh Hcb) as (_ & Hr & _).
  by destruct o.
Qed.

Lemma fires_random n h (w : World DB) : random (fires st n h w) = random w.
Proof. induction n as [|n IH]; [done|]. simpl. by rewrite fire_random. Qed.

Lemma callback_counter h (w : World DB) run :
  intervals w !! h = Some run →
  counter h (interval_callback st h w).2 =
    leadsFound run + increment (random w (drawn w)) ∧
  page h (interval_callback st h w).2 = currentPage run + 1.
Proof.
  intros Hh. destruct (interval_callback st h w) as [o w1] eqn:Hcb.
  destruct (callback_frame h w w1 run o Hh Hcb) as ([b Hi] & _).
  unfold counter, page. cbn [snd]. rewrite Hi.
  rewrite list_lookup_insert_eq by (by eapply lookup_lt_Some). done.
Qed.

Lemma fire_counter h (w : World DB) :
  unit_random w → counter h w ≤ counter h (fire st h w).
Proof.
  intros Hu.
  destruct (fire_cases h w) as [->|(run & o & w1 & _ & Hh & _ & Hcb & ->)]; [done|].
  pose proof (callback_counter h w run Hh) as [Hc _]. rewrite Hcb in Hc. cbn [snd] in Hc.
  assert (counter h (match o with Ok _ => w1 | Throw e => unhandledRejection e w1 end)
          = counter h w1) as -> by (by destruct o).
  rewrite Hc. unfold counter at 1. rewrite Hh.
  destruct (Hu (drawn w)) as [H0 H1].
  pose proof (increment_bounds _ H0 H1). lia.
Qed.

Lemma fires_counter h (w : World DB) (n m : nat) :
  unit_random w → (n ≤ m)%nat →
  counter h (fires st n h w) ≤ counter h (fires st m h w).
Proof.
  intros Hu Hnm. induction Hnm as [|m Hnm IH]; [done|].
  etrans; [exact IH|]. simpl. apply fire_counter.
  intros k. rewrite fires_random. apply Hu.
Qed.

Lemma fires_exited n h (w : World DB) : exited w = true → fires st n h w = w.
Proof.
  intros Hx. induction n as [|n IH]; [done|]. simpl. rewrite IH.
  unfold fire. by rewrite Hx.
Qed.

Lemma fire_page h (w : World DB) run :
  exited w = false → intervals w !! h = Some run → cleared run = false →
  page h (fire st h w) = currentPage run + 1.
Proof.
  intros Hx Hh Hc. unfold fire. rewrite Hx, Hh, Hc.
  pose proof (callback_counter h w run Hh) as [_ Hp].
  destruct (interval_callback st h w) as [[[]|e] w1]; exact Hp.
Qed.

(** C6.  Whatever the st answers, a tick adds an integer between 1
    and 5 to the run's leadsFound counter, and over the firings of the
    run's timer the counter never decreases. *)
Theorem leadsFound_increases h (w : World DB) run :
  unit_random w →
  intervals w !! h = Some run →
  1 ≤ counter h (interval_callback st h w).2 - counter h w ≤ 5 ∧
  ∀ n m : nat, (n ≤ m)%nat →
    counter h (fires st n h w) ≤ counter h (fires st m h w).
Proof.
  intros Hu Hh. split.
  - destruct (callback_counter h w run Hh) as [-> _].
    unfold counter. rewrite Hh. destruct (Hu (drawn w)) as [H0 H1].
    pose proof (increment_bounds _ H0 H1). lia.
  - intros n m. by apply fires_counter.
Qed.
End Generic.

(** *** Text *)

Lemma has_nul_app a b : has_nul (a +:+ b) = has_nul a || has_nul b.
Proof.
  induction a as [|x a IH]; [done|].
  change (String x a +:+ b) with (String x (a +:+ b)). cbn [has_nul].
  by rewrite IH, orb_assoc.
Qed.

Lemma has_nul_digits d : has_nul (NilEmpty.string_of_uint d) = false.
Proof. induction d; cbn; done. Qed.

Lemma has_nul_show n : has_nul (show n) = false.
Proof.
  unfold show, NilZero.string_of_int, NilZero.string_of_uint.
  destruct (Z.to_int n) as [d|d]; destruct d; try done;
    cbn [has_nul Ascii.eqb Ascii.zero Bool.eqb orb andb]; apply has_nul_digits.
Qed.

(** *** The database engine *)

Lemma referenced_campaign d id :
  referenced d Campaigns id =
  bool_decide (map_Exists (λ _ r, r !! "campaignId" = Some (VStr id)) (leads d)).
Proof. unfold referenced. cbn. by rewrite !orb_false_r. Qed.

Lemma lookup_known t o k :
  k ∈ (col_name <$> columns t) → known t o !! k = o !! k.
Proof.
  intros Hk. unfold known. destruct (o !! k) as [v|] eqn:Hv.
  - by apply map_lookup_filter_Some.
  - apply map_lookup_filter_None. by left.
Qed.

Lemma lookup_known_other t o k :
  k ∉ (col_name <$> columns t) → known t o !! k = None.
Proof. intros Hk. unfold known. apply map_lookup_filter_None. right. by intros v _. Qed.

Lemma names_NoDup t : NoDup (col_name <$> columns t).
Proof. destruct t; compute_done. Qed.

(** The values a statement binds: column by column. *)
Lemma bind_values_Ok d t o row :
  bind_values d t o = Ok row →
  (∀ c, c ∈ columns t →
        match o !! col_name c with
        | None => row !! col_name c = None
        | Some v => ∃ v', bind_value d c v = Ok v' ∧ row !! col_name c = Some v'
        end) ∧
  ∀ k, k ∉ (col_name <$> columns t) → row !! k = None.
Proof.
  unfold bind_values. pose proof (names_NoDup t) as Hnd. revert Hnd row.
  generalize (columns t) as l. induction l as [|a l IH]; intros Hnd row.
  - cbn. intros [= <-]. split; [by intros c ?%elem_of_nil|done].
  - rewrite fmap_cons, NoDup_cons in Hnd. destruct Hnd as [Ha Hl]. cbn [foldr].
    destruct (foldr _ _ l) as [rest|e] eqn:Hrest; [|done].
    destruct (IH Hl rest eq_refl) as [Hin Hout].
    assert (Hrest_a : rest !! col_name a = None) by (by apply Hout).
    destruct (o !! col_name a) as [v|] eqn:Hv.
    + destruct (bind_value d a v) as [v'|e] eqn:Hb; [|done]. intros [= <-]. split.
      * intros c [->|Hc]%elem_of_cons.
        { rewrite Hv. exists v'. by rewrite lookup_insert_eq. }
        rewrite lookup_insert_ne; [by apply Hin|].
        intros E. apply Ha. rewrite E. by apply list_elem_of_fmap_2.
      * intros k Hk. rewrite fmap_cons, not_elem_of_cons in Hk. destruct Hk as [Hk1 Hk2].
        rewrite lookup_insert_ne by done. by apply Hout.
    + intros [= <-]. split.
      * intros c [->|Hc]%elem_of_cons; [by rewrite Hv|]. by apply Hin.
      * intros k Hk. rewrite fmap_cons, not_elem_of_cons in Hk. apply Hout, Hk.
Qed.

Lemma bind_values_Throw d t o c v e :
  c ∈ columns t → o !! col_name c = Some v → bind_value d c v = Throw e →
  ∃ e', bind_values d t o = Throw e'.
Proof.
  unfold bind_values. generalize (columns t) as l.
  induction l as [|a l IH]; [by intros ?%elem_of_nil|].
  intros [->|Hc]%elem_of_cons Hv Hb; cbn [foldr].
  - rewrite Hv, Hb. destruct (foldr _ _ l); by eauto.
  - destruct (IH Hc Hv Hb) as [e' ->]. by eauto.
Qed.

Lemma bind_values_Throw_inv d t o e :
  bind_values d t o = Throw e →
  ∃ c v, c ∈ columns t ∧ o !! col_name c = Some v ∧ bind_value d c v = Throw e.
Proof.
  unfold bind_values. generalize (columns t) as l.
  induction l as [|a l IH]; [done|]. cbn [foldr].
  destruct (foldr _ _ l) as [rest|e'] eqn:Hrest.
  - destruct (o !! col_name a) as [v|] eqn:Hv; [|done].
    destruct (bind_value d a v) as [v'|e'] eqn:Hb; [done|]. intros [= ->].
    exists a, v. split; [by left|done].
  - intros [= ->]. destruct (IH eq_refl) as (c & v & Hc & Hv & Hb).
    exists c, v. split; [by right|done].
Qed.

(** Values that are stored as they are. *)
Lemma bind_values_plain d t o :
  (∀ c v, c ∈ columns t → o !! col_name c = Some v → bind_value d c v = Ok v) →
  bind_values d t o = Ok (known t o).
Proof.
  intros Hplain.
  destruct (bind_values d t o) as [row|e] eqn:Hb.
  - f_equal. apply bind_values_Ok in Hb as [Hin Hout]. apply map_eq. intros k.
    destruct (decide (k ∈ (col_name <$> columns t))) as [Hk|Hk].
    + rewrite lookup_known by done.
      apply list_elem_of_fmap in Hk as (c & -> & Hc). specialize (Hin c Hc).
      destruct (o !! col_name c) as [v|] eqn:Hv; [|done].
      destruct Hin as (v' & Hv' & ->). rewrite (Hplain c v Hc Hv) in Hv'. congruence.
    + by rewrite Hout, lookup_known_other.
  - apply bind_values_Throw_inv in Hb as (c & v & Hc & Hv & Hb).
    rewrite (Hplain c v Hc Hv) in Hb. done.
Qed.

Lemma update_spec t id set set' d old :
  bind_values d t set = Ok set' →
  null_error t set' = false →
  set' !! "id" = None →
  unique_ok d t id set' = true →
  fk_ok d t set' = true →
  get_table t d !! id = Some old →
  db_update t id set d =
    (Ok (Some (set' ∪ row_of id old)),
     set_table t (<[id := delete "id" (set' ∪ row_of id old)]> (get_table t d)) d).
Proof.
  intros Hb Hnull Hid Huq Hfk Hold. unfold db_update.
  rewrite Hb, Hold, Hnull.
  assert (Hrow : (set' ∪ row_of id old) !! "id" = Some (VStr id)).
  { rewrite lookup_union_r by done. unfold row_of. by rewrite lookup_insert_eq. }
  rewrite Hrow, Huq, Hfk. rewrite bool_decide_eq_true_2 by done. simpl.
  by rewrite insert_delete_eq.
Qed.

Lemma update_returned t id set d row d' :
  db_update t id set d = (Ok (Some row), d') →
  ∃ set' old k, bind_values d t set = Ok set' ∧
           get_table t d !! id = Some old ∧
           row = set' ∪ row_of id old ∧
           row !! "id" = Some (VStr k) ∧
           d' = set_table t (<[k := delete "id" row]> (delete id (get_table t d))) d.
Proof.
  unfold db_update. intros H.
  destruct (bind_values d t set) as [set'|e]; [|done].
  destruct (get_table t d !! id) as [old|] eqn:Hold; [|by destruct (has_nul id)].
  destruct (null_error t set'); [done|].
  destruct ((set' ∪ row_of id old) !! "id") as [[| | |k| |]|] eqn:Hk; try done.
  repeat (match type of H with (if ?b then _ else _) = _ => destruct b; [done|] end).
  injection H as <- <-. by exists set', old, k.
Qed.

(** A failed statement leaves the database as it was. *)
Lemma update_throws t id set d e d' : db_update t id set d = (Throw e, d') → d' = d.
Proof.
  unfold db_update. intros H.
  repeat match type of H with
         | (if ?b then _ else _) = _ => destruct b
         | match ?x with _ => _ end = _ => destruct x
         end; by injection H.
Qed.

Lemma insert_throws t vals d e d' : db_insert t vals d = (Throw e, d') → d' = d.
Proof.
  unfold db_insert. intros H.
  repeat match type of H with
         | (if ?b then _ else _) = _ => destruct b
         | match ?x with _ => _ end = _ => destruct x
         end; by injection H.
Qed.

Lemma complete_known d t o : complete d t (known t o) = complete d t o.
Proof.
  unfold complete.
  assert (∀ l, l ⊆ columns t →
            foldr (λ c row, <[col_name c :=
                               default (default_value d t c) (known t o !! col_name c)]> row)
                  (∅ : obj) l =
            foldr (λ c row, <[col_name c :=
                               default (default_value d t c) (o !! col_name c)]> row)
                  ∅ l) as H; [|by apply H].
  induction l as [|a l IH]; intros Hsub; [done|]. cbn [foldr].
  rewrite IH by set_solver. rewrite lookup_known; [done|].
  apply list_elem_of_fmap_2, Hsub. by left.
Qed.

Lemma complete_id d t vals :
  vals !! "id" = None →
  complete d t vals !! "id" = Some (VStr (fresh_string "uuid" (get_table t d))).
Proof.
  intros Hid. unfold complete. cbn [columns foldr id_column col_name default_ notNull col].
  by rewrite lookup_insert_eq, Hid.
Qed.

Lemma insert_lead_spec d lead cid :
  bind_values d Leads lead = Ok (known Leads lead) →
  null_error Leads (complete d Leads lead) = false →
  lead !! "id" = None →
  lead !! "campaignId" = Some (VStr cid) →
  is_Some (campaigns d !! cid) →
  db_insert Leads lead d = (Ok (complete d Leads lead), add_lead lead d).
Proof.
  intros Hb Hnull Hid Hcid Hc. unfold add_lead. set (k := fresh_string "uuid" (leads d)).
  assert (Hfresh : leads d !! k = None) by apply fresh_string_fresh.
  unfold db_insert. rewrite Hb, complete_known, Hnull.
  assert (Hk : complete d Leads lead !! "id" = Some (VStr k)) by (by apply complete_id).
  rewrite Hk. cbn [get_table]. fold k.
  rewrite bool_decide_eq_false_2 by (rewrite Hfresh; by intros [? ?]).
  assert (Huq : unique_ok d Leads k (complete d Leads lead) = true) by reflexivity.
  rewrite Huq. cbn [negb].
  assert (Hfk : fk_ok d Leads (complete d Leads lead) = true).
  { unfold fk_ok.
    cbn [columns forallb id_column col_name default_ notNull col references col_references].
    unfold complete. cbn [columns foldr id_column col_name default_ notNull col references].
    rewrite lookup_insert_ne by done. rewrite lookup_insert_eq. rewrite Hcid. cbn.
    by rewrite bool_decide_eq_true_2. }
  by rewrite Hfk.
Qed.

(** *** DatabaseStorage on the objects the simulator writes *)

Lemma updateCampaign_plain d id set c :
  bind_values d Campaigns (<["updatedAt" := VDate (clock d)]> set) =
    Ok (known Campaigns (<["updatedAt" := VDate (clock d)]> set)) →
  null_error Campaigns (known Campaigns (<["updatedAt" := VDate (clock d)]> set)) = false →
  known Campaigns (<["updatedAt" := VDate (clock d)]> set) !! "id" = None →
  known Campaigns (<["updatedAt" := VDate (clock d)]> set) !! "userId" = None →
  campaigns d !! id = Some c →
  DatabaseStorage.updateCampaign id set d =
    (Ok (Some (known Campaigns (<["updatedAt" := VDate (clock d)]> set) ∪ row_of id c)),
     put_campaign id (stored set (clock d) id c) d).
Proof.
  intros Hb Hnull Hid Huid Hc. unfold DatabaseStorage.updateCampaign, bind, gets.
  apply update_spec; try done.
  unfold fk_ok.
  cbn [columns forallb id_column col_name default_ notNull col references col_references].
  by rewrite Huid.
Qed.

Ltac each_column Hc :=
  apply list_elem_of_In in Hc; cbn in Hc;
  repeat (destruct Hc as [<-|Hc]); [..|done].

Ltac lookup_inserts :=
  repeat (rewrite lookup_insert_ne by done); rewrite ?lookup_insert_eq, ?lookup_empty.

(** The leads of a tick are stored as they are. *)
Lemma bind_sample_lead d cid n b :
  has_nul cid = false ∨ is_Some (campaigns d !! cid) →
  bind_values d Leads (sample_lead cid n b) = Ok (known Leads (sample_lead cid n b)).
Proof.
  intros Hcid. apply bind_values_plain. intros c v Hc. unfold sample_lead.
  each_column Hc; cbn [col_name default_ notNull col references]; lookup_inserts;
    intros [= <-]; try reflexivity.
  - unfold bind_value, resolves. cbn [col_type col_references references notNull col get_table].
    destruct Hcid as [->|Hcid]; [done|].
    by rewrite bool_decide_eq_true_2, andb_false_r.
  - unfold bind_value. cbn [col_type notNull col].
    by rewrite has_nul_app, has_nul_show.
Qed.

Lemma createLead_sample d cid n b :
  is_Some (campaigns d !! cid) →
  DatabaseStorage.createLead (sample_lead cid n b) d =
    (Ok (complete d Leads (sample_lead cid n b)), add_lead (sample_lead cid n b) d).
Proof.
  intros Hc. unfold DatabaseStorage.createLead.
  apply insert_lead_spec with (cid := cid); try done. apply bind_sample_lead. by right.
Qed.

(** Without the campaign row the insert is refused, for the foreign key
    when the id is a text the database takes. *)
Lemma createLead_orphan d cid n b :
  campaigns d !! cid = None →
  has_nul cid = false →
  DatabaseStorage.createLead (sample_lead cid n b) d = (Throw ForeignKeyViolation, d).
Proof.
  intros Hc Hn. unfold DatabaseStorage.createLead, db_insert.
  rewrite bind_sample_lead by (by left). rewrite complete_known.
  assert (null_error Leads (complete d Leads (sample_lead cid n b)) = false) as -> by done.
  rewrite complete_id by done.
  rewrite bool_decide_eq_false_2
    by (cbn [get_table]; rewrite fresh_string_fresh; by intros [? ?]).
  assert (unique_ok d Leads (fresh_string "uuid" (get_table Leads d))
            (complete d Leads (sample_lead cid n b)) = true) as -> by reflexivity.
  cbn [negb].
  assert (fk_ok d Leads (complete d Leads (sample_lead cid n b)) = false) as ->; [|done].
  unfold fk_ok.
  cbn [columns forallb id_column col_name default_ notNull col references col_references].
  unfold complete. cbn [columns foldr id_column col_name default_ notNull col references].
  rewrite lookup_insert_ne by done. rewrite !lookup_insert_eq.
  unfold sample_lead. rewrite lookup_insert_eq. cbn [from_option id get_table].
  rewrite Hc. rewrite bool_decide_eq_false_2; [done|]. by intros [? ?].
Qed.

Lemma stored_lookup set now id c k :
  k ≠ "id" →
  stored set now id c !! k =
    match known Campaigns (<["updatedAt" := VDate now]> set) !! k with
    | Some v => Some v
    | None => c !! k
    end.
Proof.
  intros Hk. unfold stored, row_of. rewrite lookup_delete_ne by done.
  rewrite lookup_union.
  destruct (known Campaigns _ !! k) as [v|]; rewrite lookup_insert_ne by done;
    by destruct (c !! k).
Qed.

Lemma tick_database h (w : World Database) run c :
  intervals w !! h = Some run →
  campaigns (db w) !! run_campaignId run = Some c →
  let r := random w (drawn w) in
  interval_callback storage h w =
    (Ok tt,
     mkWorld (tick_db run r (random w (S (drawn w))) (random w (S (S (drawn w)))) c (db w))
       ((if totalPages <=? tick_page run
         then broadcastToUser (run_userId run) (scraping_completed (run_campaignId run))
         else id)
          (broadcastToUser (run_userId run)
             (scraping_progress (run_campaignId run) (progress_of (tick_page run))
                (tick_page run) totalPages (tick_found run r))
             (clients w)))
       (<[h := mkRun (run_campaignId run) (run_userId run) (tick_page run)
                     (tick_found run r) ((totalPages <=? tick_page run) || cleared run)]>
          (intervals w))
       (random w) (S (S (S (drawn w)))) (console w) (unhandled w) (exited w) (runtime w)).
Proof.
  intros Hh Hc r.
  eapply callback_ok; [exact Hh| | | |].
  - apply updateCampaign_plain; try done.
  - apply createLead_sample. cbn. rewrite lookup_insert_eq. done.
  - apply createLead_sample. cbn. rewrite lookup_insert_eq. done.
  - unfold tick_db. destruct (totalPages <=? tick_page run); [|done].
    eexists. etrans.
    { apply updateCampaign_plain
        with (c := stored (tick_update run r) (clock (db w)) (run_campaignId run) c);
        try done.
      cbn. by rewrite lookup_insert_eq. }
    reflexivity.
Qed.


(** *** A tick whose lead insert throws *)

(** The update of a tick, when the campaign row is there and when it is
    not. *)
Lemma tick_update_found d run r c :
  campaigns d !! run_campaignId run = Some c →
  DatabaseStorage.updateCampaign (run_campaignId run) (tick_update run r) d =
    (Ok (Some (known Campaigns (<["updatedAt" := VDate (clock d)]> (tick_update run r))
               ∪ row_of (run_campaignId run) c)),
     put_campaign (run_campaignId run)
       (stored (tick_update run r) (clock d) (run_campaignId run) c) d).
Proof. intros Hc. apply updateCampaign_plain; try done. Qed.

Lemma tick_update_missing d run r :
  campaigns d !! run_campaignId run = None →
  DatabaseStorage.updateCampaign (run_campaignId run) (tick_update run r) d =
    (if has_nul (run_campaignId run) then Throw InvalidValue else Ok None, d).
Proof.
  intros Hc. unfold DatabaseStorage.updateCampaign, bind, gets, db_update.
  cbn [get_table]. rewrite Hc.
  assert (bind_values d Campaigns
            (<["updatedAt" := VDate (clock d)]> (tick_update run r)) =
          Ok (known Campaigns (<["updatedAt" := VDate (clock d)]> (tick_update run r))))
    as -> by done.
  by destruct (has_nul _).
Qed.

(** X5.  With [DatabaseStorage], and when nothing else runs between the
    statements of a tick, the lead insert of a tick is refused only when
    the campaign row is not there: it is then the first insert, refused
    for the foreign key, and the tick has written nothing (the update
    before it found no row). *)
Lemma database_insert_throws h (w : World Database) e i d' :
  lead_insert_throws storage h w e i d' →
  i = 0%nat ∧ e = ForeignKeyViolation ∧ d' = db w ∧
  ∃ run, intervals w !! h = Some run ∧ campaigns (db w) !! run_campaignId run = None.
Proof.
  intros (run & u & d1 & Hh & Hup & Hins).
  change (updateCampaign storage) with DatabaseStorage.updateCampaign in Hup.
  change (createLead storage) with DatabaseStorage.createLead in Hins.
  unfold tick_lead in Hins.
  destruct (campaigns (db w) !! run_campaignId run) as [c|] eqn:Hc.
  - exfalso. rewrite (tick_update_found _ _ _ c Hc) in Hup.
    injection Hup as _ <-.
    assert (Hs : ∀ c', is_Some (campaigns (put_campaign (run_campaignId run) c' (db w))
                            !! run_campaignId run)).
    { intros c'. cbn. rewrite lookup_insert_eq. by eexists. }
    rewrite createLead_sample in Hins by apply Hs.
    destruct Hins as [[_ Hins]|(_ & l & d2 & Hins1 & Hins)]; [discriminate Hins|].
    injection Hins1 as _ <-.
    rewrite createLead_sample in Hins by (cbn; rewrite lookup_insert_eq; by eexists).
    discriminate Hins.
  - rewrite (tick_update_missing _ _ _ Hc) in Hup.
    destruct (has_nul (run_campaignId run)) eqn:Hn; [discriminate Hup|].
    injection Hup as _ <-.
    rewrite createLead_orphan in Hins by assumption.
    destruct Hins as [[-> Hins]|(_ & l & d2 & Hins & _)]; [|discriminate Hins].
    injection Hins as <- <-.
    split; [reflexivity|]. split; [reflexivity|]. split; [reflexivity|].
    exists run. split; assumption.
Qed.

(** C4, as amended.  For every storage: when a lead insert of a tick
    throws, the callback throws the same error (nothing in it catches) and
    stops there: the database is the one the failed insert left, no
    further number is drawn (so no later insert is attempted), the
    rejection is left unhandled, nothing is sent to any socket, the code
    writes no log line, and the interval is not cleared.  What follows is
    the runtime's choice: if it ends the process on an unhandled
    rejection no timer fires any more; if it only warns, the next firing
    runs the callback again, on page + 2. *)
Theorem failed_insert_unhandled {DB} (st : IStorage DB) (h : nat) (w : World DB)
    (run : Run) (e : exn) (i : nat) (d' : DB) :
  exited w = false →
  intervals w !! h = Some run →
  cleared run = false →
  lead_insert_throws st h w e i d' →
  let w1 := fire st h w in
  (interval_callback st h w).1 = Throw e ∧
  unhandled w1 = (unhandled w ++ [e])%list ∧
  clients w1 = clients w ∧ console w1 = console w ∧
  db w1 = d' ∧ drawn w1 = (drawn w + 2 + i)%nat ∧
  (∃ run1, intervals w1 !! h = Some run1 ∧ cleared run1 = false ∧
           currentPage run1 = currentPage run + 1) ∧
  match unhandled_rejections (runtime w) with
  | terminate => exited w1 = true ∧ ∀ n, fires st n h w1 = w1
  | warn => exited w1 = false ∧ page h (fire st h w1) = currentPage run + 2
  end.
Proof.
  intros Hx Hh Hc Hthrow w1.
  destruct (callback_throws st h w e i d' Hthrow)
    as (run' & wc & Hh' & Hcb & Hi & Hcl & Hco & Hun & Hex & Hrt & Hdb & Hdr).
  assert (run' = run) as -> by congruence.
  assert (Hw1 : w1 = unhandledRejection e wc).
  { unfold w1, fire. by rewrite Hx, Hh, Hc, Hcb. }
  assert (Hrun1 : intervals w1 !! h =
                  Some (mkRun (run_campaignId run) (run_userId run) (tick_page run)
                              (tick_found run (random w (drawn w))) (cleared run))).
  { rewrite Hw1. cbn. rewrite Hi.
    apply list_lookup_insert_eq. by eapply lookup_lt_Some. }
  rewrite Hcb. split; [done|].
  split; [by rewrite Hw1; cbn; rewrite Hun|].
  split; [by rewrite Hw1|]. split; [by rewrite Hw1|].
  split; [by rewrite Hw1|]. split; [by rewrite Hw1|].
  split; [eexists; split; [exact Hrun1|done]|].
  assert (Hx1 : exited w1 =
                match unhandled_rejections (runtime w) with
                | terminate => true | warn => false end).
  { rewrite Hw1. cbn. rewrite Hrt, Hex, Hx. by destruct (unhandled_rejections _). }
  destruct (unhandled_rejections (runtime w)).
  - split; [done|]. erewrite fire_page; [|done|exact Hrun1|done].
    cbn. unfold tick_page. lia.
  - split; [done|]. intros n. by apply fires_exited.
Qed.

(** *** What a tick leaves in the database *)

Ltac complete_lookup :=
  unfold complete;
  cbn [columns foldr id_column col_name col_default default_ notNull col references];
  rewrite lookup_delete_ne by done;
  repeat (rewrite lookup_insert_ne by done);
  rewrite lookup_insert_eq.

Lemma sample_lead_row d cid n b :
  let row := delete "id" (complete d Leads (sample_lead cid n b)) in
  row !! "campaignId" = Some (VStr cid) ∧
  row !! "businessName" = Some (VStr ("Business " +:+ show n)) ∧
  row !! "category" = Some (VStr "Sample Category") ∧
  row !! "city" = Some (VStr "Sample City") ∧
  row !! "state" = Some (VStr "SC") ∧
  row !! "isValidated" = Some (VBool b).
Proof.
  cbv zeta. unfold sample_lead.
  repeat split; complete_lookup; reflexivity.
Qed.

Lemma leads_of_add cid n b d :
  leads_of cid (add_lead (sample_lead cid n b) d) =
    <[fresh_string "uuid" (leads d) := delete "id" (complete d Leads (sample_lead cid n b))]>
      (leads_of cid d) ∧
  leads_of cid d !! fresh_string "uuid" (leads d) = None.
Proof.
  unfold leads_of, add_lead. cbn [leads set_table]. split.
  - apply map_filter_insert_True. cbn [snd].
    by destruct (sample_lead_row d cid n b) as [H _].
  - apply map_lookup_filter_None. left. apply fresh_string_fresh.
Qed.

Lemma size_leads_of_add cid n b d :
  size (leads_of cid (add_lead (sample_lead cid n b) d)) = S (size (leads_of cid d)).
Proof.
  destruct (leads_of_add cid n b d) as [-> Hfresh]. by apply map_size_insert_None.
Qed.

Lemma leads_of_put_campaign cid id c d :
  leads_of cid (put_campaign id c d) = leads_of cid d.
Proof. done. Qed.

Lemma tick_db_leads run r v0 v1 c d :
  let id := run_campaignId run in
  let l0 := delete "id" (complete d Leads (tick_lead run r 0 v0)) in
  let k0 := fresh_string "uuid" (leads d) in
  let l1 := delete "id" (complete d Leads (tick_lead run r 1 v1)) in
  let k1 := fresh_string "uuid" (<[k0 := l0]> (leads d)) in
  leads (tick_db run r v0 v1 c d) = <[k1 := l1]> (<[k0 := l0]> (leads d)) ∧
  leads d !! k0 = None ∧ k1 ≠ k0 ∧ leads d !! k1 = None ∧
  size (leads_of id (tick_db run r v0 v1 c d)) = S (S (size (leads_of id d))).
Proof.
  cbv zeta. unfold tick_db.
  assert (Hk0 : leads d !! fresh_string "uuid" (leads d) = None) by apply fresh_string_fresh.
  set (l0 := delete "id" (complete d Leads (tick_lead run r 0 v0))).
  set (k0 := fresh_string "uuid" (leads d)) in *.
  assert (Hk1 : <[k0 := l0]> (leads d) !! fresh_string "uuid" (<[k0 := l0]> (leads d)) = None)
    by apply fresh_string_fresh.
  set (k1 := fresh_string "uuid" (<[k0 := l0]> (leads d))) in *.
  assert (k1 ≠ k0) by (intros ->; by rewrite lookup_insert_eq in Hk1).
  rewrite lookup_insert_ne in Hk1 by done.
  split; [by destruct (totalPages <=? tick_page run)|].
  split; [done|]. split; [done|]. split; [done|].
  assert (size (leads_of (run_campaignId run)
            (add_lead (tick_lead run r 1 v1)
               (add_lead (tick_lead run r 0 v0)
                  (put_campaign (run_campaignId run)
                     (stored (tick_update run r) (clock d) (run_campaignId run) c) d))))
          = S (S (size (leads_of (run_campaignId run) d)))) as Hsize.
  { unfold tick_lead. by rewrite !size_leads_of_add, leads_of_put_campaign. }
  by destruct (totalPages <=? tick_page run).
Qed.

Lemma tick_db_campaign run r v0 v1 c d :
  let finished := totalPages <=? tick_page run in
  ∃ c', campaigns (tick_db run r v0 v1 c d) !! run_campaignId run = Some c' ∧
        c' !! "totalPages" = Some (VInt (tick_page run)) ∧
        c' !! "leadsFound" = Some (VInt (tick_found run r)) ∧
        c' !! "progress" =
          Some (VInt (if finished then 100 else progress_of (tick_page run))) ∧
        c' !! "status" = (if finished then Some (VStr "completed") else c !! "status").
Proof.
  cbv zeta. unfold tick_db. destruct (totalPages <=? tick_page run).
  - eexists. split; [cbn; apply lookup_insert_eq|].
    repeat split; rewrite !stored_lookup by done; reflexivity.
  - eexists. split; [cbn; apply lookup_insert_eq|].
    repeat split; rewrite !stored_lookup by done; reflexivity.
Qed.

Lemma tick_db_frame run r v0 v1 c d :
  users (tick_db run r v0 v1 c d) = users d ∧
  files (tick_db run r v0 v1 c d) = files d ∧
  clock (tick_db run r v0 v1 c d) = clock d ∧
  ∀ k, k ≠ run_campaignId run →
       campaigns (tick_db run r v0 v1 c d) !! k = campaigns d !! k.
Proof.
  unfold tick_db. destruct (totalPages <=? tick_page run); cbn.
  - repeat split; try done. intros k Hk. by rewrite !lookup_insert_ne.
  - repeat split; try done. intros k Hk. by rewrite !lookup_insert_ne.
Qed.

(** *** A run on an existing campaign *)

Lemma start_ok (w : World Database) req c :
  campaigns (db w) !! params_id req = Some c →
  handle storage POST_campaign_start req w =
    (Ok (mkResponse 200
           (object (known Campaigns (<["updatedAt" := VDate (clock (db w))]> running_set)
                    ∪ row_of (params_id req) c))),
     mkWorld (put_campaign (params_id req)
                (stored running_set (clock (db w)) (params_id req) c) (db w))
       (clients w)
       (intervals w ++ [mkRun (params_id req) (user req) 0 0 false])
       (random w) (drawn w) (console w) (unhandled w) (exited w) (runtime w)).
Proof.
  intros Hc. unfold handle, try_catch, try_block, bind, await.
  change (updateCampaign storage) with DatabaseStorage.updateCampaign.
  fold running_set.
  rewrite (updateCampaign_plain (db w) (params_id req) running_set c) by done.
  reflexivity.
Qed.

Lemma found_bounds rnd start n :
  (∀ k, (0 <= rnd k)%Q ∧ (rnd k < 1)%Q) →
  Z.of_nat n ≤ found rnd start n ≤ 5 * Z.of_nat n.
Proof.
  intros Hu. induction n as [|n IH]; [done|].
  cbn [found]. destruct (Hu (start + 3 * n)%nat) as [H0 H1].
  pose proof (increment_bounds _ H0 H1). lia.
Qed.

Lemma ticked_step h id user rnd start had n w :
  (n < 10)%nat →
  ticked h id user rnd start had n w →
  ticked h id user rnd start had (S n) (fire storage h w).
Proof.
  intros Hn (Hx & Hr & Hd & Hh & Hsz & c & Hc & _).
  assert (Hcl : (totalPages <=? Z.of_nat n) = false) by (apply Z.leb_gt; unfold totalPages; lia).
  rewrite Hcl in Hh.
  unfold fire. rewrite Hx, Hh. cbn [cleared].
  rewrite (tick_database h w _ c Hh Hc). cbn [run_campaignId run_userId cleared].
  set (run := mkRun id user (Z.of_nat n) (found rnd start n) false) in *.
  assert (Hpage : tick_page run = Z.of_nat (S n)) by (unfold tick_page, run; cbn; lia).
  assert (Hfound : tick_found run (random w (drawn w)) = found rnd start (S n)).
  { unfold tick_found, run. cbn [leadsFound found]. by rewrite Hr, Hd. }
  unfold ticked. world_simpl.
  split; [done|]. split; [done|]. split; [lia|].
  split.
  { rewrite list_lookup_insert_eq by (by eapply lookup_lt_Some).
    by rewrite Hpage, Hfound, orb_false_r. }
  split.
  { destruct (tick_db_leads run (random w (drawn w)) (random w (S (drawn w)))
                (random w (S (S (drawn w)))) c (db w)) as (_ & _ & _ & _ & Hsz').
    change (run_campaignId run) with id in Hsz'. rewrite Hsz'. lia. }
  destruct (tick_db_campaign run (random w (drawn w)) (random w (S (drawn w)))
              (random w (S (S (drawn w)))) c (db w)) as (c' & Hc' & Htp & Hlf & Hpr & Hst).
  change (run_campaignId run) with id in Hc'.
  exists c'. split; [exact Hc'|]. intros _.
  rewrite Htp, Hlf, Hpr, Hpage, Hfound. repeat split.
  intros Hfin. apply Z.leb_le in Hfin. by rewrite Hst, Hpage, Hfin.
Qed.

Lemma ticked_fires h id user rnd start had n w :
  (n ≤ 10)%nat →
  ticked h id user rnd start had 0 w →
  ticked h id user rnd start had n (fires storage n h w).
Proof.
  intros Hn H0. induction n as [|n IH]; [exact H0|].
  cbn [fires]. apply ticked_step; [lia|]. apply IH. lia.
Qed.

Lemma ticked_start (w : World Database) req c :
  exited w = false →
  campaigns (db w) !! params_id req = Some c →
  ticked (length (intervals w)) (params_id req) (user req) (random w) (drawn w)
         (size (leads_of (params_id req) (db w))) 0
         (handle storage POST_campaign_start req w).2.
Proof.
  intros Hx Hc. rewrite (start_ok w req c Hc). unfold ticked. world_simpl.
  split; [done|]. split; [done|]. split; [lia|].
  split; [by rewrite lookup_app_r, Nat.sub_diag|].
  split; [by rewrite leads_of_put_campaign, Nat.add_0_r|].
  eexists. split; [cbn; apply lookup_insert_eq|]. lia.
Qed.

(** C1.  A campaign that exists when its run is started and whose timer
    fires ten times ends with the timer cleared at page 10 and with a
    persisted row, as [getCampaign] reads it back, whose status is
    "completed", progress 100, totalPages 10 and leadsFound between 10 and
    50. *)
Theorem completed_run_row (w : World Database) (req : Request) (c : obj) :
  exited w = false →
  unit_random w →
  campaigns (db w) !! params_id req = Some c →
  let h := length (intervals w) in
  let w' := fires storage 10 h (handle storage POST_campaign_start req w).2 in
  (∃ run, intervals w' !! h = Some run ∧ currentPage run = 10 ∧ cleared run = true) ∧
  ∃ row n,
    (getCampaign storage (params_id req) (db w')).1 = Ok (Some row) ∧
    row !! "status" = Some (VStr "completed") ∧
    row !! "progress" = Some (VInt 100) ∧
    row !! "totalPages" = Some (VInt 10) ∧
    row !! "leadsFound" = Some (VInt n) ∧
    10 ≤ n ≤ 50.
Proof.
  intros Hx Hu Hc h w'.
  assert (Ht : ticked h (params_id req) (user req) (random w) (drawn w)
                 (size (leads_of (params_id req) (db w))) 10 w').
  { apply ticked_fires; [lia|]. by apply (ticked_start w req c). }
  clearbody w'. destruct Ht as (_ & _ & _ & Hh & _ & c' & Hc' & Hrow).
  destruct (Hrow ltac:(lia)) as (Htp & Hlf & Hpr & Hst).
  split; [eexists; split; [exact Hh|by split]|].
  exists (row_of (params_id req) c'), (found (random w) (drawn w) 10).
  cbn [getCampaign storage]. unfold DatabaseStorage.getCampaign, gets, select_by_id.
  cbn [fst get_table]. rewrite Hc'. cbn [fmap option_fmap option_map].
  unfold row_of. rewrite !lookup_insert_ne by done.
  split; [done|]. split; [by apply Hst|]. split; [exact Hpr|]. split; [exact Htp|].
  split; [exact Hlf|].
  pose proof (found_bounds (random w) (drawn w) 10 Hu). lia.
Qed.

Lemma increment_fifth m : 0 ≤ m → increment (inject_Z m / 5) = m + 1.
Proof.
  intros Hm. unfold increment, Math_floor.
  assert (E : (inject_Z m / 5 * 5 == inject_Z m)%Q) by field.
  by rewrite E, Qfloor_Z.
Qed.

(** Draws that make the ten increments of a run that starts at draw
    [start] add up to [t]. *)
Lemma found_any (start : nat) (t : Z) :
  10 ≤ t ≤ 50 →
  ∃ rnd : nat → Q,
    (∀ k, (0 <= rnd k)%Q ∧ (rnd k < 1)%Q) ∧ found rnd start 10 = t.
Proof.
  intros Ht.
  set (part := λ i : Z, Z.min 4 (Z.max 0 (t - 10 - 4 * i))).
  exists (λ k, inject_Z (part (Z.of_nat ((k - start) / 3))) / 5)%Q.
  split.
  - intros k. set (m := part _).
    assert (0 ≤ m ≤ 4) as [H0 H4] by (unfold m, part; lia).
    split.
    + apply Qle_shift_div_l; [reflexivity|]. rewrite Qmult_0_l.
      change 0%Q with (inject_Z 0). by rewrite <- Zle_Qle.
    + apply Qlt_shift_div_r; [reflexivity|]. rewrite Qmult_1_l.
      change 5%Q with (inject_Z 5). rewrite <- Zlt_Qlt. lia.
  - cbn [found].
    repeat match goal with
           | |- context [((start + ?a - start) / 3)%nat] =>
               replace ((start + a - start) / 3)%nat with (a / 3)%nat
                 by (f_equal; lia)
           end.
    cbn [Nat.mul Nat.add Nat.div Nat.divmod fst Z.of_nat Pos.of_succ_nat Pos.succ].
    rewrite !increment_fifth by (unfold part; lia).
    unfold part. lia.
Qed.


Section Routes.
Context {DB : Type} (st : IStorage DB).

Lemma handle_cases r req (w : World DB) :
  (∃ res w', try_block st r req w = (Ok res, w') ∧
             handle st r req w = (Ok res, w')) ∨
  (∃ e w', try_block st r req w = (Throw e, w') ∧
           handle st r req w =
             (Ok (mkResponse (on_error r).2.1 (message (on_error r).2.2)),
              with_console (console w' ++ [((on_error r).1, e)]) w')).
Proof.
  unfold handle, try_catch. destruct (try_block st r req w) as [[res|e] w'].
  - left. by eauto.
  - right. by eauto.
Qed.

Lemma storage_throw_reaches_catch r req (w : World DB) :
  storage_call_throws st r req (db w) = true →
  ∃ e w', try_block st r req w = (Throw e, w').
Proof.
  destruct r; cbn [storage_call_throws try_block];
    unfold bind, await, insertCampaignSchema, running_set.
  all: try (match goal with
            | |- context [schema_parse ?t ?o ?b] =>
                unfold schema_parse; destruct (forallb _ _); cbn [throw ret fst]; [|done]
            end).
  all: try (destruct (file req) as [f|]; [|done]).
  all: match goal with
       | |- context [?op st ?a ?b (db ?v)] => destruct (op st a b (db v)) as [[x|e] d']
       | |- context [?op st ?a (db ?v)] => destruct (op st a (db v)) as [[x|e] d']
       end; cbn [threw fst]; intros Hth; try done; by eauto.
Qed.

Lemma try_ok_shape r req (w w' : World DB) res :
  try_block st r req w = (Ok res, w') →
  status res = 200 ∨ ∃ m, sent_body res = message m.
Proof.
  destruct r; cbn [try_block]; unfold bind, await, insertCampaignSchema, json, status_json,
    ret, broadcast, simulateScraping, modify, gets.
  all: try (match goal with
            | |- context [schema_parse ?t ?o ?b] =>
                unfold schema_parse; destruct (forallb _ _); cbn [throw ret]; [|done]
            end).
  all: try (destruct (file req) as [f|]; [|intros [= <- <-]; right; by eauto]).
  all: match goal with
       | |- context [?op st ?a ?b (db ?v)] => destruct (op st a b (db v)) as [[x|e] d']
       | |- context [?op st ?a (db ?v)] => destruct (op st a (db v)) as [[x|e] d']
       end; try done.
  all: try (intros [= <- <-]; by left).
  - destruct x; intros [= <- <-]; [by left|right; by eauto].
  - destruct x as [x|]; [|intros [= <- <-]; right; by eauto].
    destruct (x !! "filePath") as [[| | |p| |]|]; try done.
    destruct (existsSync _ _); intros [= <- <-]; [by left|right; by eauto].
Qed.

Lemma GET_campaign_status req (w w' : World DB) res :
  handle st GET_campaign req w = (Ok res, w') →
  status res = 404 ↔ (getCampaign st (params_id req) (db w)).1 = Ok None.
Proof.
  unfold handle, try_catch, try_block, bind, await, catch_block, console_error, modify,
    status_json, json, ret.
  destruct (getCampaign st (params_id req) (db w)) as [[[c|]|e] d']; cbn [fst];
    intros [= <- <-]; cbn [status]; done.
Qed.
End Routes.

Lemma GET_campaign_database req (w : World Database) :
  handle storage GET_campaign req w =
    match campaigns (db w) !! params_id req with
    | Some c => (Ok (mkResponse 200 (object (row_of (params_id req) c))), w)
    | None =>
        if has_nul (params_id req)
        then (Ok (mkResponse 500 (message "Failed to fetch campaign")),
              with_console (console w ++ [("Error fetching campaign:", InvalidValue)]) w)
        else (Ok (mkResponse 404 (message "Campaign not found")), w)
    end.
Proof.
  unfold handle, try_catch, try_block, bind, await.
  cbn [getCampaign storage]. unfold DatabaseStorage.getCampaign, select_by_id.
  cbn [get_table]. destruct w as [d ? ? ? ? ? ? ? ?]. cbn [db].
  destruct (campaigns d !! params_id req); [done|].
  by destruct (has_nul (params_id req)).
Qed.

(** C8, as amended.  For every route, request, storage and state: the
    handler returns a response (it never throws); if the route's storage
    call throws, the response is the route's fixed reply, status 400 or
    500 with the body [{message}] and nothing of the error in it; every
    response with a status of 400 or more has a body of that shape; and
    GET /api/campaigns/:id answers 404 exactly when the storage finds no
    campaign.  On the database the lookup finds no campaign when no row
    has the id and the id is a text the database takes: the answer is 200
    when a row has the id, 404 when none has and the id holds no U+0000,
    and 500 when none has and the id holds U+0000 (the lookup throws). *)
Theorem routes_answer_errors {DB} (st : IStorage DB) (r : route) (req : Request)
    (w : World DB) :
  ∃ res w',
    handle st r req w = (Ok res, w') ∧
    (storage_call_throws st r req (db w) = true →
     res = mkResponse (on_error r).2.1 (message (on_error r).2.2) ∧
     (status res = 400 ∨ status res = 500)) ∧
    (400 ≤ status res → ∃ m, sent_body res = message m) ∧
    (r = GET_campaign →
     (status res = 404 ↔ (getCampaign st (params_id req) (db w)).1 = Ok None) ∧
     ∀ w0 : World Database,
       ∃ res0 w0',
         handle storage GET_campaign req w0 = (Ok res0, w0') ∧
         (status res0 = 200 ↔ is_Some (campaigns (db w0) !! params_id req)) ∧
         (status res0 = 404 ↔
          campaigns (db w0) !! params_id req = None ∧ has_nul (params_id req) = false) ∧
         (status res0 = 500 ↔
          campaigns (db w0) !! params_id req = None ∧ has_nul (params_id req) = true)).
Proof.
  assert (Hdb : ∀ w0 : World Database,
            ∃ res0 w0',
              handle storage GET_campaign req w0 = (Ok res0, w0') ∧
              (status res0 = 200 ↔ is_Some (campaigns (db w0) !! params_id req)) ∧
              (status res0 = 404 ↔
               campaigns (db w0) !! params_id req = None ∧
               has_nul (params_id req) = false) ∧
              (status res0 = 500 ↔
               campaigns (db w0) !! params_id req = None ∧
               has_nul (params_id req) = true)).
  { intros w0. rewrite GET_campaign_database.
    destruct (campaigns (db w0) !! params_id req) as [c|].
    - eexists _, _. split; [reflexivity|]. cbn [status].
      split; [by split; eauto|]. split; by split; [|intros []].
    - destruct (has_nul (params_id req));
        (eexists _, _; split; [reflexivity|]; cbn [status];
         split; [by split; [|intros []]|]; split; by split; [|intros []]). }
  destruct (handle_cases st r req w)
    as [(res & w' & Htry & Hh)|(e & w' & Htry & Hh)].
  - exists res, w'. split; [exact Hh|]. split.
    { intros Hth. destruct (storage_throw_reaches_catch st r req w Hth) as (e & w2 & He).
      congruence. }
    split.
    { intros Hst. destruct (try_ok_shape st r req w w' res Htry) as [H200|Hm]; [lia|done]. }
    intros ->. split; [by eapply GET_campaign_status|]. exact Hdb.
  - eexists _, _. split; [exact Hh|]. split.
    { intros _. split; [done|].
      destruct r; cbn [on_error fst snd status]; first [by left|by right]. }
    split; [intros _; by eexists|].
    intros ->. split; [by eapply GET_campaign_status|]. exact Hdb.
Qed.

(** C9.  On GET /api/campaigns/:id, GET /api/campaigns/:id/leads and PATCH
    /api/leads/:id two requests that differ only in the authenticated
    user give the same response and the same state; in particular user A
    reads a campaign owned by B. *)
Theorem by_id_routes_ignore_the_user {DB} (st : IStorage DB) (r : route)
    (A B id : string) (data : obj) (f : option obj) (w : World DB) :
  r = GET_campaign ∨ r = GET_campaign_leads ∨ r = PATCH_lead →
  handle st r (mkRequest A id data f) w = handle st r (mkRequest B id data f) w ∧
  ∀ (w0 : World Database) (c : obj),
    campaigns (db w0) !! id = Some c →
    c !! "userId" = Some (VStr B) →
    handle storage GET_campaign (mkRequest A id data f) w0 =
      (Ok (mkResponse 200 (object (row_of id c))), w0).
Proof.
  intros Hr. split.
  - by destruct Hr as [->|[->| ->]].
  - intros w0 c Hc _. rewrite GET_campaign_database. cbn [params_id]. by rewrite Hc.
Qed.

(** *** Status updates *)

Lemma bind_value_status d s :
  bind_value d (default_ (DefaultValue (VStr "draft")) (notNull (col "status" TVarchar)))
    (VStr s) =
  if has_nul s then Throw InvalidValue else Ok (VStr s).
Proof. unfold bind_value, resolves. cbn. by destruct (has_nul s). Qed.

Lemma status_column :
  default_ (DefaultValue (VStr "draft")) (notNull (col "status" TVarchar)) ∈ columns Campaigns.
Proof. apply list_elem_of_In. cbn. tauto. Qed.

Lemma bind_status_set d s :
  bind_values d Campaigns (<["updatedAt" := VDate (clock d)]> {["status" := VStr s]}) =
  if has_nul s then Throw InvalidValue
  else Ok (known Campaigns (<["updatedAt" := VDate (clock d)]> {["status" := VStr s]})).
Proof.
  destruct (has_nul s) eqn:Hs.
  - destruct (bind_values_Throw d Campaigns
                (<["updatedAt" := VDate (clock d)]> {["status" := VStr s]}) _ (VStr s)
                InvalidValue status_column) as [e He].
    { cbn [col_name default_ notNull col]. rewrite lookup_insert_ne by done.
      apply lookup_singleton_eq. }
    { by rewrite bind_value_status, Hs. }
    rewrite He. f_equal.
    apply bind_values_Throw_inv in He as (c & v & Hc & Hv & Hb). revert Hv Hb.
    each_column Hc; cbn [col_name default_ notNull col references];
      lookup_inserts; rewrite ?lookup_singleton_ne by done; try done.
    + rewrite lookup_singleton_eq. intros [= <-]. rewrite bind_value_status, Hs. congruence.
    + by intros [= <-].
  - apply bind_values_plain. intros c v Hc.
    each_column Hc; cbn [col_name default_ notNull col references];
      lookup_inserts; rewrite ?lookup_singleton_ne by done; try done.
    + rewrite lookup_singleton_eq. intros [= <-]. by rewrite bind_value_status, Hs.
    + by intros [= <-].
Qed.

Lemma known_status (updates : obj) now s :
  updates !! "status" = Some (VStr s) →
  known Campaigns (<["updatedAt" := VDate now]> updates) !! "status" = Some (VStr s).
Proof.
  intros Hs. rewrite lookup_known by (apply list_elem_of_In; cbn; tauto).
  by rewrite lookup_insert_ne.
Qed.

Lemma getCampaign_stored k row (d : Database) (m : gmap string obj) :
  row !! "id" = Some (VStr k) →
  getCampaign storage k (set_table Campaigns (<[k := delete "id" row]> m) d) =
    (Ok (Some row), set_table Campaigns (<[k := delete "id" row]> m) d).
Proof.
  intros Hk. cbn [getCampaign storage]. unfold DatabaseStorage.getCampaign, select_by_id.
  cbn [get_table set_table campaigns]. rewrite lookup_insert_eq.
  unfold row_of. by rewrite insert_delete_id.
Qed.

(** C7, as amended.  For a campaign in any state and any string [s] that
    holds no U+0000: [updateCampaign(id, {status: s})] succeeds and the row
    read back has status [s]; the PATCH route answers 200 with that row,
    the row is the one stored, and the update event goes to the sockets
    of the requester.  A status that holds U+0000 is refused by the
    database, whatever the current status: the update throws, nothing is
    written and the route answers 400.  Whenever an update whose body
    carries status [s] returns a row, that row and the persisted one have
    status [s].  No step looks at the current status. *)
Theorem any_status_is_persisted (d : Database) (id s : string) (c : obj) :
  campaigns d !! id = Some c →
  (has_nul s = false →
   ∃ row d',
     updateCampaign storage id {["status" := VStr s]} d = (Ok (Some row), d') ∧
     row !! "status" = Some (VStr s) ∧
     getCampaign storage id d' = (Ok (Some row), d')) ∧
  (has_nul s = true →
   updateCampaign storage id {["status" := VStr s]} d = (Throw InvalidValue, d)) ∧
  (∀ updates row d',
     updates !! "status" = Some (VStr s) →
     updateCampaign storage id updates d = (Ok (Some row), d') →
     row !! "status" = Some (VStr s) ∧
     ∃ k, row !! "id" = Some (VStr k) ∧ getCampaign storage k d' = (Ok (Some row), d')) ∧
  ∀ (w : World Database) (u : string) (f : option obj),
    db w = d →
    ∃ res w',
      handle storage PATCH_campaign (mkRequest u id {["status" := VStr s]} f) w =
        (Ok res, w') ∧
      if has_nul s
      then res = mkResponse 400 (message "Failed to update campaign") ∧
           db w' = d ∧ clients w' = clients w
      else ∃ row,
           res = mkResponse 200 (object row) ∧
           row !! "status" = Some (VStr s) ∧
           updateCampaign storage id {["status" := VStr s]} d = (Ok (Some row), db w') ∧
           getCampaign storage id (db w') = (Ok (Some row), db w') ∧
           clients w' = broadcastToUser u (campaign_updated (Some row)) (clients w).
Proof.
  intros Hc.
  set (set' := known Campaigns (<["updatedAt" := VDate (clock d)]> {["status" := VStr s]})).
  set (row := set' ∪ row_of id c).
  assert (Hup : has_nul s = false →
                updateCampaign storage id {["status" := VStr s]} d =
                (Ok (Some row), set_table Campaigns (<[id := delete "id" row]> (campaigns d)) d)).
  { intros Hs. cbn [updateCampaign storage].
    apply updateCampaign_plain; [by rewrite bind_status_set, Hs|done..]. }
  assert (Hthrow : has_nul s = true →
                   updateCampaign storage id {["status" := VStr s]} d =
                   (Throw InvalidValue, d)).
  { intros Hs. cbn [updateCampaign storage].
    unfold DatabaseStorage.updateCampaign, bind, gets, db_update.
    by rewrite bind_status_set, Hs. }
  assert (Hst : row !! "status" = Some (VStr s)).
  { apply lookup_union_Some_l. apply known_status. apply lookup_singleton_eq. }
  assert (Hid : row !! "id" = Some (VStr id)).
  { unfold row. rewrite lookup_union_r by done. apply lookup_insert_eq. }
  split; [|split; [exact Hthrow|split]].
  - intros Hs. eexists _, _. split; [by apply Hup|]. split; [exact Hst|].
    by apply getCampaign_stored.
  - intros updates row' d' Hs.
    cbn [updateCampaign storage]. unfold DatabaseStorage.updateCampaign, bind, gets.
    intros (set0 & old & k & Hb & Hold & -> & Hk & ->)%update_returned.
    split.
    + apply lookup_union_Some_l.
      apply bind_values_Ok in Hb as [Hin _]. specialize (Hin _ status_column).
      cbn [col_name default_ notNull col] in Hin.
      rewrite lookup_insert_ne, Hs in Hin by done.
      destruct Hin as (v' & Hv' & ->). rewrite bind_value_status in Hv'.
      destruct (has_nul s); congruence.
    + exists k. split; [exact Hk|].
      by apply (getCampaign_stored k _ d (delete id (campaigns d))).
  - intros w u f <-.
    unfold handle, try_catch, try_block, catch_block, bind, await, console_error,
      broadcast, modify, json, status_json, ret.
    cbn [params_id body user]. destruct (has_nul s) eqn:Hs.
    + rewrite (Hthrow eq_refl). eexists _, _. split; [reflexivity|]. world_simpl.
      clear. by destruct w.
    + rewrite (Hup eq_refl). eexists _, _. split; [reflexivity|]. exists row.
      world_simpl. split; [reflexivity|]. split; [exact Hst|].
      split; [reflexivity|]. split; [|reflexivity].
      by apply getCampaign_stored.
Qed.

(** *** Deleting a campaign *)

(** C3, as amended.  [deleteCampaign(id)] never deletes or changes a lead
    row, so every lead stays readable under its id.  When the campaign has
    leads the statement is refused with a foreign key violation, the
    campaign row stays as well and DELETE /api/campaigns/:id answers 500;
    when the campaign exists and no lead points to it the row is removed
    and the route answers [{success: true}].  For an id that names no
    campaign nothing is changed: the statement does nothing, or is
    refused when the id holds U+0000. *)
Theorem deleteCampaign_keeps_leads (d : Database) (id : string) :
  let r := deleteCampaign storage id d in
  leads r.2 = leads d ∧
  (∀ k lead, leads d !! k = Some lead →
             select_by_id Leads k r.2 = (Ok (Some (row_of k lead)), r.2)) ∧
  (is_Some (campaigns d !! id) →
   (∃ k lead, leads d !! k = Some lead ∧ lead !! "campaignId" = Some (VStr id)) →
   r = (Throw ForeignKeyViolation, d)) ∧
  (is_Some (campaigns d !! id) →
   (∀ k lead, leads d !! k = Some lead → lead !! "campaignId" ≠ Some (VStr id)) →
   r.1 = Ok tt ∧ campaigns r.2 = delete id (campaigns d)) ∧
  (campaigns d !! id = None →
   r = (if has_nul id then Throw InvalidValue else Ok tt, d)) ∧
  ∀ (w : World Database) (u : string) (data : obj) (f : option obj),
    db w = d →
    ∃ res w',
      handle storage DELETE_campaign (mkRequest u id data f) w = (Ok res, w') ∧
      db w' = r.2 ∧ clients w' = clients w ∧ intervals w' = intervals w ∧
      res = match r.1 with
            | Ok _ => mkResponse 200 (object {["success" := VBool true]})
            | Throw _ => mkResponse 500 (message "Failed to delete campaign")
            end.
Proof.
  cbv zeta.
  assert (Hroute : ∀ (w : World Database) (u : string) (data : obj) (f : option obj),
            db w = d →
            ∃ res w',
              handle storage DELETE_campaign (mkRequest u id data f) w = (Ok res, w') ∧
              db w' = (deleteCampaign storage id d).2 ∧ clients w' = clients w ∧
              intervals w' = intervals w ∧
              res = match (deleteCampaign storage id d).1 with
                    | Ok _ => mkResponse 200 (object {["success" := VBool true]})
                    | Throw _ => mkResponse 500 (message "Failed to delete campaign")
                    end).
  { intros w u data f <-.
    unfold handle, try_catch, try_block, catch_block, bind, await, console_error,
      modify, json, status_json, ret.
    cbn [params_id]. destruct (deleteCampaign storage id (db w)) as [[[]|e] d'];
      eexists _, _; (split; [reflexivity|]); by world_simpl. }
  cbn [deleteCampaign storage] in *. unfold DatabaseStorage.deleteCampaign, db_delete in *.
  cbn [get_table] in *. rewrite referenced_campaign in *.
  assert (Hread : ∀ k lead d', leads d' = leads d → leads d !! k = Some lead →
                    select_by_id Leads k d' = (Ok (Some (row_of k lead)), d')).
  { intros k lead d' Hd' Hk. unfold select_by_id. cbn [get_table]. by rewrite Hd', Hk. }
  destruct (campaigns d !! id) as [c|] eqn:Hc.
  - destruct (bool_decide _) eqn:Href.
    + apply bool_decide_eq_true_1 in Href. cbn [fst snd].
      split; [done|]. split; [intros k lead; by apply Hread|]. split; [done|].
      split; [|split; [done|exact Hroute]].
      intros _ Hno. destruct Href as (k & lead & Hk & Hl). by destruct (Hno k lead Hk).
    + apply bool_decide_eq_false_1 in Href. cbn [fst snd].
      split; [done|]. split; [intros k lead; by apply Hread|].
      split; [|split; [done|split; [done|exact Hroute]]].
      intros _ (k & lead & Hk & Hl). destruct Href. by exists k, lead.
  - assert ((if has_nul id then (Throw InvalidValue, d) else (Ok tt, d)) =
            (if has_nul id then Throw InvalidValue else Ok tt, d)) as E
      by (by destruct (has_nul id)).
    rewrite E in *. cbn [fst snd].
    split; [done|]. split; [intros k lead; by apply Hread|].
    split; [by intros [? ?]|]. split; [by intros [? ?]|]. split; [done|exact Hroute].
Qed.

(** *** The validation flag *)

Lemma Qgt_bool_iff v q : Qgt_bool v q = true ↔ (q < v)%Q.
Proof.
  unfold Qgt_bool. rewrite negb_true_iff, <- not_true_iff_false, Qle_bool_iff.
  split; [apply Qnot_le_lt|apply Qlt_not_le].
Qed.

Lemma grid_flag (N k : nat) :
  (0 < N)%nat →
  Qgt_bool (inject_Z (Z.of_nat k) / inject_Z (Z.of_nat N)) (3 # 10)
  = (3 * Z.of_nat N <? 10 * Z.of_nat k).
Proof.
  intros HN. destruct N as [|N']; [lia|].
  apply eq_true_iff_eq. rewrite Qgt_bool_iff, Z.ltb_lt.
  rewrite Nat2Z.inj_succ, <- Z.add_1_r.
  generalize (Z.of_nat k) as x. intros x.
  assert (0 < Z.of_nat N' + 1) as Hpos by lia.
  destruct (Z.of_nat N' + 1) as [|p|p] eqn:Hp; try lia.
  unfold Qlt, Qdiv, Qmult, Qinv, inject_Z. cbn. lia.
Qed.

Lemma count_above (t : Z) (M : nat) :
  0 ≤ t →
  Z.of_nat (length (List.filter (λ k, t <? Z.of_nat k) (seq 0 M))) = Z.max 0 (Z.of_nat M - t - 1).
Proof.
  intros Ht. induction M as [|M IH]; [cbn; lia|].
  rewrite seq_S, List.filter_app, length_app, Nat2Z.inj_add, IH. cbn [List.filter Nat.add].
  destruct (t <? Z.of_nat M) eqn:E; cbn [length]; [apply Z.ltb_lt in E|apply Z.ltb_ge in E]; lia.
Qed.

Lemma validated_frequency (N : nat) :
  (0 < N)%nat →
  7 * Z.of_nat N - 10 ≤ 10 * Z.of_nat (validated_among N) ≤ 7 * Z.of_nat N.
Proof.
  intros HN. unfold validated_among.
  assert (E : List.filter
                (λ k, Qgt_bool (inject_Z (Z.of_nat k) / inject_Z (Z.of_nat N)) (3 # 10))
                (seq 0 N)
              = List.filter (λ k, (3 * Z.of_nat N) / 10 <? Z.of_nat k) (seq 0 N)).
  { apply List.filter_ext. intros k. rewrite grid_flag by done.
    apply eq_true_iff_eq. rewrite !Z.ltb_lt.
    pose proof (Z.div_mod (3 * Z.of_nat N) 10 ltac:(lia)).
    pose proof (Z.mod_pos_bound (3 * Z.of_nat N) 10 ltac:(lia)). lia. }
  rewrite E, count_above by (apply Z.div_pos; lia).
  pose proof (Z.div_mod (3 * Z.of_nat N) 10 ltac:(lia)).
  pose proof (Z.mod_pos_bound (3 * Z.of_nat N) 10 ltac:(lia)). lia.
Qed.

(** *** One tick *)

Lemma delivered_broadcast user message (cl : Clients) :
  delivered user [message] cl (broadcastToUser user message cl).
Proof. intros i. unfold broadcastToUser. by rewrite lookup_fmap. Qed.

Lemma delivered_broadcast2 user m1 m2 (cl : Clients) :
  delivered user [m1; m2] cl (broadcastToUser user m2 (broadcastToUser user m1 cl)).
Proof.
  intros i. unfold broadcastToUser. rewrite !lookup_fmap.
  destruct (cl !! i) as [ws|]; [|done]. cbn [fmap option_fmap option_map]. f_equal.
  destruct (bool_decide (readyState ws = OPEN) && strict_eq_str (userId ws) user) eqn:E.
  - unfold send. cbn [readyState userId sent]. rewrite E. by rewrite <- app_assoc.
  - by rewrite E.
Qed.

(** C5, as amended.  A tick [k] (1 to 10) of a run on an existing campaign
    returns normally; it computes [progress = round(k / 10 * 100)], which
    is [10 * k]; the campaign row then holds that progress, totalPages [k]
    and the run's leadsFound; exactly two lead rows are added under fresh
    ids, with the placeholder data and a validation flag that is true
    exactly when the draw is above 0.3 (of [N] equally spaced draws,
    between [0.7 N - 1] and [0.7 N] are); and the scraping_progress event
    with campaignId, progress, currentPage [k], totalPages 10 and
    leadsFound (followed by scraping_completed on tick 10) is sent to the
    open sockets tagged with the run's user id and to no other.  That
    user id is the one of the request that started the run. *)
Theorem tick_effects (w : World Database) (h : nat) (run : Run) (c : obj) :
  intervals w !! h = Some run →
  campaigns (db w) !! run_campaignId run = Some c →
  0 ≤ currentPage run < 10 →
  let id := run_campaignId run in
  let k := currentPage run + 1 in
  let n := leadsFound run + increment (random w (drawn w)) in
  let progress := Math_round (inject_Z k / inject_Z totalPages * 100) in
  let v0 := random w (S (drawn w)) in
  let v1 := random w (S (S (drawn w))) in
  (∃ w',
     interval_callback storage h w = (Ok tt, w') ∧
     progress = 10 * k ∧
     (∃ c', campaigns (db w') !! id = Some c' ∧
            c' !! "progress" = Some (VInt progress) ∧
            c' !! "totalPages" = Some (VInt k) ∧
            c' !! "leadsFound" = Some (VInt n)) ∧
     (∃ k0 k1 l0 l1,
        k0 ≠ k1 ∧ leads (db w) !! k0 = None ∧ leads (db w) !! k1 = None ∧
        leads (db w') = <[k1 := l1]> (<[k0 := l0]> (leads (db w))) ∧
        placeholder l0 id (n + 0) (Qgt_bool v0 (3 # 10)) ∧
        placeholder l1 id (n + 1) (Qgt_bool v1 (3 # 10))) ∧
     delivered (run_userId run)
       (scraping_progress id progress k totalPages n ::
        if totalPages <=? k then [scraping_completed id] else [])
       (clients w) (clients w')) ∧
  (∀ v, Qgt_bool v (3 # 10) = true ↔ (3 # 10 < v)%Q) ∧
  (∀ N, (0 < N)%nat →
        7 * Z.of_nat N - 10 ≤ 10 * Z.of_nat (validated_among N) ≤ 7 * Z.of_nat N) ∧
  ∀ (w0 : World Database) (req : Request) (c0 : obj),
    campaigns (db w0) !! params_id req = Some c0 →
    intervals (handle storage POST_campaign_start req w0).2 =
      (intervals w0 ++ [mkRun (params_id req) (user req) 0 0 false])%list.
Proof.
  intros Hh Hc Hpage id k n progress v0 v1.
  split; [|split; [intros v; apply Qgt_bool_iff|split; [apply validated_frequency|]]].
  2:{ intros w0 req c0 Hc0. by rewrite (start_ok w0 req c0 Hc0). }
  eexists. split; [by apply (tick_database h w run c)|]. world_simpl.
  fold id. change (tick_page run) with k. change (tick_found run (random w (drawn w))) with n.
  change (progress_of k) with progress.
  assert (Hprog : progress = 10 * k) by apply progress_of_eq.
  split; [exact Hprog|]. split; [|split].
  - destruct (tick_db_campaign run (random w (drawn w)) v0 v1 c (db w))
      as (c' & Hc' & Htp & Hlf & Hpr & _).
    exists c'. split; [exact Hc'|]. split; [|by split].
    rewrite Hpr. change (tick_page run) with k. change (progress_of k) with progress.
    destruct (totalPages <=? k) eqn:E; [|done].
    apply Z.leb_le in E. unfold totalPages in E. do 2 f_equal. lia.
  - destruct (tick_db_leads run (random w (drawn w)) v0 v1 c (db w))
      as (Hl & Hk0 & Hne & Hk1 & _).
    set (l0 := delete "id" (complete (db w) Leads (tick_lead run (random w (drawn w)) 0 v0))) in *.
    set (k0 := fresh_string "uuid" (leads (db w))) in *.
    set (l1 := delete "id" (complete (db w) Leads (tick_lead run (random w (drawn w)) 1 v1))) in *.
    set (k1 := fresh_string "uuid" (<[k0 := l0]> (leads (db w)))) in *.
    exists k0, k1, l0, l1.
    split; [by intros E; apply Hne|]. split; [exact Hk0|]. split; [exact Hk1|].
    split; [exact Hl|].
    split; apply sample_lead_row.
  - destruct (totalPages <=? k).
    + apply delivered_broadcast2.
    + apply delivered_broadcast.
Qed.

Lemma on_message_not_auth message ws :
  is_auth message = false → (on_message message ws).2 = ws.
Proof.
  unfold is_auth, on_message, try_catch, bind, JSON_parse, prop, ret, throw, modify.
  destruct message as [[o| |]|]; simpl; try reflexivity.
  destruct (strict_eq_str (o !! "type") "auth"); simpl; [|reflexivity].
  by intros ->.
Qed.

Lemma ws_step_untouched c clients e :
  sends_auth c e = false → untouched c clients → untouched c (ws_step clients e).
Proof.
  intros Hna Hinv ws. destruct e as [|c' message|c'|user message]; simpl.
  - destruct (decide (fresh (dom clients) = c)) as [->|Hne].
    + rewrite lookup_insert_eq. by intros [= <-].
    + rewrite lookup_insert_ne by done. apply Hinv.
  - destruct (clients !! c') as [ws'|] eqn:Hc'; [|apply Hinv].
    destruct (decide (c' = c)) as [->|Hne].
    + rewrite lookup_insert_eq. intros [= <-].
      simpl in Hna. rewrite bool_decide_eq_true_2 in Hna by done. simpl in Hna.
      rewrite on_message_not_auth by done. by apply Hinv.
    + rewrite lookup_insert_ne by done. apply Hinv.
  - rewrite lookup_alter. case_decide as Heq.
    + subst c'. destruct (clients !! c) as [ws'|] eqn:Hc; simpl; [|done].
      intros [= <-]. simpl. by apply Hinv.
    + apply Hinv.
  - unfold broadcastToUser. rewrite lookup_fmap.
    destruct (clients !! c) as [ws'|] eqn:Hc; simpl; [|done].
    intros [= <-]. destruct (Hinv ws' Hc) as [Hu Hs].
    rewrite Hu. simpl. by rewrite andb_false_r.
Qed.

Lemma ws_run_untouched c trace clients :
  never_auth c trace = true → untouched c clients → untouched c (ws_run clients trace).
Proof.
  revert clients. induction trace as [|e trace IH]; intros clients Hna Hinit; [exact Hinit|].
  simpl in Hna. apply andb_true_iff in Hna as [He Htr].
  simpl. apply IH; [done|]. apply ws_step_untouched; [|done].
  by apply negb_true_iff.
Qed.

(** C2.  From the start of the server, over every sequence of
    connections, frames, closes and calls of [broadcastToUser]: a
    connection that never sent a frame [{type: "auth", userId}] with a
    usable user id keeps [userId] undefined and has been sent nothing; and
    a further [broadcastToUser(user, message)], for any string [user],
    leaves it as it is. *)
Theorem no_auth_no_broadcast (trace : list ws_event) (c : nat) :
  never_auth c trace = true →
  (∀ ws, ws_run ∅ trace !! c = Some ws → userId ws = None ∧ sent ws = []) ∧
  ∀ user message,
    broadcastToUser user message (ws_run ∅ trace) !! c = ws_run ∅ trace !! c.
Proof.
  intros Hna.
  assert (Hinv : untouched c (ws_run ∅ trace)).
  { apply ws_run_untouched; [done|]. intros ws. by rewrite lookup_empty. }
  split; [exact Hinv|]. intros user message.
  unfold broadcastToUser. rewrite lookup_fmap.
  destruct (ws_run ∅ trace !! c) as [ws|] eqn:Hc; [|done].
  destruct (Hinv ws Hc) as [Hu _]. simpl. rewrite Hu. simpl. by rewrite andb_false_r.
Qed.

(** C2 on a trace where connection 0 sends frames that are no auth frame,
    among them an auth frame with an empty user id. *)
Lemma no_auth_no_broadcast_sample :
  never_auth 0 sample_trace = true ∧
  ∃ ws, ws_run ∅ sample_trace !! 0%nat = Some ws ∧ userId ws = None ∧ sent ws = [].
Proof.
  split; [reflexivity|].
  exists (mkClient OPEN None []). split; [compute_done|].
  apply (no_auth_no_broadcast sample_trace 0); [reflexivity|compute_done].
Defined.

(** C1 on the sample campaign, started by its owner. *)
Lemma completed_run_row_sample :
  ∃ row n,
    (getCampaign storage "c1"
       (db (fires storage 10 0
              (handle storage POST_campaign_start (start_by "bob")
                 (sample_world sample_db warn)).2))).1 = Ok (Some row) ∧
    row !! "status" = Some (VStr "completed") ∧
    row !! "progress" = Some (VInt 100) ∧
    row !! "totalPages" = Some (VInt 10) ∧
    row !! "leadsFound" = Some (VInt n) ∧
    10 ≤ n ≤ 50.
Proof.
  apply (completed_run_row (sample_world sample_db warn) (start_by "bob") sample_campaign).
  - reflexivity.
  - intros n. split; [discriminate|reflexivity].
  - compute_done.
Defined.


(** C6 on the first tick of the sample run. *)
Lemma leadsFound_increases_sample :
  1 ≤ counter 0 (interval_callback storage 0
                   (handle storage POST_campaign_start (start_by "bob")
                      (sample_world sample_db warn)).2).2
      - counter 0 (handle storage POST_campaign_start (start_by "bob")
                     (sample_world sample_db warn)).2 ≤ 5.
Proof.
  refine (proj1 (leadsFound_increases storage 0
                   (handle storage POST_campaign_start (start_by "bob")
                      (sample_world sample_db warn)).2
                   (mkRun "c1" "bob" 0 0 false) _ _)).
  - intros n. vm_compute. split; [discriminate|reflexivity].
  - compute_done.
Defined.

(** C3 as stated fails: the sample campaign has a lead, [deleteCampaign]
    throws, the campaign row is still there and the DELETE route answers
    500. *)
Lemma deleteCampaign_refused_with_leads :
  leads sample_db_with_lead !! "l1" ≫= (.!! "campaignId") = Some (VStr "c1") ∧
  (deleteCampaign storage "c1" sample_db_with_lead).1 = Throw ForeignKeyViolation ∧
  campaigns (deleteCampaign storage "c1" sample_db_with_lead).2 !! "c1"
    = Some sample_campaign ∧
  (handle storage DELETE_campaign (start_by "bob")
     (sample_world sample_db_with_lead warn)).1
    = Ok (mkResponse 500 (message "Failed to delete campaign")).
Proof. repeat split; compute_done. Qed.

(** C3 as amended, on the sample campaign with one lead. *)
Lemma deleteCampaign_keeps_leads_sample :
  deleteCampaign storage "c1" sample_db_with_lead
  = (Throw ForeignKeyViolation, sample_db_with_lead).
Proof.
  apply (deleteCampaign_keeps_leads sample_db_with_lead "c1").
  - compute_done.
  - exists "l1", (<["campaignId" := VStr "c1"]> {["businessName" := VStr "Business 1"]}).
    split; compute_done.
Defined.

(** C4 as stated fails: in a process that survives the rejection, the
    first tick's lead insert throws (the campaign is gone) and the second
    firing still runs the callback: the page counter goes to 2 and a
    second rejection is recorded. *)
Lemma ticks_go_on_after_failed_insert :
  let w1 := fire storage 0 deleted_after_start in
  let w2 := fire storage 0 w1 in
  (interval_callback storage 0 deleted_after_start).1 = Throw ForeignKeyViolation ∧
  unhandled w1 = [ForeignKeyViolation] ∧
  page 0 w1 = 1 ∧
  page 0 w2 = 2 ∧
  unhandled w2 = [ForeignKeyViolation; ForeignKeyViolation] ∧
  w2 ≠ w1.
Proof.
  cbv zeta. repeat split; try compute_done.
  intros E. apply (f_equal (page 0)) in E. vm_compute in E. discriminate.
Qed.

(** C4 as amended, on the sample run whose campaign was deleted before the
    first tick. *)
Lemma failed_insert_unhandled_sample :
  unhandled (fire storage 0 deleted_after_start) = [ForeignKeyViolation] ∧
  page 0 (fire storage 0 (fire storage 0 deleted_after_start)) = 2.
Proof.
  pose proof (failed_insert_unhandled storage 0 deleted_after_start
                (mkRun "c1" "bob" 0 0 false) ForeignKeyViolation 0%nat
                (db deleted_after_start)) as H.
  destruct H as (_ & Hu & _ & _ & _ & _ & _ & Hnext).
  - reflexivity.
  - compute_done.
  - reflexivity.
  - exists (mkRun "c1" "bob" 0 0 false), None, deleted_after_start.(db).
    split; [compute_done|]. split; [compute_done|].
    left. split; [reflexivity|]. compute_done.
  - assert (unhandled_rejections (runtime deleted_after_start) = warn) as E
      by (vm_compute; reflexivity).
    rewrite E in Hnext. split; [exact Hu|]. apply Hnext.
Defined.

(** C5 as stated fails: alice starts bob's campaign; the first tick sends
    the progress event to alice's socket and nothing to the socket of bob,
    who owns the campaign. *)
Lemma progress_event_goes_to_the_starter :
  let w := fire storage 0
             (handle storage POST_campaign_start (start_by "alice")
                (sample_world sample_db warn)).2 in
  campaigns (db w) !! "c1" ≫= (.!! "userId") = Some (VStr "bob") ∧
  clients w !! 0%nat = Some (mkClient OPEN (Some (VStr "bob")) []) ∧
  clients w !! 1%nat =
    Some (mkClient OPEN (Some (VStr "alice")) [scraping_progress "c1" 10 1 10 3]).
Proof. cbv zeta. repeat split; compute_done. Qed.

(** C5 as amended, on the first tick of the sample campaign started by
    alice. *)
Lemma tick_effects_sample :
  ∃ w',
    interval_callback storage 0
      (handle storage POST_campaign_start (start_by "alice")
         (sample_world sample_db warn)).2 = (Ok tt, w') ∧
    delivered "alice" [scraping_progress "c1" 10 1 10 3]
      sample_clients (clients w').
Proof.
  destruct (tick_effects
              (handle storage POST_campaign_start (start_by "alice")
                 (sample_world sample_db warn)).2
              0 (mkRun "c1" "alice" 0 0 false)
              (stored running_set 0 "c1" sample_campaign))
    as ((w' & Hcb & _ & _ & _ & Hdel) & _).
  - compute_done.
  - compute_done.
  - cbn. lia.
  - exists w'. split; [exact Hcb|]. exact Hdel.
Defined.

(** C7 on the sample campaign: draft to completed in one PATCH. *)
Lemma any_status_is_persisted_sample :
  ∃ row d',
    updateCampaign storage "c1" {["status" := VStr "completed"]} sample_db
      = (Ok (Some row), d') ∧
    row !! "status" = Some (VStr "completed") ∧
    getCampaign storage "c1" d' = (Ok (Some row), d').
Proof.
  refine (proj1 (any_status_is_persisted sample_db "c1" "completed" sample_campaign _) _).
  - compute_done.
  - reflexivity.
Defined.

(** C7 as stated fails: a status holding U+0000 is a string a PATCH body
    can carry, the update of the sample campaign throws on it, the route
    answers 400 and the row keeps its status. *)
Lemma status_with_nul_is_refused :
  let body : obj := {["status" := VStr text_with_nul]} in
  let r := handle storage PATCH_campaign (mkRequest "bob" "c1" body None)
             (sample_world sample_db warn) in
  campaigns sample_db !! "c1" ≫= (.!! "status") = Some (VStr "draft") ∧
  updateCampaign storage "c1" body sample_db = (Throw InvalidValue, sample_db) ∧
  r.1 = Ok (mkResponse 400 (message "Failed to update campaign")) ∧
  campaigns (db r.2) !! "c1" ≫= (.!! "status") = Some (VStr "draft").
Proof. cbv zeta. repeat split; compute_done. Qed.

(** C8 as stated fails: no campaign of the sample database has the id
    holding U+0000, the lookup throws and GET /api/campaigns/:id answers
    500, not 404. *)
Lemma GET_campaign_with_nul_is_500 :
  campaigns sample_db !! text_with_nul = None ∧
  (handle storage GET_campaign (mkRequest "bob" text_with_nul ∅ None)
     (sample_world sample_db warn)).1
    = Ok (mkResponse 500 (message "Failed to fetch campaign")).
Proof. split; compute_done. Qed.

(** C8 as amended, on the DELETE route of the sample campaign with a lead,
    where the storage call throws. *)
Lemma routes_answer_errors_sample :
  ∃ res w',
    handle storage DELETE_campaign (start_by "bob")
      (sample_world sample_db_with_lead warn) = (Ok res, w') ∧
    res = mkResponse 500 (message "Failed to delete campaign").
Proof.
  destruct (routes_answer_errors storage DELETE_campaign (start_by "bob")
              (sample_world sample_db_with_lead warn))
    as (res & w' & Hh & Hthrow & _).
  exists res, w'. split; [exact Hh|].
  apply Hthrow. vm_compute. reflexivity.
Defined.

(** C9 on the sample campaign: alice's and bob's GET agree. *)
Lemma by_id_routes_ignore_the_user_sample :
  handle storage GET_campaign (mkRequest "alice" "c1" ∅ None) (sample_world sample_db warn) =
  handle storage GET_campaign (mkRequest "bob" "c1" ∅ None) (sample_world sample_db warn).
Proof.
  refine (proj1 (by_id_routes_ignore_the_user storage GET_campaign "alice" "bob" "c1" ∅ None
                   (sample_world sample_db warn) _)).
  left. reflexivity.
Defined.

(** ** Further properties *)

(** *** Connections *)

Lemma on_message_frame message ws :
  (on_message message ws).1 = Ok tt ∧
  readyState (on_message message ws).2 = readyState ws ∧
  sent (on_message message ws).2 = sent ws ∧
  (userId (on_message message ws).2 = userId ws ∨
   truthy (userId (on_message message ws).2) = true ∧ is_auth message = true).
Proof.
  unfold is_auth, on_message, try_catch, bind, JSON_parse, prop, ret, throw, modify.
  destruct message as [[o| |]|]; cbn; try by eauto 10.
  destruct (strict_eq_str (o !! "type") "auth"); cbn; [|by eauto 10].
  destruct (truthy (o !! "userId")) eqn:Ht; cbn; by eauto 10.
Qed.

Lemma ws_step_own c (clients : Clients) ws e :
  clients !! c = Some ws → ws_step clients e !! c = Some (own_step c ws e).
Proof.
  intros Hc. destruct e as [|c' message|c'|user message]; cbn [ws_step own_step].
  - rewrite lookup_insert_ne; [done|]. intros E.
    apply (is_fresh (dom clients)). rewrite E. apply elem_of_dom. by eauto.
  - case_bool_decide as E.
    + subst c'. rewrite Hc. by rewrite lookup_insert_eq.
    + destruct (clients !! c'); [by rewrite lookup_insert_ne|done].
  - rewrite lookup_alter. case_bool_decide as E.
    + subst c'. rewrite decide_True by done. by rewrite Hc.
    + by rewrite decide_False.
  - unfold broadcastToUser. by rewrite lookup_fmap, Hc.
Qed.

Lemma ws_run_own c trace : ∀ (clients : Clients) ws,
  clients !! c = Some ws → ws_run clients trace !! c = Some (foldl (own_step c) ws trace).
Proof.
  induction trace as [|e trace IH]; intros clients ws Hc; [done|].
  cbn [ws_run foldl]. apply IH. by apply ws_step_own.
Qed.

(** X2.  What happens to one connection depends only on its own frames,
    on its own close and on the broadcasts: its socket after a trace is
    the fold of [own_step] over the trace, and two servers that hold the
    same socket under [c] and see traces that agree on those events leave
    the same socket under [c], whatever other connections open, send and
    close. *)
Theorem connections_do_not_interfere (c : nat) (clients : Clients) (ws : WebSocketClient)
    (trace : list ws_event) :
  clients !! c = Some ws →
  ws_run clients trace !! c = Some (foldl (own_step c) ws trace) ∧
  ∀ (others : Clients) (trace' : list ws_event),
    others !! c = Some ws →
    List.filter (λ e, match e with
                      | Message c' _ | Close c' => bool_decide (c' = c)
                      | Broadcast _ _ => true
                      | Connection => false
                      end) trace' =
    List.filter (λ e, match e with
                      | Message c' _ | Close c' => bool_decide (c' = c)
                      | Broadcast _ _ => true
                      | Connection => false
                      end) trace →
    ws_run others trace' !! c = ws_run clients trace !! c.
Proof.
  intros Hc. split; [by apply ws_run_own|].
  intros others trace' Hc' Hsame.
  rewrite (ws_run_own c trace' others ws Hc'), (ws_run_own c trace clients ws Hc).
  f_equal.
  assert (Hf : ∀ tr ws0,
            foldl (own_step c) ws0 tr =
            foldl (own_step c) ws0
              (List.filter (λ e, match e with
                                 | Message c' _ | Close c' => bool_decide (c' = c)
                                 | Broadcast _ _ => true
                                 | Connection => false
                                 end) tr)).
  { induction tr as [|e tr IH]; intros ws0; [done|]. cbn [List.filter foldl].
    destruct e as [|c' m|c'|u m]; cbn [own_step].
    - apply IH.
    - case_bool_decide; cbn [foldl own_step]; [rewrite bool_decide_eq_true_2 by done|];
        apply IH.
    - case_bool_decide; cbn [foldl own_step]; [rewrite bool_decide_eq_true_2 by done|];
        apply IH.
    - cbn [foldl own_step]. apply IH. }
  by rewrite (Hf trace'), (Hf trace), Hsame.
Qed.

Lemma own_step_sent c ws e :
  sent ws `prefix_of` sent (own_step c ws e) ∧
  (readyState ws ≠ OPEN →
   readyState (own_step c ws e) ≠ OPEN ∧ sent (own_step c ws e) = sent ws).
Proof.
  destruct (on_message_frame (match e with Message _ m => m | _ => None end) ws)
    as (_ & Hr & Hs & _).
  destruct e as [|c' m|c'|u m]; cbn [own_step].
  - done.
  - case_bool_decide; [|done]. rewrite Hr, Hs. done.
  - case_bool_decide; [|done]. cbn. done.
  - case_bool_decide as Ho; cbn [andb]; [|done].
    destruct (strict_eq_str _ _); [|done]. cbn. split; [by apply prefix_app_r|done].
Qed.

(** X3.  Over every trace the messages sent to a socket only grow, at the
    end: what was sent stays sent, in order.  A socket that is not open
    never becomes open again and is sent nothing more. *)
Theorem deliveries_are_appended (c : nat) (clients : Clients) (ws : WebSocketClient)
    (trace : list ws_event) :
  clients !! c = Some ws →
  ∃ ws', ws_run clients trace !! c = Some ws' ∧
         sent ws `prefix_of` sent ws' ∧
         (readyState ws ≠ OPEN → readyState ws' ≠ OPEN ∧ sent ws' = sent ws).
Proof.
  intros Hc. eexists. split; [by apply ws_run_own|]. clear Hc clients.
  revert ws. induction trace as [|e trace IH]; intros ws; [done|].
  cbn [foldl]. destruct (own_step_sent c ws e) as [Hp Hclosed].
  destruct (IH (own_step c ws e)) as [Hp' Hclosed']. split.
  - by etrans.
  - intros Hne. destruct (Hclosed Hne) as [Hne' Hs].
    destruct (Hclosed' Hne') as [? ?]. split; [done|congruence].
Qed.

Lemma own_step_tagged c u ws e :
  readyState ws = OPEN → userId ws = Some (VStr u) →
  sends_auth c e = false →
  match e with Close c' => negb (bool_decide (c' = c)) | _ => true end = true →
  readyState (own_step c ws e) = OPEN ∧ userId (own_step c ws e) = Some (VStr u) ∧
  sent (own_step c ws e) = (sent ws ++ addressed u [e])%list.
Proof.
  intros Ho Hu Hna Hnc. destruct e as [|c' m|c'|u' m]; cbn [own_step addressed omap].
  - by rewrite app_nil_r.
  - rewrite app_nil_r. case_bool_decide as E; [|done].
    cbn in Hna. rewrite bool_decide_eq_true_2 in Hna by done. cbn [andb] in Hna.
    by rewrite on_message_not_auth.
  - rewrite app_nil_r. cbn beta iota in Hnc. apply negb_true_iff in Hnc. by rewrite Hnc.
  - rewrite Ho, Hu. rewrite bool_decide_eq_true_2 by done. cbn [andb strict_eq_str].
    destruct (String.eqb u u') eqn:E; cbn; rewrite E; [done|by rewrite app_nil_r].
Qed.

Lemma addressed_cons u e trace :
  addressed u (e :: trace) = (addressed u [e] ++ addressed u trace)%list.
Proof. unfold addressed. cbn. by destruct (match e with Broadcast _ _ => _ | _ => _ end). Qed.

(** X4.  An open connection that sends [{type: "auth", userId: u}] with
    any non-empty [u] of its choice is tagged [u].  As long as it sends no
    further auth frame and is not closed, it is then sent exactly the
    messages that [broadcastToUser] addresses to [u], in their order. *)
Theorem identity_is_self_declared (c : nat) (clients : Clients) (ws : WebSocketClient)
    (u : string) (trace : list ws_event) :
  clients !! c = Some ws →
  readyState ws = OPEN →
  u ≠ "" →
  never_auth c trace = true →
  never_closed c trace = true →
  ∃ ws', ws_run clients (Message c (auth_frame u) :: trace) !! c = Some ws' ∧
         userId ws' = Some (VStr u) ∧
         sent ws' = (sent ws ++ addressed u trace)%list.
Proof.
  intros Hc Ho Hu Hna Hnc. eexists. split; [by apply ws_run_own|].
  cbn [foldl own_step]. rewrite bool_decide_eq_true_2 by done.
  assert (Hauth : (on_message (auth_frame u) ws).2 = mkClient OPEN (Some (VStr u)) (sent ws)).
  { unfold on_message, auth_frame, try_catch, bind, JSON_parse, prop, ret, modify.
    rewrite lookup_insert_eq. cbn [strict_eq_str String.eqb Ascii.eqb Bool.eqb].
    rewrite lookup_insert_ne by done. rewrite lookup_singleton_eq. cbn [truthy].
    destruct (String.eqb u "") eqn:E; [by apply String.eqb_eq in E|]. cbn. by rewrite Ho. }
  rewrite Hauth. clear Hauth Hc clients.
  set (ws0 := mkClient OPEN (Some (VStr u)) (sent ws)).
  assert (sent ws = sent ws0) as -> by done.
  assert (readyState ws0 = OPEN) as Ho' by done.
  assert (userId ws0 = Some (VStr u)) as Hu' by done.
  clearbody ws0. clear ws Ho. revert ws0 Ho' Hu'.
  induction trace as [|e trace IH]; intros ws Ho Hw.
  - cbn. by rewrite app_nil_r.
  - cbn [never_auth never_closed forallb] in Hna, Hnc.
    apply andb_true_iff in Hna as [He%negb_true_iff Hna].
    apply andb_true_iff in Hnc as [He' Hnc].
    destruct (own_step_tagged c u ws e Ho Hw He He') as (Ho1 & Hu1 & Hs1).
    cbn [foldl]. destruct (IH Hna Hnc _ Ho1 Hu1) as [Hu2 Hs2].
    split; [done|]. by rewrite Hs2, Hs1, (addressed_cons u e trace), app_assoc.
Qed.

(** X1.  The message handler of a socket never throws, whatever the frame
    (also one that is no JSON, or JSON that is no object): the error of
    [JSON.parse] or of the property access is caught.  It leaves the
    state of the socket and what was sent to it as they were, and it
    sets the user id only on a frame whose type is "auth" and whose
    userId is truthy: then to that userId, with no check of it. *)
Theorem message_handler_is_safe (message : option JSON) (ws : WebSocketClient) :
  (on_message message ws).1 = Ok tt ∧
  readyState (on_message message ws).2 = readyState ws ∧
  sent (on_message message ws).2 = sent ws ∧
  userId (on_message message ws).2 =
    match message with
    | Some (JObject o) => if is_auth message then o !! "userId" else userId ws
    | _ => userId ws
    end ∧
  (userId (on_message message ws).2 ≠ userId ws →
   truthy (userId (on_message message ws).2) = true).
Proof.
  destruct (on_message_frame message ws) as (H1 & H2 & H3 & H4).
  split; [done|]. split; [done|]. split; [done|]. split.
  - unfold is_auth, on_message, try_catch, bind, JSON_parse, prop, ret, throw, modify.
    destruct message as [[o| |]|]; cbn; try done.
    destruct (strict_eq_str (o !! "type") "auth"); cbn; [|done].
    by destruct (truthy (o !! "userId")).
  - intros Hne. by destruct H4 as [?|[? _]].
Qed.


(** *** A run on a campaign that is not there *)

Lemma update_missing t id set set' d :
  bind_values d t set = Ok set' →
  get_table t d !! id = None →
  db_update t id set d = (if has_nul id then Throw InvalidValue else Ok None, d).
Proof. intros Hb H. unfold db_update. rewrite Hb, H. by destruct (has_nul id). Qed.

Lemma start_missing (w : World Database) req :
  campaigns (db w) !! params_id req = None →
  has_nul (params_id req) = false →
  handle storage POST_campaign_start req w =
    (Ok (mkResponse 200 undefined),
     with_intervals (intervals w ++ [mkRun (params_id req) (user req) 0 0 false]) w).
Proof.
  intros Hc Hn. unfold handle, try_catch, try_block, bind, await.
  change (updateCampaign storage) with DatabaseStorage.updateCampaign.
  unfold DatabaseStorage.updateCampaign, bind, gets.
  erewrite update_missing; [|reflexivity|exact Hc]. rewrite Hn.
  clear. by destruct w.
Qed.

(** A tick of a run whose campaign is not there: the update finds no row,
    the first insert is refused. *)
Lemma tick_missing h (w : World Database) run :
  intervals w !! h = Some run →
  campaigns (db w) !! run_campaignId run = None →
  has_nul (run_campaignId run) = false →
  interval_callback storage h w =
    (Throw ForeignKeyViolation,
     mkWorld (db w) (clients w)
       (<[h := mkRun (run_campaignId run) (run_userId run) (tick_page run)
                     (tick_found run (random w (drawn w))) (cleared run)]> (intervals w))
       (random w) (S (S (drawn w))) (console w) (unhandled w) (exited w) (runtime w)).
Proof.
  intros Hh Hc Hn. unfold tick_found, tick_page, increment.
  unfold interval_callback, bind, gets. rewrite Hh.
  unfold Math_random at 1. unfold set_run, modify, await. world_simpl.
  change (updateCampaign storage) with DatabaseStorage.updateCampaign.
  unfold DatabaseStorage.updateCampaign, bind, gets.
  erewrite update_missing; [|reflexivity|exact Hc]. rewrite Hn.
  world_simpl. cbn [for_]. unfold bind, Math_random, await, ret. world_simpl.
  change (createLead storage) with DatabaseStorage.createLead.
  rewrite (createLead_orphan _ (run_campaignId run)) by done.
  reflexivity.
Qed.

(** X6.  POST /api/campaigns/:id/start with an id that names no campaign
    (and holds no U+0000) answers 200 with an empty body and starts a run
    all the same.  In a process that survives unhandled rejections every
    firing of that run's timer then fails on the foreign key of the first
    lead insert: the database, the sockets and the log stay as they were,
    one more rejection is recorded per firing, the page counter goes up
    by one each time and the interval is never cleared. *)
Theorem start_of_unknown_campaign_never_stops (w : World Database) (req : Request)
    (n : nat) :
  exited w = false →
  unhandled_rejections (runtime w) = warn →
  campaigns (db w) !! params_id req = None →
  has_nul (params_id req) = false →
  let h := length (intervals w) in
  let started := handle storage POST_campaign_start req w in
  let wn := fires storage n h started.2 in
  started.1 = Ok (mkResponse 200 undefined) ∧
  db wn = db w ∧ clients wn = clients w ∧ console wn = console w ∧
  unhandled wn = (unhandled w ++ replicate n ForeignKeyViolation)%list ∧
  exited wn = false ∧
  ∃ run, intervals wn !! h = Some run ∧ currentPage run = Z.of_nat n ∧ cleared run = false.
Proof.
  intros Hx Hwarn Hc Hn. cbv zeta. rewrite start_missing by done. cbn [fst snd].
  set (h := length (intervals w)). set (wn := fires storage n h _).
  split; [done|].
  assert (db wn = db w ∧ clients wn = clients w ∧ console wn = console w ∧
          unhandled wn = (unhandled w ++ replicate n ForeignKeyViolation)%list ∧
          exited wn = false ∧ runtime wn = runtime w ∧
          ∃ lf, intervals wn !! h =
                Some (mkRun (params_id req) (user req) (Z.of_nat n) lf false)) as H.
  { unfold wn. clear wn. induction n as [|n IH].
    - cbn [fires replicate]. world_simpl. rewrite app_nil_r.
      repeat (split; [done|]). exists 0. unfold h. by rewrite lookup_app_r, Nat.sub_diag.
    - cbn [fires]. destruct IH as (Hd & Hcl & Hco & Hun & Hex & Hrt & lf & Hh).
      match goal with |- context [fire storage h ?x] => set (v := x) in * end.
      clearbody v.
      unfold fire. rewrite Hex, Hh. cbn [cleared].
      rewrite (tick_missing h v _ Hh); cbn [run_campaignId]; [|by rewrite Hd|done].
      unfold unhandledRejection. world_simpl. rewrite Hrt, Hwarn.
      split; [done|]. split; [done|]. split; [done|].
      split; [by rewrite Hun, replicate_S_end, app_assoc|].
      split; [done|]. split; [done|].
      eexists. rewrite list_lookup_insert_eq by (by eapply lookup_lt_Some).
      unfold tick_page. cbn [currentPage run_campaignId run_userId cleared].
      do 2 f_equal. lia. }
  clearbody wn. destruct H as (? & ? & ? & ? & ? & _ & lf & Hh).
  repeat (split; [done|]). by eauto.
Qed.



(** *** Two runs of one campaign *)

Lemma fire_run_step h h' id u u' had a b (w : World Database) :
  h ≠ h' →
  two_runs h h' id u u' had a b w →
  two_runs h h' id u u' had (Nat.min 10 (S a)) b (fire storage h w).
Proof.
  intros Hne (Hx & Ha & Hb & [lf Hh] & [lf' Hh'] & Hsz & [c Hc]).
  destruct (decide (a = 10)%nat) as [->|Hlt].
  - unfold fire. rewrite Hx, Hh. cbn [cleared Z.leb Z.of_nat totalPages].
    change (Nat.min 10 11) with 10%nat.
    by repeat split; eauto.
  - assert (a < 10)%nat as Ha' by lia.
    replace (Nat.min 10 (S a)) with (S a) by lia.
    assert (Hcl : (totalPages <=? Z.of_nat a) = false)
      by (apply Z.leb_gt; unfold totalPages; lia).
    rewrite Hcl in Hh. unfold fire. rewrite Hx, Hh. cbn [cleared].
    rewrite (tick_database h w _ c Hh Hc). cbn [run_campaignId run_userId cleared].
    set (run := mkRun id u (Z.of_nat a) lf false) in *.
    assert (Hpage : tick_page run = Z.of_nat (S a)) by (unfold tick_page, run; cbn; lia).
    unfold two_runs. world_simpl.
    split; [done|]. split; [lia|]. split; [done|].
    split.
    { eexists. rewrite list_lookup_insert_eq by (by eapply lookup_lt_Some).
      by rewrite Hpage, orb_false_r. }
    split; [exists lf'; by rewrite list_lookup_insert_ne|].
    split.
    { destruct (tick_db_leads run (random w (drawn w)) (random w (S (drawn w)))
                  (random w (S (S (drawn w)))) c (db w)) as (_ & _ & _ & _ & Hsz').
      change (run_campaignId run) with id in Hsz'. rewrite Hsz'. lia. }
    destruct (tick_db_campaign run (random w (drawn w)) (random w (S (drawn w)))
                (random w (S (S (drawn w)))) c (db w)) as (c' & Hc' & _).
    change (run_campaignId run) with id in Hc'. by eauto.
Qed.

Lemma two_runs_swap h h' id u u' had a b w :
  two_runs h h' id u u' had a b w ↔ two_runs h' h id u' u had b a w.
Proof.
  unfold two_runs. split; intros (? & ? & ? & ? & ? & Hsz & ?);
    repeat (split; [done|]); (split; [lia|done]).
Qed.

Lemma fire_each_two_runs h h' id u u' had schedule : ∀ a b (w : World Database),
  h ≠ h' →
  Forall (λ x, x = h ∨ x = h') schedule →
  two_runs h h' id u u' had a b w →
  two_runs h h' id u u' had
    (Nat.min 10 (a + count_occ Nat.eq_dec schedule h))
    (Nat.min 10 (b + count_occ Nat.eq_dec schedule h'))
    (fire_each storage schedule w).
Proof.
  induction schedule as [|x s IH]; intros a b w Hne Hs H.
  - cbn [count_occ fire_each foldl]. destruct H as (? & Ha & Hb & ?).
    rewrite !Nat.add_0_r. by replace (Nat.min 10 a) with a by lia;
      replace (Nat.min 10 b) with b by lia.
  - apply Forall_cons in Hs as [Hx Hs]. unfold fire_each. cbn [foldl].
    fold (fire_each storage s (fire storage x w)).
    destruct Hx as [->| ->].
    + rewrite count_occ_cons_eq by done. rewrite count_occ_cons_neq by done.
      apply (fire_run_step h h') in H; [|done].
      pose proof (IH _ _ _ Hne Hs H) as H'.
      replace (Nat.min 10 (a + S (count_occ Nat.eq_dec s h)))
        with (Nat.min 10 (Nat.min 10 (S a) + count_occ Nat.eq_dec s h)) by lia.
      exact H'.
    + rewrite count_occ_cons_neq by done. rewrite count_occ_cons_eq by done.
      apply two_runs_swap in H. apply (fire_run_step h' h) in H; [|done].
      apply two_runs_swap in H.
      pose proof (IH _ _ _ Hne Hs H) as H'.
      replace (Nat.min 10 (b + S (count_occ Nat.eq_dec s h')))
        with (Nat.min 10 (Nat.min 10 (S b) + count_occ Nat.eq_dec s h')) by lia.
      exact H'.
Qed.

(** X7.  Nothing keeps a campaign from being started twice: two POST
    /api/campaigns/:id/start on an existing campaign leave two runs with
    two timers.  Whatever the order in which the two timers fire, each
    run goes through its own pages, up to ten, and each of its ticks adds
    two leads to the same campaign: after [a] ticks of the one and [b] of
    the other the campaign has [2a + 2b] leads more. *)
Theorem two_starts_two_runs (w : World Database) (req1 req2 : Request) (c : obj)
    (schedule : list nat) :
  exited w = false →
  campaigns (db w) !! params_id req1 = Some c →
  params_id req2 = params_id req1 →
  let id := params_id req1 in
  let h := length (intervals w) in
  Forall (λ x, x = h ∨ x = S h) schedule →
  let started :=
    (handle storage POST_campaign_start req2
       (handle storage POST_campaign_start req1 w).2).2 in
  let w' := fire_each storage schedule started in
  let a := Nat.min 10 (count_occ Nat.eq_dec schedule h) in
  let b := Nat.min 10 (count_occ Nat.eq_dec schedule (S h)) in
  intervals started =
    (intervals w ++ [mkRun id (user req1) 0 0 false; mkRun id (user req2) 0 0 false])%list ∧
  page h w' = Z.of_nat a ∧ page (S h) w' = Z.of_nat b ∧
  size (leads_of id (db w')) = (size (leads_of id (db w)) + 2 * a + 2 * b)%nat.
Proof.
  intros Hx Hc Hid id h Hs started w' a b.
  assert (Hst : two_runs h (S h) id (user req1) (user req2)
                  (size (leads_of id (db w))) 0 0 started ∧
                intervals started =
                  (intervals w ++ [mkRun id (user req1) 0 0 false;
                                   mkRun id (user req2) 0 0 false])%list).
  { unfold started. rewrite (start_ok w req1 c Hc). cbn [snd].
    match goal with |- context [handle storage POST_campaign_start req2 ?v] =>
      set (w1 := v) end.
    assert (Hc1 : campaigns (db w1) !! params_id req2 =
                  Some (stored running_set (clock (db w)) (params_id req1) c)).
    { unfold w1. cbn. rewrite Hid. apply lookup_insert_eq. }
    rewrite (start_ok w1 req2 _ Hc1). unfold w1. cbn [snd]. world_simpl. rewrite Hid. fold id. split; [|by rewrite <- app_assoc].
    unfold two_runs. world_simpl.
    split; [done|]. split; [lia|]. split; [lia|].
    split.
    { exists 0. rewrite lookup_app_l by (rewrite length_app; cbn; lia).
      by rewrite lookup_app_r, Nat.sub_diag. }
    split.
    { exists 0. rewrite lookup_app_r by (rewrite length_app; cbn; lia).
      rewrite length_app. cbn [length].
      match goal with |- _ !! ?n = _ => by replace n with 0%nat by (unfold h; lia) end. }
    split; [rewrite !leads_of_put_campaign; lia|].
    cbn. rewrite lookup_insert_eq. by eauto. }
  destruct Hst as [Hst Hint]. split; [exact Hint|].
  pose proof (fire_each_two_runs h (S h) id (user req1) (user req2) _ schedule 0 0 started
                ltac:(lia) Hs Hst) as H.
  fold w' in H. clearbody w' started. cbn [Nat.add] in H. fold a b in H.
  destruct H as (_ & _ & _ & [lf Hh] & [lf' Hh'] & Hsz & _).
  unfold page. rewrite Hh, Hh'. cbn [currentPage]. done.
Qed.

(** *** Referential integrity *)

Lemma get_set_table t t' m d :
  get_table t' (set_table t m d) = if decide (t' = t) then m else get_table t' d.
Proof. by destruct t, t'. Qed.

Lemma same_table_refl t : same_table t t = true.
Proof. by destruct t. Qed.

Lemma no_self_reference t c : c ∈ columns t → col_references c ≠ Some t.
Proof.
  intros Hc Hr.
  assert (H : forallb (λ c, match col_references c with
                             | Some t' => negb (same_table t' t)
                             | None => true
                             end) (columns t) = true) by (by destruct t).
  rewrite forallb_forall in H. apply list_elem_of_In, H in Hc.
  by rewrite Hr, same_table_refl in Hc.
Qed.

Lemma fk_ok_spec d t o c t' v :
  fk_ok d t o = true → c ∈ columns t → col_references c = Some t' →
  o !! col_name c = Some (VStr v) → is_Some (get_table t' d !! v).
Proof.
  unfold fk_ok. rewrite forallb_forall. intros H Hc Hr Ho.
  apply list_elem_of_In, H in Hc. rewrite Hr, Ho in Hc. by apply bool_decide_eq_true in Hc.
Qed.

Lemma referenced_spec d t id t1 c k r :
  referenced d t id = false → c ∈ columns t1 → col_references c = Some t →
  get_table t1 d !! k = Some r → r !! col_name c ≠ Some (VStr id).
Proof.
  intros Href Hc Hr Hk Hv.
  assert (referenced d t id = true) as Habs; [|congruence].
  unfold referenced. apply existsb_exists. exists t1.
  split; [destruct t1; cbn; tauto|].
  apply existsb_exists. exists c. split; [by apply list_elem_of_In|].
  rewrite Hr, same_table_refl. apply bool_decide_eq_true. by exists k, r.
Qed.

Lemma delete_consistent t id d d' o :
  db_delete t id d = (o, d') → consistent d → consistent d'.
Proof.
  unfold db_delete. destruct (get_table t d !! id) as [old|] eqn:Hold;
    [|destruct (has_nul id); by intros [= _ <-]].
  destruct (referenced d t id) eqn:Href; intros [= _ <-]; [done|].
  intros Hd t1 c t2 Hc Hr k r v. rewrite !get_set_table.
  intros Hk Hv.
  assert (∃ k, get_table t1 d !! k = Some r) as [k0 Hk0].
  { destruct (decide (t1 = t)) as [->|]; [|by eauto].
    apply lookup_delete_Some in Hk as [_ Hk]. by eauto. }
  pose proof (Hd t1 c t2 Hc Hr k0 r v Hk0 Hv) as Hp.
  destruct (decide (t2 = t)) as [->|]; [|done].
  rewrite lookup_delete_ne; [done|]. intros ->.
  by eapply referenced_spec.
Qed.

Lemma insert_consistent t vals d d' o :
  db_insert t vals d = (o, d') → consistent d → consistent d'.
Proof.
  unfold db_insert. destruct (bind_values d t vals) as [given|e]; [|by intros [= _ <-]].
  set (row := complete d t given).
  destruct (null_error t row); [by intros [= _ <-]|].
  destruct (row !! "id") as [[| | |k| |]|] eqn:Hid; try by intros [= _ <-].
  destruct (bool_decide _) eqn:Hfresh; [by intros [= _ <-]|].
  destruct (unique_ok d t k row); [|by intros [= _ <-]].
  destruct (fk_ok d t row) eqn:Hfk; intros [= _ <-]; [|done].
  intros Hd t1 c t2 Hc Hr j r v. rewrite !get_set_table. intros Hj Hv.
  assert (is_Some (get_table t2 d !! v)) as Hp.
  { destruct (decide (t1 = t)) as [->|]; [|by eapply Hd].
    apply lookup_insert_Some in Hj as [[<- <-]|[_ Hj]]; [|by eapply Hd].
    apply lookup_delete_Some in Hv as [_ Hv]. by eapply fk_ok_spec. }
  destruct (decide (t2 = t)) as [->|]; [|done].
  destruct (decide (k = v)) as [->|]; [by rewrite lookup_insert_eq|].
  by rewrite lookup_insert_ne.
Qed.

Lemma update_consistent t id set d d' o :
  db_update t id set d = (o, d') → consistent d → consistent d'.
Proof.
  unfold db_update. destruct (bind_values d t set) as [set'|e]; [|by intros [= _ <-]].
  destruct (get_table t d !! id) as [old|] eqn:Hold;
    [|destruct (has_nul id); by intros [= _ <-]].
  destruct (null_error t set'); [by intros [= _ <-]|].
  destruct ((set' ∪ row_of id old) !! "id") as [[| | |k| |]|] eqn:Hid; try by intros [= _ <-].
  destruct (negb (bool_decide (k = id)) && bool_decide _) eqn:Hdup; [by intros [= _ <-]|].
  destruct (unique_ok d t id set'); [|by intros [= _ <-]].
  destruct (fk_ok d t set') eqn:Hfk; [|by intros [= _ <-]].
  destruct (negb (bool_decide (k = id)) && referenced d t id) eqn:Href;
    intros [= _ <-]; [done|].
  intros Hd t1 c t2 Hc Hr j r v. rewrite !get_set_table. intros Hj Hv.
  destruct (decide (t1 = t)) as [->|Ht1].
  - assert (t2 ≠ t) as Ht2 by (intros ->; by eapply no_self_reference).
    rewrite decide_False by done.
    apply lookup_insert_Some in Hj as [[<- <-]|[_ Hj]].
    + apply lookup_delete_Some in Hv as [Hne Hv].
      apply lookup_union_Some_raw in Hv as [Hv|[_ Hv]]; [by eapply fk_ok_spec|].
      unfold row_of in Hv. rewrite lookup_insert_ne in Hv by done. by eapply Hd.
    + apply lookup_delete_Some in Hj as [_ Hj]. by eapply Hd.
  - pose proof (Hd t1 c t2 Hc Hr j r v Hj Hv) as Hp.
    destruct (decide (t2 = t)) as [->|]; [|done].
    destruct (decide (k = v)) as [->|Hkv]; [by rewrite lookup_insert_eq|].
    rewrite lookup_insert_ne by done. rewrite lookup_delete_ne; [done|]. intros ->.
    apply andb_false_iff in Href as [Hk|Href].
    + apply negb_false_iff, bool_decide_eq_true in Hk. done.
    + by eapply referenced_spec.
Qed.

Lemma perform_consistent (c : call) (d : Database) :
  consistent d → consistent (perform storage c d).
Proof.
  intros Hd.
  destruct c; cbn [perform storage getUser upsertUser createCampaign getUserCampaigns
    getCampaign updateCampaign deleteCampaign createLead getCampaignLeads getUserLeads
    updateLead deleteLead getLeadStats createFile getUserFiles getFile deleteFile];
    unfold DatabaseStorage.getUser, DatabaseStorage.getCampaign, DatabaseStorage.getFile,
      DatabaseStorage.getUserCampaigns, DatabaseStorage.getCampaignLeads,
      DatabaseStorage.getUserFiles, DatabaseStorage.getUserLeads,
      DatabaseStorage.getLeadStats, select_by_id, select_where;
    try (by repeat case_match).
  - unfold DatabaseStorage.upsertUser.
    destruct (bind_values d Users userData) as [given|e]; [|done].
    destruct (given !! "id") as [[| | |k| |]|];
      try (destruct (db_insert Users userData d) as [o d'] eqn:E;
           by eapply insert_consistent).
    destruct (bool_decide _).
    + unfold bind. destruct (db_update Users k _ d) as [[r|e] d'] eqn:E;
        by eapply update_consistent.
    + destruct (db_insert Users userData d) as [o d'] eqn:E; by eapply insert_consistent.
  - unfold DatabaseStorage.createCampaign.
    destruct (db_insert _ _ d) as [o d'] eqn:E; by eapply insert_consistent.
  - unfold DatabaseStorage.updateCampaign, bind, gets.
    destruct (db_update _ _ _ d) as [o d'] eqn:E; by eapply update_consistent.
  - unfold DatabaseStorage.deleteCampaign.
    destruct (db_delete _ _ d) as [o d'] eqn:E; by eapply delete_consistent.
  - unfold DatabaseStorage.createLead.
    destruct (db_insert _ _ d) as [o d'] eqn:E; by eapply insert_consistent.
  - unfold DatabaseStorage.updateLead, bind, gets.
    destruct (db_update _ _ _ d) as [o d'] eqn:E; by eapply update_consistent.
  - unfold DatabaseStorage.deleteLead.
    destruct (db_delete _ _ d) as [o d'] eqn:E; by eapply delete_consistent.
  - unfold DatabaseStorage.createFile.
    destruct (db_insert _ _ d) as [o d'] eqn:E; by eapply insert_consistent.
  - unfold DatabaseStorage.deleteFile.
    destruct (db_delete _ _ d) as [o d'] eqn:E; by eapply delete_consistent.
Qed.


(** The routes and the simulator reach the database through the storage
    interface only: what every storage call keeps, they keep. *)
Section Invariant.
Context {DB : Type} (st : IStorage DB) (I : DB → Prop).
Hypothesis storage_keeps : ∀ c d, I d → I (perform st c d).

Ltac call_of E :=
  lazymatch type of E with
  | getUser _ ?a _ = _ => constr:(GetUser a)
  | upsertUser _ ?a _ = _ => constr:(UpsertUser a)
  | createCampaign _ ?a ?b _ = _ => constr:(CreateCampaign a b)
  | getUserCampaigns _ ?a _ = _ => constr:(GetUserCampaigns a)
  | getCampaign _ ?a _ = _ => constr:(GetCampaign a)
  | updateCampaign _ ?a ?b _ = _ => constr:(UpdateCampaign a b)
  | deleteCampaign _ ?a _ = _ => constr:(DeleteCampaign a)
  | createLead _ ?a _ = _ => constr:(CreateLead a)
  | getCampaignLeads _ ?a _ = _ => constr:(GetCampaignLeads a)
  | getUserLeads _ ?a _ = _ => constr:(GetUserLeads a)
  | updateLead _ ?a ?b _ = _ => constr:(UpdateLead a b)
  | deleteLead _ ?a _ = _ => constr:(DeleteLead a)
  | getLeadStats _ ?a _ = _ => constr:(GetLeadStats a)
  | createFile _ ?a ?b _ = _ => constr:(CreateFile a b)
  | getUserFiles _ ?a _ = _ => constr:(GetUserFiles a)
  | getFile _ ?a _ = _ => constr:(GetFile a)
  | deleteFile _ ?a _ = _ => constr:(DeleteFile a)
  end.

Ltac kept E H :=
  let c := call_of E in
  match type of E with
  | _ ?d = (_, ?d') =>
      assert (I d') as H
        by (let K := fresh in
            assert (I d) as K by assumption;
            apply (storage_keeps c) in K; cbn [perform] in K; by rewrite E in K)
  end.

Ltac storage_call E H :=
  match goal with
  | |- context [?op st ?a ?b ?d] =>
      destruct (op st a b d) as [[?x|?e] ?d'] eqn:E; kept E H
  | |- context [?op st ?a ?d] =>
      destruct (op st a d) as [[?x|?e] ?d'] eqn:E; kept E H
  end.

Lemma handle_keeps r req (w : World DB) : I (db w) → I (db (handle st r req w).2).
Proof.
  intros Hw.
  destruct r; unfold handle, try_catch, try_block, catch_block, bind, await,
    insertCampaignSchema, json, status_json, ret, broadcast, simulateScraping,
    console_error, modify, gets, throw.
  all: try (match goal with
            | |- context [schema_parse ?t ?o ?b] =>
                unfold schema_parse; destruct (forallb _ _); cbn [throw ret]; [|done]
            end).
  all: try (destruct (file req) as [f|]; [|done]).
  all: storage_call E H; try done.
  - by destruct x.
  - destruct x as [x|]; [|done].
    destruct (x !! "filePath") as [[| | |p| |]|]; try done.
    by destruct (existsSync _ _).
Qed.

Lemma callback_keeps h (w : World DB) : I (db w) → I (db (interval_callback st h w).2).
Proof.
  intros Hw. unfold interval_callback, bind, gets.
  destruct (intervals w !! h) as [run|]; [|done].
  unfold Math_random at 1. unfold set_run, modify, await. world_simpl.
  storage_call E1 H1; [|done].
  cbn [for_]. unfold bind, Math_random, await, ret. world_simpl.
  storage_call E2 H2; [|done]. world_simpl.
  storage_call E3 H3; [|done]. world_simpl.
  unfold broadcast, modify. world_simpl.
  destruct (totalPages <=? currentPage run + 1); [|done].
  unfold clearInterval, modify, bind, await. world_simpl.
  storage_call E4 H4; done.
Qed.

Lemma fire_keeps h (w : World DB) : I (db w) → I (db (fire st h w)).
Proof.
  intros Hw. unfold fire. destruct (exited w); [done|].
  destruct (intervals w !! h) as [run|]; [|done]. destruct (cleared run); [done|].
  pose proof (callback_keeps h w Hw) as H.
  by destruct (interval_callback st h w) as [[[]|e] w1].
Qed.

Lemma react_keeps (w : World DB) e : I (db w) → I (db (react st w e)).
Proof. destruct e; [apply handle_keeps|apply fire_keeps]. Qed.

Lemma run_keeps trace (w : World DB) : I (db w) → I (db (foldl (react st) w trace)).
Proof.
  revert w. induction trace as [|e trace IH]; intros w Hw; [done|].
  cbn [foldl]. by apply IH, react_keeps.
Qed.
End Invariant.



(** *** Deleting the leads first *)

Lemma referenced_leads d k : referenced d Leads k = false.
Proof. reflexivity. Qed.

Lemma deleteLead_spec k d :
  (DatabaseStorage.deleteLead k d).2 = set_table Leads (delete k (leads d)) d.
Proof.
  unfold DatabaseStorage.deleteLead, db_delete. cbn [get_table].
  destruct (leads d !! k) eqn:Hk.
  - by rewrite referenced_leads.
  - rewrite delete_id by done. destruct (has_nul k); by destruct d.
Qed.

Lemma deleteLeads_spec ks : ∀ d,
  (∀ k, leads (deleteLeads ks d) !! k = if decide (k ∈ ks) then None else leads d !! k) ∧
  users (deleteLeads ks d) = users d ∧ campaigns (deleteLeads ks d) = campaigns d ∧
  files (deleteLeads ks d) = files d ∧ clock (deleteLeads ks d) = clock d.
Proof.
  induction ks as [|k ks IH]; intros d.
  - split; [|done]. intros k. by rewrite decide_False by apply not_elem_of_nil.
  - unfold deleteLeads. cbn [foldl deleteLead storage]. rewrite deleteLead_spec.
    fold (deleteLeads ks (set_table Leads (delete k (leads d)) d)).
    destruct (IH (set_table Leads (delete k (leads d)) d)) as (Hl & Hu & Hc & Hf & Hcl).
    split; [|done]. intros j. rewrite Hl. cbn [set_table leads].
    destruct (decide (j = k)) as [->|Hne].
    + rewrite lookup_delete_eq. rewrite (decide_True (P := k ∈ k :: ks)) by left.
      by destruct (decide (k ∈ ks)).
    + rewrite lookup_delete_ne by done.
      destruct (decide (j ∈ ks)) as [Hin|Hin].
      * by rewrite decide_True by (by right).
      * rewrite decide_False; [done|]. by intros [?|?]%elem_of_cons.
Qed.

(** X10.  A campaign can be deleted once its leads are: after
    [deleteLead] on a list of ids that covers every lead of the campaign,
    exactly the leads of the list are gone, the campaigns are untouched,
    and [deleteCampaign] on the campaign succeeds, removes its row and
    leaves the remaining leads. *)
Theorem campaign_deletable_after_its_leads (d : Database) (id : string)
    (ks : list string) :
  is_Some (campaigns d !! id) →
  (∀ k lead, leads d !! k = Some lead → lead !! "campaignId" = Some (VStr id) → k ∈ ks) →
  let d' := deleteLeads ks d in
  (∀ k, leads d' !! k = if decide (k ∈ ks) then None else leads d !! k) ∧
  campaigns d' = campaigns d ∧
  (deleteCampaign storage id d').1 = Ok tt ∧
  campaigns (deleteCampaign storage id d').2 = delete id (campaigns d) ∧
  leads (deleteCampaign storage id d').2 = leads d'.
Proof.
  intros [c Hid] Hks d'. destruct (deleteLeads_spec ks d) as (Hl & _ & Hc & _).
  fold d' in Hl, Hc.
  split; [exact Hl|]. split; [exact Hc|]. clearbody d'.
  cbn [deleteCampaign storage]. unfold DatabaseStorage.deleteCampaign, db_delete.
  cbn [get_table]. rewrite referenced_campaign.
  rewrite bool_decide_eq_false_2.
  - rewrite Hc, Hid. cbn. done.
  - intros (k & lead & Hk & Hlead). rewrite Hl in Hk.
    destruct (decide (k ∈ ks)) as [Hin|Hin]; [done|]. by apply Hin, (Hks k lead).
Qed.


(** *** Listings *)

#[local] Instance newer_total c : Total (newer c).
Proof.
  intros a b. unfold newer. destruct (stamp c a), (stamp c b); try tauto. lia.
Qed.

#[local] Instance newer_trans c : Transitive (newer c).
Proof.
  intros x y z. unfold newer.
  destruct (stamp c x), (stamp c y), (stamp c z); try tauto. lia.
Qed.

Lemma elem_of_rows t d row :
  row ∈ rows t d ↔ ∃ k r, get_table t d !! k = Some r ∧ row = row_of k r.
Proof.
  unfold rows. rewrite list_elem_of_fmap. split.
  - intros ([k r] & -> & Hkr%elem_of_map_to_list). by exists k, r.
  - intros (k & r & Hkr & ->). exists (k, r). split; [done|]. by apply elem_of_map_to_list.
Qed.

Lemma row_of_id k r : row_of k r !! "id" = Some (VStr k).
Proof. apply lookup_insert_eq. Qed.

Lemma row_of_other k r c : c ≠ "id" → row_of k r !! c = r !! c.
Proof. intros Hc. unfold row_of. by rewrite lookup_insert_ne. Qed.

Lemma row_of_key k r k' r' : row_of k r = row_of k' r' → k = k'.
Proof.
  intros E. assert (row_of k r !! "id" = row_of k' r' !! "id") as H by (by rewrite E).
  rewrite !row_of_id in H. congruence.
Qed.

Lemma NoDup_rows t d : NoDup (rows t d).
Proof.
  unfold rows. apply NoDup_fmap_2_strong; [|apply NoDup_map_to_list].
  intros [k r] [k' r'] H1%elem_of_map_to_list H2%elem_of_map_to_list E.
  cbn [fst snd] in E. apply row_of_key in E as E'. subst k'. congruence.
Qed.

Lemma elem_of_filter_bool {A} (f : A → bool) (l : list A) x :
  x ∈ List.filter f l ↔ x ∈ l ∧ f x = true.
Proof. rewrite !list_elem_of_In. apply filter_In. Qed.

Lemma NoDup_filter_bool {A} (f : A → bool) (l : list A) :
  NoDup l → NoDup (List.filter f l).
Proof.
  induction 1 as [|x l Hx Hl IH]; cbn; [constructor|].
  destruct (f x); [|done]. constructor; [|done].
  rewrite elem_of_filter_bool. tauto.
Qed.

Lemma order_by_desc_lists ts (f : obj → bool) t d (P : obj → Prop) :
  (∀ k r, get_table t d !! k = Some r → f (row_of k r) = true ↔ P (row_of k r)) →
  (∀ row, P row → ∃ k r, get_table t d !! k = Some r ∧ row = row_of k r) →
  lists (order_by_desc ts (List.filter f (rows t d))) P ts.
Proof.
  intros Hf HP. unfold order_by_desc. split; [|split].
  - intros row. rewrite merge_sort_Permutation, elem_of_filter_bool, elem_of_rows. split.
    + intros [(k & r & Hkr & ->) Hrow]. by apply Hf.
    + intros Hrow. destruct (HP row Hrow) as (k & r & Hkr & ->).
      split; [by eauto|]. by apply Hf.
  - rewrite merge_sort_Permutation. apply NoDup_filter_bool, NoDup_rows.
  - apply StronglySorted_merge_sort; apply _.
Qed.

Lemma filtered_lists t c v ts d :
  c ≠ "id" →
  lists (order_by_desc ts (List.filter (has c v) (rows t d))) (matching t c v d) ts.
Proof.
  intros Hc. apply order_by_desc_lists.
  - intros k r Hkr. unfold has. rewrite bool_decide_eq_true, row_of_other by done. split.
    + intros Hv. by exists k, r.
    + intros (k' & r' & Hkr' & Hv & E).
      apply row_of_key in E as E'. subst k'. congruence.
  - intros row (k & r & Hkr & _ & ->). by eauto.
Qed.

Lemma select_where_plain t c param ts d :
  has_nul param = false →
  select_where t c param ts d =
    (Ok (order_by_desc ts (List.filter (has c (VStr param)) (rows t d))), d).
Proof.
  intros Hn. unfold select_where. rewrite Hn.
  by destruct (List.filter _ _).
Qed.

Lemma select_where_found t c param ts d row :
  row ∈ List.filter (has c (VStr param)) (rows t d) →
  select_where t c param ts d =
    (Ok (order_by_desc ts (List.filter (has c (VStr param)) (rows t d))), d).
Proof.
  intros Hrow. unfold select_where.
  destruct (List.filter _ _); [by apply not_elem_of_nil in Hrow|done].
Qed.

Lemma select_where_Ok t c param ts d l d' :
  select_where t c param ts d = (Ok l, d') →
  l = order_by_desc ts (List.filter (has c (VStr param)) (rows t d)).
Proof.
  unfold select_where. destruct (List.filter _ _).
  - destruct (has_nul param); by intros [= <- _].
  - by intros [= <- _].
Qed.

Lemma owner_plain d u : has_nul u = false → DatabaseStorage.owner_refused d u = false.
Proof. intros Hn. unfold DatabaseStorage.owner_refused. by rewrite Hn. Qed.

(** X11.  The three filtered listings, for a parameter that holds no
    U+0000: [getUserCampaigns(u)] returns exactly the campaigns whose
    userId is [u], [getCampaignLeads(id)] exactly the leads whose
    campaignId is [id], [getUserFiles(u)] exactly the files whose userId
    is [u]; each row once, newest first, and the database is not
    changed. *)
Theorem filtered_listings (d : Database) (u id : string) :
  has_nul u = false →
  has_nul id = false →
  (∃ l, getUserCampaigns storage u d = (Ok l, d) ∧
        lists l (matching Campaigns "userId" (VStr u) d) "createdAt") ∧
  (∃ l, getCampaignLeads storage id d = (Ok l, d) ∧
        lists l (matching Leads "campaignId" (VStr id) d) "createdAt") ∧
  (∃ l, getUserFiles storage u d = (Ok l, d) ∧
        lists l (matching Files "userId" (VStr u) d) "uploadedAt").
Proof.
  intros Hu Hid.
  split; [|split]; (eexists; split; [by apply select_where_plain|]);
    by apply filtered_lists.
Qed.

Lemma joined_row d u k lead :
  DatabaseStorage.joined d u (row_of k lead) = true ↔
  ∃ cid c, lead !! "campaignId" = Some (VStr cid) ∧ campaigns d !! cid = Some c ∧
           c !! "userId" = Some (VStr u).
Proof.
  unfold DatabaseStorage.joined. rewrite row_of_other by done. split.
  - destruct (lead !! "campaignId") as [[| | |cid| |]|]; try done.
    destruct (campaigns d !! cid) as [c|] eqn:Hc; [|done].
    unfold has. rewrite bool_decide_eq_true. by eauto.
  - intros (cid & c & -> & -> & Hu). unfold has. by rewrite bool_decide_eq_true.
Qed.

(** X12.  [getUserLeads(u)], for a user id that holds no U+0000, returns
    exactly the leads of the campaigns that belong to [u], each once,
    newest first: a lead is listed exactly when it is in
    [getCampaignLeads(cid)] for a campaign [cid] of
    [getUserCampaigns(u)]. *)
Theorem user_leads_by_campaign (d : Database) (u : string) :
  has_nul u = false →
  ∃ l, getUserLeads storage u d = (Ok l, d) ∧
       lists l (owned_lead u d) "createdAt" ∧
       ∀ row, row ∈ l ↔
         ∃ campaign cid mine theirs,
           getUserCampaigns storage u d = (Ok mine, d) ∧ campaign ∈ mine ∧
           campaign !! "id" = Some (VStr cid) ∧
           getCampaignLeads storage cid d = (Ok theirs, d) ∧ row ∈ theirs.
Proof.
  intros Hn. eexists. split.
  { cbn [getUserLeads storage]. unfold DatabaseStorage.getUserLeads.
    by rewrite owner_plain. }
  assert (H : lists (order_by_desc "createdAt"
                       (List.filter (DatabaseStorage.joined d u) (rows Leads d)))
                    (owned_lead u d) "createdAt").
  { apply order_by_desc_lists.
    - intros k lead Hk. rewrite joined_row. split.
      + intros (cid & c & Hcid & Hc & Hu). exists cid, c. split; [done|]. split; [done|].
        by exists k, lead.
      + intros (cid & c & Hc & Hu & k' & lead' & Hk' & Hcid & E).
        apply row_of_key in E as E'. subst k'.
        assert (lead' = lead) as -> by (cbn in *; congruence). by eauto.
    - intros row (cid & c & _ & _ & k & lead & Hk & _ & ->). by eauto. }
  split; [exact H|]. intros row. destruct H as [-> _]. split.
  - intros (cid & c & Hc & Hu & Hrow).
    exists (row_of cid c), cid. eexists _, _.
    assert (Hin : row ∈ List.filter (has "campaignId" (VStr cid)) (rows Leads d)).
    { apply (filtered_lists Leads "campaignId" (VStr cid) "createdAt" d) in Hrow; [|done].
      unfold order_by_desc in Hrow. by rewrite merge_sort_Permutation in Hrow. }
    split; [by apply select_where_plain|].
    split; [|split; [apply row_of_id|split; [by eapply select_where_found|]]].
    + apply (filtered_lists Campaigns "userId" (VStr u) "createdAt" d); [done|].
      by exists cid, c.
    + by apply (filtered_lists Leads "campaignId" (VStr cid) "createdAt" d).
  - intros (campaign & cid & mine & theirs & Hmine & Hcamp & Hid & Htheirs & Hrow).
    apply select_where_Ok in Hmine as ->. apply select_where_Ok in Htheirs as ->.
    apply (filtered_lists Campaigns "userId" (VStr u) "createdAt" d) in Hcamp; [|done].
    apply (filtered_lists Leads "campaignId" (VStr cid) "createdAt" d) in Hrow; [|done].
    destruct Hcamp as (k & c & Hc & Hu & ->). rewrite row_of_id in Hid.
    injection Hid as ->. by exists cid, c.
Qed.

(** *** Statistics *)

Lemma filter_length_perm {A} (f : A → bool) (l l' : list A) :
  l ≡ₚ l' → length (List.filter f l) = length (List.filter f l').
Proof.
  induction 1 as [|x l l' _ IH|x y l|l1 l2 l3 _ IH1 _ IH2]; cbn; try done.
  - destruct (f x); cbn; congruence.
  - by destruct (f x), (f y).
  - congruence.
Qed.

Lemma filter_filter_bool {A} (f g : A → bool) (l : list A) :
  List.filter (λ x, f x && g x) l = List.filter g (List.filter f l).
Proof.
  induction l as [|x l IH]; [done|]. cbn. destruct (f x); cbn; [|done].
  destruct (g x); by rewrite IH.
Qed.

Lemma filter_length_le {A} (f : A → bool) (l : list A) :
  (length (List.filter f l) ≤ length l)%nat.
Proof. induction l as [|x l IH]; cbn; [done|]. destruct (f x); cbn; lia. Qed.

Lemma toFixed1_0 x : (x == 0)%Q → DatabaseStorage.toFixed1 x = "0.0".
Proof. intros E. unfold DatabaseStorage.toFixed1. by rewrite E. Qed.

Lemma toFixed1_100 x : (x == 100)%Q → DatabaseStorage.toFixed1 x = "100.0".
Proof. intros E. unfold DatabaseStorage.toFixed1. by rewrite E. Qed.

Lemma percent_range (v t : Z) :
  0 ≤ v ≤ t → 0 < t →
  0 ≤ Qfloor (inject_Z v / inject_Z t * 100 * 10 + (1 # 2)) ≤ 1000.
Proof.
  intros Hv Ht.
  assert (0 < inject_Z t)%Q as Hpos.
  { change 0%Q with (inject_Z 0). by rewrite <- Zlt_Qlt. }
  assert (0 <= inject_Z v / inject_Z t)%Q as H0.
  { apply Qle_shift_div_l; [done|].
    rewrite Qmult_0_l. change 0%Q with (inject_Z 0). rewrite <- Zle_Qle. lia. }
  assert (inject_Z v / inject_Z t <= 1)%Q as H1.
  { apply Qle_shift_div_r; [done|].
    rewrite Qmult_1_l. rewrite <- Zle_Qle. lia. }
  split.
  - change 0 with (Qfloor 0). apply Qfloor_resp_le.
    assert (0 <= inject_Z v / inject_Z t * 100 * 10)%Q; [|lra].
    nra.
  - change 1000 with (Qfloor (1000 + (1 # 2))). apply Qfloor_resp_le.
    assert (inject_Z v / inject_Z t * 100 * 10 <= 1000)%Q; [|lra]. nra.
Qed.

(** X13.  [getLeadStats(u)], for a user id that holds no U+0000, returns
    an object with the four properties totalLeads, validatedLeads,
    activeCampaigns and conversionRate: totalLeads is the length of
    [getUserLeads(u)], validatedLeads counts its validated rows,
    activeCampaigns counts the rows of [getUserCampaigns(u)] whose status
    is running, and conversionRate is a string with one decimal, between
    0.0 and 100.0, that is 0.0 when no lead is validated and 100.0 when
    all of at least one are. *)
Theorem stats_agree_with_listings (d : Database) (u : string) :
  has_nul u = false →
  ∃ stats mine campaigns rate,
    getLeadStats storage u d = (Ok stats, d) ∧
    getUserLeads storage u d = (Ok mine, d) ∧
    getUserCampaigns storage u d = (Ok campaigns, d) ∧
    dom stats = {["totalLeads"; "validatedLeads"; "activeCampaigns"; "conversionRate"]} ∧
    stats !! "totalLeads" = Some (VInt (Z.of_nat (length mine))) ∧
    stats !! "validatedLeads" = Some (VInt (holding "isValidated" (VBool true) mine)) ∧
    stats !! "activeCampaigns" = Some (VInt (holding "status" (VStr "running") campaigns)) ∧
    stats !! "conversionRate" = Some (VStr rate) ∧
    0 ≤ count_of "validatedLeads" stats ≤ count_of "totalLeads" stats ∧
    (count_of "validatedLeads" stats = 0 → rate = "0.0") ∧
    (0 < count_of "totalLeads" stats →
     count_of "validatedLeads" stats = count_of "totalLeads" stats → rate = "100.0") ∧
    ∃ tenths, 0 ≤ tenths ≤ 1000 ∧ rate = show (tenths / 10) +:+ "." +:+ show (tenths mod 10).
Proof.
  intros Hn. cbn [getLeadStats getUserLeads getUserCampaigns storage].
  unfold DatabaseStorage.getLeadStats, DatabaseStorage.getUserLeads,
    DatabaseStorage.getUserCampaigns, gets, holding.
  rewrite select_where_plain, owner_plain by done. unfold order_by_desc.
  set (mine := List.filter (DatabaseStorage.joined d u) (rows Leads d)).
  set (own := List.filter (has "userId" (VStr u)) (rows Campaigns d)).
  set (t := Z.of_nat (length mine)).
  set (v := Z.of_nat (length (List.filter (has "isValidated" (VBool true)) mine))).
  assert (Hv : 0 ≤ v ≤ t).
  { unfold v, t. pose proof (filter_length_le (has "isValidated" (VBool true)) mine). lia. }
  eexists _, _, _, _. split; [reflexivity|]. split; [reflexivity|]. split; [reflexivity|].
  split; [by rewrite !dom_insert_L, dom_empty_L; set_solver|].
  split.
  { rewrite lookup_insert_eq. do 3 f_equal.
    apply Permutation_length. by rewrite merge_sort_Permutation. }
  split.
  { rewrite lookup_insert_ne, lookup_insert_eq by done. do 3 f_equal.
    apply filter_length_perm. by rewrite merge_sort_Permutation. }
  split.
  { rewrite !lookup_insert_ne, lookup_insert_eq by done. do 3 f_equal.
    rewrite filter_filter_bool. apply filter_length_perm.
    by rewrite merge_sort_Permutation. }
  split; [by rewrite !lookup_insert_ne, lookup_insert_eq by done|].
  unfold count_of. rewrite lookup_insert_eq. rewrite lookup_insert_ne, lookup_insert_eq by done.
  split; [done|].
  destruct (0 <? t) eqn:Ht; [apply Z.ltb_lt in Ht|apply Z.ltb_ge in Ht].
  - split; [|split].
    + intros ->. apply toFixed1_0. unfold Qdiv. by rewrite Qmult_0_l, Qmult_0_l.
    + intros _ ->. apply toFixed1_100.
      assert (¬ (inject_Z t == 0)%Q) as Hne.
      { change 0%Q with (inject_Z 0). rewrite inject_Z_injective. lia. }
      by field.
    + eexists. split; [|reflexivity]. by apply percent_range.
  - split; [done|]. split; [lia|]. exists 0. done.
Qed.


(** *** Ids that name no row *)




(** ** The further properties on the sample data *)

(** X2 on bob's socket over the sample trace. *)
Lemma connections_do_not_interfere_sample :
  ws_run sample_clients sample_trace !! 0%nat =
    Some (foldl (own_step 0) (mkClient OPEN (Some (VStr "bob")) []) sample_trace).
Proof.
  refine (proj1 (connections_do_not_interfere 0 sample_clients _ sample_trace _)).
  reflexivity.
Defined.

(** X3 on bob's socket over the sample trace. *)
Lemma deliveries_are_appended_sample :
  ∃ ws', ws_run sample_clients sample_trace !! 0%nat = Some ws' ∧
         sent (mkClient OPEN (Some (VStr "bob")) []) `prefix_of` sent ws' ∧
         (readyState (mkClient OPEN (Some (VStr "bob")) []) ≠ OPEN →
          readyState ws' ≠ OPEN ∧ sent ws' = sent (mkClient OPEN (Some (VStr "bob")) [])).
Proof. apply (deliveries_are_appended 0 sample_clients). reflexivity. Defined.

(** X4: the socket that had not sent auth claims to be bob; of the two
    broadcasts that follow it is sent the one addressed to bob. *)
Lemma identity_is_self_declared_sample :
  ∃ ws',
    ws_run sample_clients
      [Message 2 (auth_frame "bob");
       Broadcast "bob" (scraping_completed "c1");
       Broadcast "alice" (scraping_completed "c1")] !! 2%nat = Some ws' ∧
    userId ws' = Some (VStr "bob") ∧
    sent ws' = [scraping_completed "c1"].
Proof.
  apply (identity_is_self_declared 2 sample_clients (mkClient OPEN None []) "bob"
           [Broadcast "bob" (scraping_completed "c1");
            Broadcast "alice" (scraping_completed "c1")]).
  - reflexivity.
  - reflexivity.
  - discriminate.
  - reflexivity.
  - reflexivity.
Defined.

(** X5 on the sample run whose campaign was deleted before the first
    tick. *)
Lemma database_insert_throws_sample :
  ∃ run, intervals deleted_after_start !! 0%nat = Some run ∧
         campaigns (db deleted_after_start) !! run_campaignId run = None.
Proof.
  refine (proj2 (proj2 (proj2
            (database_insert_throws 0 deleted_after_start ForeignKeyViolation 0%nat
               (db deleted_after_start) _)))).
  exists (mkRun "c1" "bob" 0 0 false), None, deleted_after_start.(db).
  split; [compute_done|]. split; [compute_done|].
  left. split; [reflexivity|]. compute_done.
Defined.

(** X6: bob starts a campaign that does not exist; three firings leave
    three rejections. *)
Lemma start_of_unknown_campaign_never_stops_sample :
  (handle storage POST_campaign_start start_unknown (sample_world sample_db warn)).1
    = Ok (mkResponse 200 undefined) ∧
  unhandled (fires storage 3 0
               (handle storage POST_campaign_start start_unknown
                  (sample_world sample_db warn)).2)
    = [ForeignKeyViolation; ForeignKeyViolation; ForeignKeyViolation].
Proof.
  pose proof (start_of_unknown_campaign_never_stops (sample_world sample_db warn)
                start_unknown 3 eq_refl eq_refl eq_refl eq_refl) as H.
  cbv zeta in H. destruct H as (Hres & _ & _ & _ & Hun & _).
  split; [exact Hres|exact Hun].
Defined.

(** X7: bob and alice both start the sample campaign; the first timer
    fires twice and the second once. *)
Lemma two_starts_two_runs_sample :
  let started :=
    (handle storage POST_campaign_start (start_by "alice")
       (handle storage POST_campaign_start (start_by "bob")
          (sample_world sample_db warn)).2).2 in
  page 0 (fire_each storage [0; 1; 0]%nat started) = 2 ∧
  page 1 (fire_each storage [0; 1; 0]%nat started) = 1.
Proof.
  pose proof (two_starts_two_runs (sample_world sample_db warn) (start_by "bob")
                (start_by "alice") sample_campaign [0; 1; 0]%nat) as H.
  cbv zeta in H. destruct H as (_ & Ha & Hb & _).
  - reflexivity.
  - reflexivity.
  - reflexivity.
  - repeat (apply List.Forall_cons; [(by left) || (by right)|]). apply List.Forall_nil.
  - cbv zeta. split; [exact Ha|exact Hb].
Defined.

Lemma sample_consistent : consistent sample_db_with_lead.
Proof.
  intros t c t' Hc Hr k r v Hk Hv.
  destruct t; each_column Hc; try discriminate Hr; injection Hr as <-;
    cbn [get_table sample_db_with_lead campaigns leads files users] in *.
  - apply lookup_singleton_Some in Hk as [<- <-]. vm_compute in Hv.
    injection Hv as <-. compute_done.
  - apply lookup_singleton_Some in Hk as [<- <-]. vm_compute in Hv.
    injection Hv as <-. compute_done.
  - by rewrite lookup_empty in Hk.
Qed.



(** X10 on the sample campaign, which C3's counterexample could not
    delete. *)
Lemma campaign_deletable_after_its_leads_sample :
  (deleteCampaign storage "c1" (deleteLeads ["l1"] sample_db_with_lead)).1 = Ok tt ∧
  campaigns (deleteCampaign storage "c1" (deleteLeads ["l1"] sample_db_with_lead)).2
    = delete "c1" (campaigns sample_db_with_lead).
Proof.
  pose proof (campaign_deletable_after_its_leads sample_db_with_lead "c1" ["l1"]) as H.
  cbv zeta in H. destruct H as (_ & _ & Hok & Hgone & _).
  - by eexists.
  - intros k lead Hk _. cbn [leads sample_db_with_lead] in Hk.
    apply lookup_singleton_Some in Hk as [<- _]. by left.
  - split; [exact Hok|exact Hgone].
Defined.

(** X11 on bob's campaigns. *)
Lemma filtered_listings_sample :
  ∃ l, getUserCampaigns storage "bob" sample_db_with_lead = (Ok l, sample_db_with_lead) ∧
       lists l (matching Campaigns "userId" (VStr "bob") sample_db_with_lead) "createdAt".
Proof.
  refine (proj1 (filtered_listings sample_db_with_lead "bob" "c1" _ _)); reflexivity.
Defined.

(** X12 on bob's leads. *)
Lemma user_leads_by_campaign_sample :
  ∃ l, getUserLeads storage "bob" sample_db_with_lead = (Ok l, sample_db_with_lead) ∧
       lists l (owned_lead "bob" sample_db_with_lead) "createdAt".
Proof.
  destruct (user_leads_by_campaign sample_db_with_lead "bob") as (l & Hl & Hlists & _).
  - reflexivity.
  - exists l. split; [exact Hl|exact Hlists].
Defined.

(** X13 on bob's statistics. *)
Lemma stats_agree_with_listings_sample :
  ∃ stats mine,
    getLeadStats storage "bob" sample_db_with_lead = (Ok stats, sample_db_with_lead) ∧
    getUserLeads storage "bob" sample_db_with_lead = (Ok mine, sample_db_with_lead) ∧
    stats !! "totalLeads" = Some (VInt (Z.of_nat (length mine))).
Proof.
  destruct (stats_agree_with_listings sample_db_with_lead "bob")
    as (stats & mine & cs & rate & Hs & Hm & _ & _ & Ht & _).
  - reflexivity.
  - exists stats, mine. split; [exact Hs|]. split; [exact Hm|exact Ht].
Defined.

